(** * Highs.cpp: the run pipeline, the finalizer and the model editor

    A shallow embedding of [src/lp_data/Highs.cpp] of HiGHS.  The class
    [Highs] becomes a record that is threaded through every method; the
    methods keep their names.  Everything the file only calls (the LP
    solver, the presolve engine, the file readers, the option and info
    registries, the simplex interface) is a field of the class
    [Collaborators]: an arbitrary function of exactly the data the call can
    reach, so that every statement below holds whatever those components do.
    What the basis queries and the setters call in addition is a field of
    [Arithmetic] or [Services].

    Conventions.
    - [double] is an abstract type with the comparisons and the arithmetic
      the file uses ([Platform]); nothing is assumed about it unless a
      statement says so.
    - [assert] is a debugging check that disappears under NDEBUG; the
      embedding follows the release build and keeps the assertions as
      comments.
    - Logging calls ([HighsLogMessage], [HighsPrintMessage], [printf],
      [reportPresolveReductions], [analyseHighsBasicSolution]), the
      message level and output stream handed to the presolve engine, and
      the [HighsTimer] bookkeeping that only feeds them are not modelled.
      The readings of the run clock ([readRunHighsClock], in [run] and in
      [runPresolve], where they decide control flow) are counted and
      taken from an arbitrary sequence [clock].
    - [numCol_] and [numRow_] are natural numbers: an LP that passed
      [assessLp] has no negative dimension.
    - [HighsModelObject] keeps references to the LP and to the options it is
      built from: [hmos_[0].lp_] is [lp_], the reduced-problem object's LP
      is the presolve component's reduced LP, and every object's
      [options_] is the one [options_] of [Highs].  The embedding stores a
      tag ([LpRef]) in the object and resolves it against the shared state.
    - [trace_] is a ghost log of the stages invoked; it plays the part of
      the instrumentation counters and no method reads it. *)

From Stdlib Require Import ZArith Ascii String Bool List Lia.
From stdpp Require Import base tactics option list strings gmap.
Import ListNotations.

Local Open Scope Z_scope.
Local Open Scope string_scope.

(** ** Enumerations *)

(** [HighsStatus]: the aggregate return code. *)
Inductive HighsStatus := OK | Warning | Error.

(** [HighsModelStatus], as enumerated by the finalizer's switch. *)
Inductive HighsModelStatus :=
| NOTSET
| LOAD_ERROR
| MODEL_ERROR
| PRESOLVE_ERROR
| SOLVE_ERROR
| POSTSOLVE_ERROR
| MODEL_EMPTY
| PRIMAL_INFEASIBLE
| PRIMAL_UNBOUNDED
| OPTIMAL
| REACHED_DUAL_OBJECTIVE_VALUE_UPPER_BOUND
| REACHED_TIME_LIMIT
| REACHED_ITERATION_LIMIT.

(** [HighsPresolveStatus]: the outcomes [Highs::run] and
    [Highs::runPresolve] name; [NullError] stands for every outcome that
    [run] sends to its [default] branch. *)
Inductive HighsPresolveStatus :=
| NotPresolved
| NotReduced
| Infeasible
| Unbounded
| Reduced
| ReducedToEmpty
| Timeout
| NullError
| OptionsError.

(** [HighsPostsolveStatus]. *)
Inductive HighsPostsolveStatus :=
| ReducedSolutionEmpty
| ReducedSolutionDimenionsError
| SolutionRecovered
| LpOrPresolveObjectMissing
| BasisError
| NoPostsolve.

Inductive ObjSense := MINIMIZE | MAXIMIZE.

(** [HighsBasisStatus]; [LOWER] is the value a resized vector is padded
    with. *)
Inductive HighsBasisStatus := LOWER | BASIC | UPPER | ZERO | NONBASIC | SUPER.

Module FilereaderRetcode.
Inductive t := OK | FILENOTFOUND | PARSERERROR | NOT_IMPLEMENTED | TIMEOUT.
End FilereaderRetcode.

#[global] Instance HighsStatus_eq_dec : EqDecision HighsStatus.
Proof. solve_decision. Defined.
#[global] Instance HighsModelStatus_eq_dec : EqDecision HighsModelStatus.
Proof. solve_decision. Defined.
#[global] Instance HighsPresolveStatus_eq_dec : EqDecision HighsPresolveStatus.
Proof. solve_decision. Defined.
#[global] Instance HighsPostsolveStatus_eq_dec : EqDecision HighsPostsolveStatus.
Proof. solve_decision. Defined.
#[global] Instance ObjSense_eq_dec : EqDecision ObjSense.
Proof. solve_decision. Defined.

(** ** Numbers and opaque component states *)

Class Platform := {
  double : Type;
  (** [0.0], the value [std::vector<double>::resize] pads with *)
  d_zero : double;
  HIGHS_CONST_INF : double;
  (** unary minus, [a - b], [a < b], [a <= b] *)
  dneg : double -> double;
  dsub : double -> double -> double;
  dlt : double -> double -> bool;
  dle : double -> double -> bool;
  (** the simplex data of a [HighsModelObject] that this file never opens *)
  SimplexData : Type;
  fresh_simplex_data : SimplexData;
  (** the reduction engine [presolve_.data_.presolve_[0]] *)
  PresolveEngine : Type
}.

(** [a > b] *)
Definition dgt `{Platform} (a b : double) : bool := dlt b a.

(** ** Data model *)

Section DataModel.
Context `{P : Platform}.

Record HighsLp := {
  numCol_ : nat;
  numRow_ : nat;
  Astart_ : list Z;
  Aindex_ : list Z;
  Avalue_ : list double;
  colCost_ : list double;
  colLower_ : list double;
  colUpper_ : list double;
  rowLower_ : list double;
  rowUpper_ : list double;
  sense_ : ObjSense;
  model_name_ : string;
  lp_name_ : string
}.

Record HighsOptions := {
  presolve : string;
  solver : string;
  run_crossover : bool;
  run_as_hsol : bool;
  model_file : string;
  time_limit : double;
  dual_objective_value_upper_bound : double;
  highs_min_threads : Z;
  highs_max_threads : Z;
  simplex_strategy : Z
}.

Record HighsBasis := {
  valid_ : bool;
  col_status : list HighsBasisStatus;
  row_status : list HighsBasisStatus
}.

Record HighsSolution := {
  col_value : list double;
  col_dual : list double;
  row_value : list double;
  row_dual : list double
}.

Record HighsIterationCounts := {
  simplex : Z;
  ipm : Z;
  crossover : Z
}.

Record HighsSolutionParams := {
  sp_primal_status : Z;
  sp_dual_status : Z;
  sp_objective_function_value : double;
  sp_num_primal_infeasibilities : Z;
  sp_max_primal_infeasibility : double;
  sp_sum_primal_infeasibilities : double;
  sp_num_dual_infeasibilities : Z;
  sp_max_dual_infeasibility : double;
  sp_sum_dual_infeasibilities : double
}.

Record HighsInfo := {
  simplex_iteration_count : Z;
  ipm_iteration_count : Z;
  crossover_iteration_count : Z;
  primal_status : Z;
  dual_status : Z;
  objective_function_value : double;
  num_primal_infeasibilities : Z;
  max_primal_infeasibility : double;
  sum_primal_infeasibilities : double;
  num_dual_infeasibilities : Z;
  max_dual_infeasibility : double;
  sum_dual_infeasibilities : double
}.

(** Which LP a model object's [lp_] reference is bound to. *)
Inductive LpRef := OriginalLp | ReducedLp.

Record HighsModelObject := {
  hmo_lp_ : LpRef;
  hmo_basis_ : HighsBasis;
  hmo_solution_ : HighsSolution;
  unscaled_model_status_ : HighsModelStatus;
  hmo_scaled_model_status_ : HighsModelStatus;
  unscaled_solution_params_ : HighsSolutionParams;
  scaled_solution_params_ : HighsSolutionParams;
  iteration_counts_ : HighsIterationCounts;
  simplex_ : SimplexData
}.

(** [PresolveComponent]: the members this file reads or writes, and the
    engine. *)
Record PresolveComponent := {
  has_run_ : bool;
  presolve_status_ : HighsPresolveStatus;
  presolve_time_limit : double;        (* presolve_.options_.time_limit *)
  n_cols_removed : Z;                  (* presolve_.info_ *)
  n_rows_removed : Z;
  n_nnz_removed : Z;
  reduced_lp_ : HighsLp;               (* getReducedProblem() *)
  reduced_solution_ : HighsSolution;   (* data_.reduced_solution_ *)
  recovered_solution_ : HighsSolution; (* data_.recovered_solution_ *)
  engine_ : PresolveEngine             (* data_.presolve_[0] *)
}.

(** The stages a call can invoke, in the order they are invoked. *)
Inductive Event :=
| EvRun (basis_valid : bool) (presolve_option : string)
| EvPresolve (st : HighsPresolveStatus)
| EvNegateReducedLpCost
| EvNegateReducedLpColDuals (reduced : bool)
| EvPostsolveEngine (reduced_solution : HighsSolution)
| EvPostsolve (st : HighsPostsolveStatus)
| EvSolveLp (model_index : nat) (message : string) (options : HighsOptions).

(** The data members of [Highs]. *)
Record Highs := {
  lp_ : HighsLp;
  options_ : HighsOptions;
  hmos_ : list HighsModelObject;
  basis_ : HighsBasis;
  solution_ : HighsSolution;
  info_ : HighsInfo;
  model_status_ : HighsModelStatus;
  scaled_model_status_ : HighsModelStatus;
  presolve_ : PresolveComponent;
  clock_reads_ : nat;                  (* how often timer_ was read *)
  trace_ : list Event
}.

End DataModel.

(** ** External collaborators *)

(** Arguments of the structural-edit interface ([HighsSimplexInterface]);
    pointer arguments are the arrays they point to. *)
Section EditArguments.
Context `{P : Platform}.

Inductive EditOp :=
| OpAddRows (num_new_row : Z) (lower_bounds upper_bounds : list double)
    (num_new_nz : Z) (starts indices : list Z) (values : list double)
| OpAddCols (num_new_col : Z) (costs lower_bounds upper_bounds : list double)
    (num_new_nz : Z) (starts indices : list Z) (values : list double)
| OpDeleteColsRange (from_col to_col : Z)
| OpDeleteColsSet (num_set_entries : Z) (set : list Z)
| OpDeleteColsMask (mask : list Z)
| OpDeleteRowsRange (from_row to_row : Z)
| OpDeleteRowsSet (num_set_entries : Z) (set : list Z)
| OpDeleteRowsMask (mask : list Z)
| OpChangeObjectiveSense (sense : ObjSense)
| OpChangeCostsSet (num_set_entries : Z) (set : list Z) (cost : list double)
| OpChangeCostsMask (mask : list Z) (cost : list double)
| OpChangeColBoundsSet (num_set_entries : Z) (set : list Z)
    (lower upper : list double)
| OpChangeColBoundsRange (from_col to_col : Z) (lower upper : list double)
| OpChangeColBoundsMask (mask : list Z) (lower upper : list double)
| OpChangeRowBoundsSet (num_set_entries : Z) (set : list Z)
    (lower upper : list double)
| OpChangeRowBoundsMask (mask : list Z) (lower upper : list double)
| OpChangeCoefficient (row col : Z) (value : double).

End EditArguments.

Class Collaborators `{P : Platform} := {
  (** constants of HighsOptions.h, SimplexConst.h and HConst.h *)
  off_string : string;
  on_string : string;
  ipm_string : string;
  simplex_string : string;
  FILENAME_DEFAULT : string;
  SIMPLEX_STRATEGY_CHOOSE : Z;
  STATUS_NOTSET : Z;
  (** the members of a freshly constructed [HighsModelObject] *)
  default_solution_params : HighsSolutionParams;
  (** successive readings of the run clock *)
  clock : nat -> double;
  (** [setHsolOptions(options_)] *)
  setHsolOptions : HighsOptions -> HighsOptions;
  (** [Filereader::getFilereader(filename) != NULL] *)
  getFilereader : string -> bool;
  (** [reader->readModelFromFile(options_, model)] *)
  readModelFromFile : HighsOptions -> FilereaderRetcode.t * HighsLp;
  extractModelName : string -> string;
  (** [assessLp(lp_, options_)]: the status and the normalised LP *)
  assessLp : HighsLp -> HighsOptions -> HighsStatus * HighsLp;
  (** [cleanBounds(options_, reduced_lp)] *)
  cleanBounds : HighsOptions -> HighsLp -> HighsStatus * HighsLp;
  (** [solveLp(model, message)]: the solver sees the object, its LP and the
      options, and fills the object *)
  solveLp : string -> HighsLp -> HighsOptions -> HighsModelObject ->
            HighsStatus * HighsModelObject;
  (** [resetModelStatusAndSolutionParams(hmo)] *)
  resetModelStatusAndSolutionParams :
    HighsLp -> HighsOptions -> HighsModelObject -> HighsModelObject;
  (** [info_.clear()] *)
  HighsInfo_clear : HighsInfo -> HighsInfo;
  (** [presolve_.clear()], [presolve_.init(lp_, timer_)], [presolve_.run()] *)
  presolve_clear : PresolveComponent -> PresolveComponent;
  presolve_init : HighsLp -> PresolveComponent -> PresolveComponent;
  presolve_run : PresolveComponent -> HighsPresolveStatus * PresolveComponent;
  (** [presolve_.setBasisInfo(col_status, row_status)] *)
  setBasisInfo : list HighsBasisStatus -> list HighsBasisStatus ->
                 PresolveComponent -> PresolveComponent;
  (** [presolve_.data_.presolve_[0].postsolve(reduced, recovered)]: the
      status, the recovered solution written through the second argument,
      and the engine afterwards *)
  postsolve : PresolveEngine -> HighsSolution -> HighsSolution ->
              HighsPostsolveStatus * HighsSolution * PresolveEngine;
  getColStatus : PresolveEngine -> list HighsBasisStatus;
  getRowStatus : PresolveEngine -> list HighsBasisStatus;
  (** a method of [HighsSimplexInterface(hmos_[0])]: it works on the
      object and, through it, on [lp_] *)
  interface_edit : EditOp -> HighsOptions -> HighsLp -> HighsModelObject ->
                   HighsStatus * HighsLp * HighsModelObject;
  (** whether [fopen(name, "w")], for a C string [name], returns a stream *)
  fopen_w : string -> bool
}.

(** ** Assignment to a member

    [set_f v r] is [r.f = v]: the record [r] with member [f] replaced. *)

Section Setters.
Context `{P : Platform}.

Definition set_colCost_ (v : _) (r : HighsLp) : HighsLp :=
  {| numCol_ := numCol_ r; numRow_ := numRow_ r; Astart_ := Astart_ r;
     Aindex_ := Aindex_ r; Avalue_ := Avalue_ r; colCost_ := v; colLower_ :=
     colLower_ r; colUpper_ := colUpper_ r; rowLower_ := rowLower_ r;
     rowUpper_ := rowUpper_ r; sense_ := sense_ r; model_name_ :=
     model_name_ r; lp_name_ := lp_name_ r |}.

Definition set_model_name_ (v : _) (r : HighsLp) : HighsLp :=
  {| numCol_ := numCol_ r; numRow_ := numRow_ r; Astart_ := Astart_ r;
     Aindex_ := Aindex_ r; Avalue_ := Avalue_ r; colCost_ := colCost_ r;
     colLower_ := colLower_ r; colUpper_ := colUpper_ r; rowLower_ :=
     rowLower_ r; rowUpper_ := rowUpper_ r; sense_ := sense_ r; model_name_
     := v; lp_name_ := lp_name_ r |}.

Definition set_lp_name_ (v : _) (r : HighsLp) : HighsLp :=
  {| numCol_ := numCol_ r; numRow_ := numRow_ r; Astart_ := Astart_ r;
     Aindex_ := Aindex_ r; Avalue_ := Avalue_ r; colCost_ := colCost_ r;
     colLower_ := colLower_ r; colUpper_ := colUpper_ r; rowLower_ :=
     rowLower_ r; rowUpper_ := rowUpper_ r; sense_ := sense_ r; model_name_
     := model_name_ r; lp_name_ := v |}.


Definition set_solver (v : _) (r : HighsOptions) : HighsOptions :=
  {| presolve := presolve r; solver := v; run_crossover := run_crossover r;
     run_as_hsol := run_as_hsol r; model_file := model_file r; time_limit :=
     time_limit r; dual_objective_value_upper_bound :=
     dual_objective_value_upper_bound r; highs_min_threads :=
     highs_min_threads r; highs_max_threads := highs_max_threads r;
     simplex_strategy := simplex_strategy r |}.

Definition set_run_crossover (v : _) (r : HighsOptions) : HighsOptions :=
  {| presolve := presolve r; solver := solver r; run_crossover := v;
     run_as_hsol := run_as_hsol r; model_file := model_file r; time_limit :=
     time_limit r; dual_objective_value_upper_bound :=
     dual_objective_value_upper_bound r; highs_min_threads :=
     highs_min_threads r; highs_max_threads := highs_max_threads r;
     simplex_strategy := simplex_strategy r |}.

Definition set_model_file (v : _) (r : HighsOptions) : HighsOptions :=
  {| presolve := presolve r; solver := solver r; run_crossover :=
     run_crossover r; run_as_hsol := run_as_hsol r; model_file := v;
     time_limit := time_limit r; dual_objective_value_upper_bound :=
     dual_objective_value_upper_bound r; highs_min_threads :=
     highs_min_threads r; highs_max_threads := highs_max_threads r;
     simplex_strategy := simplex_strategy r |}.

Definition set_dual_objective_value_upper_bound (v : _) (r : HighsOptions) : HighsOptions :=
  {| presolve := presolve r; solver := solver r; run_crossover :=
     run_crossover r; run_as_hsol := run_as_hsol r; model_file := model_file
     r; time_limit := time_limit r; dual_objective_value_upper_bound := v;
     highs_min_threads := highs_min_threads r; highs_max_threads :=
     highs_max_threads r; simplex_strategy := simplex_strategy r |}.

Definition set_highs_min_threads (v : _) (r : HighsOptions) : HighsOptions :=
  {| presolve := presolve r; solver := solver r; run_crossover :=
     run_crossover r; run_as_hsol := run_as_hsol r; model_file := model_file
     r; time_limit := time_limit r; dual_objective_value_upper_bound :=
     dual_objective_value_upper_bound r; highs_min_threads := v;
     highs_max_threads := highs_max_threads r; simplex_strategy :=
     simplex_strategy r |}.

Definition set_highs_max_threads (v : _) (r : HighsOptions) : HighsOptions :=
  {| presolve := presolve r; solver := solver r; run_crossover :=
     run_crossover r; run_as_hsol := run_as_hsol r; model_file := model_file
     r; time_limit := time_limit r; dual_objective_value_upper_bound :=
     dual_objective_value_upper_bound r; highs_min_threads :=
     highs_min_threads r; highs_max_threads := v; simplex_strategy :=
     simplex_strategy r |}.

Definition set_simplex_strategy (v : _) (r : HighsOptions) : HighsOptions :=
  {| presolve := presolve r; solver := solver r; run_crossover :=
     run_crossover r; run_as_hsol := run_as_hsol r; model_file := model_file
     r; time_limit := time_limit r; dual_objective_value_upper_bound :=
     dual_objective_value_upper_bound r; highs_min_threads :=
     highs_min_threads r; highs_max_threads := highs_max_threads r;
     simplex_strategy := v |}.

Definition set_valid_ (v : _) (r : HighsBasis) : HighsBasis :=
  {| valid_ := v; col_status := col_status r; row_status := row_status r |}.

Definition set_col_status (v : _) (r : HighsBasis) : HighsBasis :=
  {| valid_ := valid_ r; col_status := v; row_status := row_status r |}.

Definition set_row_status (v : _) (r : HighsBasis) : HighsBasis :=
  {| valid_ := valid_ r; col_status := col_status r; row_status := v |}.

Definition set_col_dual (v : _) (r : HighsSolution) : HighsSolution :=
  {| col_value := col_value r; col_dual := v; row_value := row_value r;
     row_dual := row_dual r |}.

Definition set_primal_status (v : _) (r : HighsInfo) : HighsInfo :=
  {| simplex_iteration_count := simplex_iteration_count r;
     ipm_iteration_count := ipm_iteration_count r; crossover_iteration_count
     := crossover_iteration_count r; primal_status := v; dual_status :=
     dual_status r; objective_function_value := objective_function_value r;
     num_primal_infeasibilities := num_primal_infeasibilities r;
     max_primal_infeasibility := max_primal_infeasibility r;
     sum_primal_infeasibilities := sum_primal_infeasibilities r;
     num_dual_infeasibilities := num_dual_infeasibilities r;
     max_dual_infeasibility := max_dual_infeasibility r;
     sum_dual_infeasibilities := sum_dual_infeasibilities r |}.

Definition set_dual_status (v : _) (r : HighsInfo) : HighsInfo :=
  {| simplex_iteration_count := simplex_iteration_count r;
     ipm_iteration_count := ipm_iteration_count r; crossover_iteration_count
     := crossover_iteration_count r; primal_status := primal_status r;
     dual_status := v; objective_function_value := objective_function_value
     r; num_primal_infeasibilities := num_primal_infeasibilities r;
     max_primal_infeasibility := max_primal_infeasibility r;
     sum_primal_infeasibilities := sum_primal_infeasibilities r;
     num_dual_infeasibilities := num_dual_infeasibilities r;
     max_dual_infeasibility := max_dual_infeasibility r;
     sum_dual_infeasibilities := sum_dual_infeasibilities r |}.

Definition set_hmo_basis_ (v : _) (r : HighsModelObject) : HighsModelObject :=
  {| hmo_lp_ := hmo_lp_ r; hmo_basis_ := v; hmo_solution_ := hmo_solution_
     r; unscaled_model_status_ := unscaled_model_status_ r;
     hmo_scaled_model_status_ := hmo_scaled_model_status_ r;
     unscaled_solution_params_ := unscaled_solution_params_ r;
     scaled_solution_params_ := scaled_solution_params_ r; iteration_counts_
     := iteration_counts_ r; simplex_ := simplex_ r |}.

Definition set_hmo_solution_ (v : _) (r : HighsModelObject) : HighsModelObject :=
  {| hmo_lp_ := hmo_lp_ r; hmo_basis_ := hmo_basis_ r; hmo_solution_ := v;
     unscaled_model_status_ := unscaled_model_status_ r;
     hmo_scaled_model_status_ := hmo_scaled_model_status_ r;
     unscaled_solution_params_ := unscaled_solution_params_ r;
     scaled_solution_params_ := scaled_solution_params_ r; iteration_counts_
     := iteration_counts_ r; simplex_ := simplex_ r |}.

Definition set_unscaled_model_status_ (v : _) (r : HighsModelObject) : HighsModelObject :=
  {| hmo_lp_ := hmo_lp_ r; hmo_basis_ := hmo_basis_ r; hmo_solution_ :=
     hmo_solution_ r; unscaled_model_status_ := v; hmo_scaled_model_status_
     := hmo_scaled_model_status_ r; unscaled_solution_params_ :=
     unscaled_solution_params_ r; scaled_solution_params_ :=
     scaled_solution_params_ r; iteration_counts_ := iteration_counts_ r;
     simplex_ := simplex_ r |}.

Definition set_hmo_scaled_model_status_ (v : _) (r : HighsModelObject) : HighsModelObject :=
  {| hmo_lp_ := hmo_lp_ r; hmo_basis_ := hmo_basis_ r; hmo_solution_ :=
     hmo_solution_ r; unscaled_model_status_ := unscaled_model_status_ r;
     hmo_scaled_model_status_ := v; unscaled_solution_params_ :=
     unscaled_solution_params_ r; scaled_solution_params_ :=
     scaled_solution_params_ r; iteration_counts_ := iteration_counts_ r;
     simplex_ := simplex_ r |}.

Definition set_iteration_counts_ (v : _) (r : HighsModelObject) : HighsModelObject :=
  {| hmo_lp_ := hmo_lp_ r; hmo_basis_ := hmo_basis_ r; hmo_solution_ :=
     hmo_solution_ r; unscaled_model_status_ := unscaled_model_status_ r;
     hmo_scaled_model_status_ := hmo_scaled_model_status_ r;
     unscaled_solution_params_ := unscaled_solution_params_ r;
     scaled_solution_params_ := scaled_solution_params_ r; iteration_counts_
     := v; simplex_ := simplex_ r |}.

Definition set_presolve_time_limit (v : _) (r : PresolveComponent) : PresolveComponent :=
  {| has_run_ := has_run_ r; presolve_status_ := presolve_status_ r;
     presolve_time_limit := v; n_cols_removed := n_cols_removed r;
     n_rows_removed := n_rows_removed r; n_nnz_removed := n_nnz_removed r;
     reduced_lp_ := reduced_lp_ r; reduced_solution_ := reduced_solution_ r;
     recovered_solution_ := recovered_solution_ r; engine_ := engine_ r |}.

Definition set_n_cols_removed (v : _) (r : PresolveComponent) : PresolveComponent :=
  {| has_run_ := has_run_ r; presolve_status_ := presolve_status_ r;
     presolve_time_limit := presolve_time_limit r; n_cols_removed := v;
     n_rows_removed := n_rows_removed r; n_nnz_removed := n_nnz_removed r;
     reduced_lp_ := reduced_lp_ r; reduced_solution_ := reduced_solution_ r;
     recovered_solution_ := recovered_solution_ r; engine_ := engine_ r |}.

Definition set_n_rows_removed (v : _) (r : PresolveComponent) : PresolveComponent :=
  {| has_run_ := has_run_ r; presolve_status_ := presolve_status_ r;
     presolve_time_limit := presolve_time_limit r; n_cols_removed :=
     n_cols_removed r; n_rows_removed := v; n_nnz_removed := n_nnz_removed
     r; reduced_lp_ := reduced_lp_ r; reduced_solution_ := reduced_solution_
     r; recovered_solution_ := recovered_solution_ r; engine_ := engine_ r
     |}.

Definition set_n_nnz_removed (v : _) (r : PresolveComponent) : PresolveComponent :=
  {| has_run_ := has_run_ r; presolve_status_ := presolve_status_ r;
     presolve_time_limit := presolve_time_limit r; n_cols_removed :=
     n_cols_removed r; n_rows_removed := n_rows_removed r; n_nnz_removed :=
     v; reduced_lp_ := reduced_lp_ r; reduced_solution_ := reduced_solution_
     r; recovered_solution_ := recovered_solution_ r; engine_ := engine_ r
     |}.

Definition set_reduced_lp_ (v : _) (r : PresolveComponent) : PresolveComponent :=
  {| has_run_ := has_run_ r; presolve_status_ := presolve_status_ r;
     presolve_time_limit := presolve_time_limit r; n_cols_removed :=
     n_cols_removed r; n_rows_removed := n_rows_removed r; n_nnz_removed :=
     n_nnz_removed r; reduced_lp_ := v; reduced_solution_ :=
     reduced_solution_ r; recovered_solution_ := recovered_solution_ r;
     engine_ := engine_ r |}.

Definition set_reduced_solution_ (v : _) (r : PresolveComponent) : PresolveComponent :=
  {| has_run_ := has_run_ r; presolve_status_ := presolve_status_ r;
     presolve_time_limit := presolve_time_limit r; n_cols_removed :=
     n_cols_removed r; n_rows_removed := n_rows_removed r; n_nnz_removed :=
     n_nnz_removed r; reduced_lp_ := reduced_lp_ r; reduced_solution_ := v;
     recovered_solution_ := recovered_solution_ r; engine_ := engine_ r |}.

Definition set_recovered_solution_ (v : _) (r : PresolveComponent) : PresolveComponent :=
  {| has_run_ := has_run_ r; presolve_status_ := presolve_status_ r;
     presolve_time_limit := presolve_time_limit r; n_cols_removed :=
     n_cols_removed r; n_rows_removed := n_rows_removed r; n_nnz_removed :=
     n_nnz_removed r; reduced_lp_ := reduced_lp_ r; reduced_solution_ :=
     reduced_solution_ r; recovered_solution_ := v; engine_ := engine_ r |}.

Definition set_engine_ (v : _) (r : PresolveComponent) : PresolveComponent :=
  {| has_run_ := has_run_ r; presolve_status_ := presolve_status_ r;
     presolve_time_limit := presolve_time_limit r; n_cols_removed :=
     n_cols_removed r; n_rows_removed := n_rows_removed r; n_nnz_removed :=
     n_nnz_removed r; reduced_lp_ := reduced_lp_ r; reduced_solution_ :=
     reduced_solution_ r; recovered_solution_ := recovered_solution_ r;
     engine_ := v |}.

Definition set_lp_ (v : _) (r : Highs) : Highs :=
  {| lp_ := v; options_ := options_ r; hmos_ := hmos_ r; basis_ := basis_ r;
     solution_ := solution_ r; info_ := info_ r; model_status_ :=
     model_status_ r; scaled_model_status_ := scaled_model_status_ r;
     presolve_ := presolve_ r; clock_reads_ := clock_reads_ r; trace_ :=
     trace_ r |}.

Definition set_options_ (v : _) (r : Highs) : Highs :=
  {| lp_ := lp_ r; options_ := v; hmos_ := hmos_ r; basis_ := basis_ r;
     solution_ := solution_ r; info_ := info_ r; model_status_ :=
     model_status_ r; scaled_model_status_ := scaled_model_status_ r;
     presolve_ := presolve_ r; clock_reads_ := clock_reads_ r; trace_ :=
     trace_ r |}.

Definition set_hmos_ (v : _) (r : Highs) : Highs :=
  {| lp_ := lp_ r; options_ := options_ r; hmos_ := v; basis_ := basis_ r;
     solution_ := solution_ r; info_ := info_ r; model_status_ :=
     model_status_ r; scaled_model_status_ := scaled_model_status_ r;
     presolve_ := presolve_ r; clock_reads_ := clock_reads_ r; trace_ :=
     trace_ r |}.

Definition set_basis_ (v : _) (r : Highs) : Highs :=
  {| lp_ := lp_ r; options_ := options_ r; hmos_ := hmos_ r; basis_ := v;
     solution_ := solution_ r; info_ := info_ r; model_status_ :=
     model_status_ r; scaled_model_status_ := scaled_model_status_ r;
     presolve_ := presolve_ r; clock_reads_ := clock_reads_ r; trace_ :=
     trace_ r |}.

Definition set_solution_ (v : _) (r : Highs) : Highs :=
  {| lp_ := lp_ r; options_ := options_ r; hmos_ := hmos_ r; basis_ :=
     basis_ r; solution_ := v; info_ := info_ r; model_status_ :=
     model_status_ r; scaled_model_status_ := scaled_model_status_ r;
     presolve_ := presolve_ r; clock_reads_ := clock_reads_ r; trace_ :=
     trace_ r |}.

Definition set_info_ (v : _) (r : Highs) : Highs :=
  {| lp_ := lp_ r; options_ := options_ r; hmos_ := hmos_ r; basis_ :=
     basis_ r; solution_ := solution_ r; info_ := v; model_status_ :=
     model_status_ r; scaled_model_status_ := scaled_model_status_ r;
     presolve_ := presolve_ r; clock_reads_ := clock_reads_ r; trace_ :=
     trace_ r |}.

Definition set_model_status_ (v : _) (r : Highs) : Highs :=
  {| lp_ := lp_ r; options_ := options_ r; hmos_ := hmos_ r; basis_ :=
     basis_ r; solution_ := solution_ r; info_ := info_ r; model_status_ :=
     v; scaled_model_status_ := scaled_model_status_ r; presolve_ :=
     presolve_ r; clock_reads_ := clock_reads_ r; trace_ := trace_ r |}.

Definition set_scaled_model_status_ (v : _) (r : Highs) : Highs :=
  {| lp_ := lp_ r; options_ := options_ r; hmos_ := hmos_ r; basis_ :=
     basis_ r; solution_ := solution_ r; info_ := info_ r; model_status_ :=
     model_status_ r; scaled_model_status_ := v; presolve_ := presolve_ r;
     clock_reads_ := clock_reads_ r; trace_ := trace_ r |}.

Definition set_presolve_ (v : _) (r : Highs) : Highs :=
  {| lp_ := lp_ r; options_ := options_ r; hmos_ := hmos_ r; basis_ :=
     basis_ r; solution_ := solution_ r; info_ := info_ r; model_status_ :=
     model_status_ r; scaled_model_status_ := scaled_model_status_ r;
     presolve_ := v; clock_reads_ := clock_reads_ r; trace_ := trace_ r |}.

Definition set_clock_reads_ (v : _) (r : Highs) : Highs :=
  {| lp_ := lp_ r; options_ := options_ r; hmos_ := hmos_ r; basis_ :=
     basis_ r; solution_ := solution_ r; info_ := info_ r; model_status_ :=
     model_status_ r; scaled_model_status_ := scaled_model_status_ r;
     presolve_ := presolve_ r; clock_reads_ := v; trace_ := trace_ r |}.

Definition set_trace_ (v : _) (r : Highs) : Highs :=
  {| lp_ := lp_ r; options_ := options_ r; hmos_ := hmos_ r; basis_ :=
     basis_ r; solution_ := solution_ r; info_ := info_ r; model_status_ :=
     model_status_ r; scaled_model_status_ := scaled_model_status_ r;
     presolve_ := presolve_ r; clock_reads_ := clock_reads_ r; trace_ := v
     |}.

End Setters.

(** ** Helpers declared outside Highs.cpp *)

(** Modelled from the spec: [interpretCallStatus] (HighsStatus.h) is not in
    this file; section 6 says per-stage codes are combined by a worst-wins
    rule, Error dominating Warning dominating OK. *)
Definition interpretCallStatus (call_status from_return_status : HighsStatus)
  : HighsStatus :=
  match call_status, from_return_status with
  | Error, _ | _, Error => Error
  | Warning, _ | _, Warning => Warning
  | OK, OK => OK
  end.

(** Modelled from the spec: [highsStatusFromHighsModelStatus]
    (HighsModelUtils.h) is not in this file; it is the column "Aggregate
    result" of the table of section 4.4.  [NOTSET] is not in that table:
    the finalizer groups it with the error returns and asserts [Error]
    for the group. *)
Definition highsStatusFromHighsModelStatus (model_status : HighsModelStatus)
  : HighsStatus :=
  match model_status with
  | NOTSET | LOAD_ERROR | MODEL_ERROR | PRESOLVE_ERROR | SOLVE_ERROR
  | POSTSOLVE_ERROR => Error
  | MODEL_EMPTY | PRIMAL_INFEASIBLE | PRIMAL_UNBOUNDED | OPTIMAL
  | REACHED_DUAL_OBJECTIVE_VALUE_UPPER_BOUND => OK
  | REACHED_TIME_LIMIT | REACHED_ITERATION_LIMIT => Warning
  end.

(** [hmos_.pop_back()] *)
Definition pop_back {A} (v : list A) : list A := take (length v - 1) v.

Section Helpers.
Context `{P : Platform}.

(** Modelled from the spec: [isSolutionConsistent] (HighsSolution.h) is not
    in this file; section 3 asks each array of a solution to be sized to the
    model's dimensions and section 4.2 names the failure a dimension
    mismatch. *)
Definition isSolutionConsistent (lp : HighsLp) (solution : HighsSolution)
  : bool :=
  (length (col_value solution) =? numCol_ lp)%nat &&
  (length (col_dual solution) =? numCol_ lp)%nat &&
  (length (row_value solution) =? numRow_ lp)%nat &&
  (length (row_dual solution) =? numRow_ lp)%nat.

(** Modelled from the spec: [copyHighsIterationCounts] (HighsInfo.h) is not
    in this file; it carries the three iteration counters between
    [HighsInfo] and a model object's [HighsIterationCounts], in either
    direction. *)
Definition copyHighsIterationCounts_from_info (info : HighsInfo)
  : HighsIterationCounts :=
  {| simplex := simplex_iteration_count info;
     ipm := ipm_iteration_count info;
     crossover := crossover_iteration_count info |}.

Definition copyHighsIterationCounts_to_info (c : HighsIterationCounts)
  (info : HighsInfo) : HighsInfo :=
  {| simplex_iteration_count := simplex c;
     ipm_iteration_count := ipm c;
     crossover_iteration_count := crossover c;
     primal_status := primal_status info;
     dual_status := dual_status info;
     objective_function_value := objective_function_value info;
     num_primal_infeasibilities := num_primal_infeasibilities info;
     max_primal_infeasibility := max_primal_infeasibility info;
     sum_primal_infeasibilities := sum_primal_infeasibilities info;
     num_dual_infeasibilities := num_dual_infeasibilities info;
     max_dual_infeasibility := max_dual_infeasibility info;
     sum_dual_infeasibilities := sum_dual_infeasibilities info |}.

Definition empty_solution : HighsSolution :=
  {| col_value := []; col_dual := []; row_value := []; row_dual := [] |}.

Definition empty_basis : HighsBasis :=
  {| valid_ := false; col_status := []; row_status := [] |}.

(** Modelled from the spec: [PresolveComponent::negateReducedLpCost] is not
    in this file; section 4.2 says the reduced objective is negated. *)
Definition negateReducedLpCost (p : PresolveComponent) : PresolveComponent :=
  set_reduced_lp_
    (set_colCost_ (map dneg (colCost_ (reduced_lp_ p))) (reduced_lp_ p)) p.

(** Modelled from the spec: [PresolveComponent::negateReducedLpColDuals] is
    not in this file; section 4.2 says the reduced-space column duals are
    negated before postsolve and negated back after it, so both calls flip
    the sign of every column dual of the reduced-space solution. *)
Definition negateReducedLpColDuals (reduced : bool) (p : PresolveComponent)
  : PresolveComponent :=
  set_reduced_solution_
    (set_col_dual (map dneg (col_dual (reduced_solution_ p)))
       (reduced_solution_ p)) p.

End Helpers.

(** ** The methods of [Highs] *)

Section Methods.
Context `{C : Collaborators}.

(** Where a method goes on after a block that may [return]. *)
Inductive Flow (A : Type) :=
| Return (return_status : HighsStatus) (s : Highs)
| Continue (a : A) (s : Highs).
#[global] Arguments Return {A} return_status s.
#[global] Arguments Continue {A} a s.

Definition log (e : Event) (s : Highs) : Highs :=
  set_trace_ (trace_ s ++ [e]) s.

(** [HighsModelObject(lp, options_, timer_)] *)
Definition HighsModelObject_new (lp : LpRef) : HighsModelObject :=
  {| hmo_lp_ := lp;
     hmo_basis_ := empty_basis;
     hmo_solution_ := empty_solution;
     unscaled_model_status_ := NOTSET;
     hmo_scaled_model_status_ := NOTSET;
     unscaled_solution_params_ := default_solution_params;
     scaled_solution_params_ := default_solution_params;
     iteration_counts_ := {| simplex := 0; ipm := 0; crossover := 0 |};
     simplex_ := fresh_simplex_data |}.

(** [Highs::Highs()], applied to the member-initialised object. *)
Definition Highs_new (s : Highs) : Highs :=
  let s := set_hmos_ [] s in
  set_hmos_ (hmos_ s ++ [HighsModelObject_new OriginalLp]) s.

(** [hmos_[i]] as an rvalue.  Indexing past the end is undefined in C++;
    the embedding then reads a fresh object. *)
Definition hmo_at (i : nat) (s : Highs) : HighsModelObject :=
  default (HighsModelObject_new OriginalLp) (hmos_ s !! i).

(** [hmos_[i]] as an lvalue: [f] is the assignment.  Past the end nothing
    is stored. *)
Definition modify_hmo (i : nat) (f : HighsModelObject -> HighsModelObject)
  (s : Highs) : Highs :=
  set_hmos_ (alter f i (hmos_ s)) s.

(** The LP a model object refers to. *)
Definition lp_of (r : LpRef) (s : Highs) : HighsLp :=
  match r with
  | OriginalLp => lp_ s
  | ReducedLp => reduced_lp_ (presolve_ s)
  end.

Definition set_lp_of (r : LpRef) (lp : HighsLp) (s : Highs) : Highs :=
  match r with
  | OriginalLp => set_lp_ lp s
  | ReducedLp => set_presolve_ (set_reduced_lp_ lp (presolve_ s)) s
  end.

(** [hmos_[i].lp_.lp_name_ = name] *)
Definition set_hmo_lp_name (i : nat) (name : string) (s : Highs) : Highs :=
  match hmos_ s !! i with
  | Some h => set_lp_of (hmo_lp_ h) (set_lp_name_ name (lp_of (hmo_lp_ h) s)) s
  | None => s
  end.

Definition haveHmo (s : Highs) : bool := (0 <? length (hmos_ s))%nat.

Definition clearModelStatus (s : Highs) : Highs :=
  set_scaled_model_status_ NOTSET (set_model_status_ NOTSET s).

Definition resize_solution (ncol nrow : nat) (x : HighsSolution)
  : HighsSolution :=
  {| col_value := resize ncol d_zero (col_value x);
     col_dual := resize ncol d_zero (col_dual x);
     row_value := resize nrow d_zero (row_value x);
     row_dual := resize nrow d_zero (row_dual x) |}.

Definition clearSolution (s : Highs) : Highs :=
  let s := set_info_ (set_primal_status STATUS_NOTSET (info_ s)) s in
  let s := set_info_ (set_dual_status STATUS_NOTSET (info_ s)) s in
  set_solution_ (resize_solution 0 0 (solution_ s)) s.

Definition clearBasis (s : Highs) : Highs :=
  let s := set_basis_ (set_valid_ false (basis_ s)) s in
  let s := set_basis_ (set_col_status (resize 0 LOWER (col_status (basis_ s)))
                         (basis_ s)) s in
  set_basis_ (set_row_status (resize 0 LOWER (row_status (basis_ s)))
                (basis_ s)) s.

Definition clearInfo (s : Highs) : Highs :=
  set_info_ (HighsInfo_clear (info_ s)) s.

Definition clearSolver (s : Highs) : HighsStatus * Highs :=
  let s := clearModelStatus s in
  let s := clearSolution s in
  let s := clearBasis s in
  let s := clearInfo s in
  (OK, s).

(** [Highs::beforeReturnFromRun].  The assertions on [return_status] and on
    the consistency of solution and basis are debugging checks. *)
Definition beforeReturnFromRun (return_status : HighsStatus) (s : Highs)
  : Highs :=
  if (length (hmos_ s) =? 0)%nat then
    snd (clearSolver s)
  else
    let s := if (1 <? length (hmos_ s))%nat
             then set_hmos_ (pop_back (hmos_ s)) s else s in
    match scaled_model_status_ s with
    | NOTSET | LOAD_ERROR | MODEL_ERROR | PRESOLVE_ERROR | SOLVE_ERROR
    | POSTSOLVE_ERROR =>
        snd (clearSolver s)
    | MODEL_EMPTY => clearInfo (clearBasis (clearSolution s))
    | PRIMAL_INFEASIBLE => clearSolution s
    | PRIMAL_UNBOUNDED => clearInfo (clearSolution s)
    | OPTIMAL => s
    | REACHED_DUAL_OBJECTIVE_VALUE_UPPER_BOUND =>
        clearInfo (clearBasis (clearSolution s))
    | REACHED_TIME_LIMIT | REACHED_ITERATION_LIMIT =>
        clearInfo (clearBasis (clearSolution s))
    end.

(** [beforeReturnFromRun(return_status); return return_status;] *)
Definition finish {A} (return_status : HighsStatus) (s : Highs) : Flow A :=
  Return return_status (beforeReturnFromRun return_status s).

(** [Highs::reset] *)
Definition reset (s : Highs) : HighsStatus * Highs :=
  let '(call_status, s) := clearSolver s in
  let return_status := interpretCallStatus call_status OK in
  if decide (return_status = Error) then (return_status, s)
  else
    let s := set_hmos_ [] s in
    let s := set_hmos_ (hmos_ s ++ [HighsModelObject_new OriginalLp]) s in
    let s := set_presolve_ (presolve_clear (presolve_ s)) s in
    (OK, s).

(** [Highs::passModel] *)
Definition passModel (lp : HighsLp) (s : Highs) : HighsStatus * Highs :=
  let s := set_lp_ lp s in
  let '(call_status, lp') := assessLp (lp_ s) (options_ s) in
  let s := set_lp_ lp' s in
  let return_status := interpretCallStatus call_status OK in
  if decide (return_status = Error) then (return_status, s)
  else reset s.

(** [Highs::readModel] *)
Definition readModel (filename : string) (s : Highs) : HighsStatus * Highs :=
  if negb (getFilereader filename) then (Error, s)
  else
    let s := set_options_ (set_model_file filename (options_ s)) s in
    let '(call_code, model) := readModelFromFile (options_ s) in
    match call_code with
    | FilereaderRetcode.OK =>
        let model := set_model_name_ (extractModelName filename) model in
        let '(call_status, s) := passModel model s in
        (interpretCallStatus call_status OK, s)
    | _ => (interpretCallStatus Error OK, s)
    end.

(** [timer_.readRunHighsClock()] *)
Definition readRunHighsClock (s : Highs) : double * Highs :=
  (clock (clock_reads_ s), set_clock_reads_ (S (clock_reads_ s)) s).

(** [presolve_.run()] and what [Highs::runPresolve] does with its result. *)
Definition runPresolve_reduce (s : Highs) : HighsPresolveStatus * Highs :=
  let '(presolve_return_status, p) := presolve_run (presolve_ s) in
  let s := set_presolve_ p s in
  (* Handle max case. *)
  let s :=
    if decide (presolve_return_status = Reduced ∧ sense_ (lp_ s) = MAXIMIZE)
    then log EvNegateReducedLpCost
           (set_presolve_ (negateReducedLpCost (presolve_ s)) s)
    else s in
  (* Update reduction counts. *)
  let s :=
    match presolve_status_ (presolve_ s) with
    | Reduced =>
        let reduced_lp := reduced_lp_ (presolve_ s) in
        let p := presolve_ s in
        let p := set_n_cols_removed
                   (Z.of_nat (numCol_ (lp_ s)) - Z.of_nat (numCol_ reduced_lp))
                   p in
        let p := set_n_rows_removed
                   (Z.of_nat (numRow_ (lp_ s)) - Z.of_nat (numRow_ reduced_lp))
                   p in
        let p := set_n_nnz_removed
                   (Z.of_nat (length (Avalue_ (lp_ s)))
                    - Z.of_nat (length (Avalue_ reduced_lp))) p in
        set_presolve_ p s
    | ReducedToEmpty =>
        let p := presolve_ s in
        let p := set_n_cols_removed (Z.of_nat (numCol_ (lp_ s))) p in
        let p := set_n_rows_removed (Z.of_nat (numRow_ (lp_ s))) p in
        let p := set_n_nnz_removed (Z.of_nat (length (Avalue_ (lp_ s)))) p in
        set_presolve_ p s
    | _ => s
    end in
  (presolve_return_status, s).

(** [Highs::runPresolve], up to its [return]. *)
Definition runPresolve_body (s : Highs) : HighsPresolveStatus * Highs :=
  if String.eqb (presolve (options_ s)) off_string then (NotPresolved, s)
  else if (numCol_ (lp_ s) =? 0)%nat && (numRow_ (lp_ s) =? 0)%nat
  then (NullError, s)
  else
    let s := if has_run_ (presolve_ s)
             then set_presolve_ (presolve_clear (presolve_ s)) s else s in
    let '(start_presolve, s) := readRunHighsClock s in
    let limited := dgt (time_limit (options_ s)) d_zero
                   && dlt (time_limit (options_ s)) HIGHS_CONST_INF in
    let left := dsub (time_limit (options_ s)) start_presolve in
    if limited && dle left d_zero then (Timeout, s)
    else
      let s := if limited
               then set_presolve_ (set_presolve_time_limit left (presolve_ s)) s
               else s in
      let s := set_presolve_ (presolve_init (lp_ s) (presolve_ s)) s in
      if limited then
        let '(current, s) := readRunHighsClock s in
        let time_init := dsub current start_presolve in
        let left := dsub (presolve_time_limit (presolve_ s)) time_init in
        if dle left d_zero then (Timeout, s)
        else
          runPresolve_reduce
            (set_presolve_
               (set_presolve_time_limit (time_limit (options_ s)) (presolve_ s))
               s)
      else runPresolve_reduce s.

(** [Highs::runPresolve]; its result is logged. *)
Definition runPresolve (s : Highs) : HighsPresolveStatus * Highs :=
  let '(st, s) := runPresolve_body s in
  (st, log (EvPresolve st) s).

(** [Highs::runPostsolve], up to its [return]. *)
Definition runPostsolve_body (s : Highs) : HighsPostsolveStatus * Highs :=
  let solution_ok :=
    isSolutionConsistent (reduced_lp_ (presolve_ s))
      (reduced_solution_ (presolve_ s)) in
  if negb solution_ok then (ReducedSolutionDimenionsError, s)
  else if decide (presolve_status_ (presolve_ s) ≠ Reduced
                  ∧ presolve_status_ (presolve_ s) ≠ ReducedToEmpty)
  then (NoPostsolve, s)
  else
    (* Handle max case. *)
    let s :=
      if decide (sense_ (lp_ s) = MAXIMIZE)
      then log (EvNegateReducedLpColDuals true)
             (set_presolve_ (negateReducedLpColDuals true (presolve_ s)) s)
      else s in
    let s := log (EvPostsolveEngine (reduced_solution_ (presolve_ s))) s in
    let '(postsolve_status, recovered, engine) :=
      postsolve (engine_ (presolve_ s)) (reduced_solution_ (presolve_ s))
        (recovered_solution_ (presolve_ s)) in
    let s := set_presolve_
               (set_engine_ engine
                  (set_recovered_solution_ recovered (presolve_ s))) s in
    if decide (postsolve_status ≠ SolutionRecovered) then (postsolve_status, s)
    else
      let s :=
        if decide (sense_ (lp_ s) = MAXIMIZE)
        then log (EvNegateReducedLpColDuals false)
               (set_presolve_ (negateReducedLpColDuals false (presolve_ s)) s)
        else s in
      (SolutionRecovered, s).

(** [Highs::runPostsolve]; its result is logged. *)
Definition runPostsolve (s : Highs) : HighsPostsolveStatus * Highs :=
  let '(st, s) := runPostsolve_body s in
  (st, log (EvPostsolve st) s).

(** [Highs::runLpSolver].  The call of [solveLp] is logged with the options
    the solver runs under. *)
Definition runLpSolver (model_index : nat) (message : string) (s : Highs)
  : HighsStatus * Highs :=
  match hmos_ s !! model_index with
  | None => (Error, s)                              (* !model_index_ok *)
  | Some _ =>
      (* Transfer the LP solver iteration counts to this model *)
      let s := modify_hmo model_index
                 (set_iteration_counts_
                    (copyHighsIterationCounts_from_info (info_ s))) s in
      let model := hmo_at model_index s in
      (* Solve the LP *)
      let s := log (EvSolveLp model_index message (options_ s)) s in
      let '(call_status, model) :=
        solveLp message (lp_of (hmo_lp_ model) s) (options_ s) model in
      let s := modify_hmo model_index (fun _ => model) s in
      let return_status := interpretCallStatus call_status OK in
      if decide (return_status = Error) then (return_status, s)
      else
        (* Transfer this model's LP solver iteration counts to HiGHS *)
        let s := set_info_
                   (copyHighsIterationCounts_to_info
                      (iteration_counts_ (hmo_at model_index s)) (info_ s))
                   s in
        (return_status, s)
  end.

(** [Highs::getHighsModelStatusAndInfo] *)
Definition getHighsModelStatusAndInfo (solved_hmo : nat) (s : Highs)
  : bool * Highs :=
  if negb (haveHmo s) then (false, s)
  else
    let h := hmo_at solved_hmo s in
    let s := set_model_status_ (unscaled_model_status_ h) s in
    let s := set_scaled_model_status_ (hmo_scaled_model_status_ h) s in
    let solution_params := unscaled_solution_params_ h in
    let info :=
      {| simplex_iteration_count := simplex_iteration_count (info_ s);
         ipm_iteration_count := ipm_iteration_count (info_ s);
         crossover_iteration_count := crossover_iteration_count (info_ s);
         primal_status := sp_primal_status solution_params;
         dual_status := sp_dual_status solution_params;
         objective_function_value :=
           sp_objective_function_value solution_params;
         num_primal_infeasibilities :=
           sp_num_primal_infeasibilities solution_params;
         max_primal_infeasibility :=
           sp_max_primal_infeasibility solution_params;
         sum_primal_infeasibilities :=
           sp_sum_primal_infeasibilities solution_params;
         num_dual_infeasibilities :=
           sp_num_dual_infeasibilities solution_params;
         max_dual_infeasibility := sp_max_dual_infeasibility solution_params;
         sum_dual_infeasibilities :=
           sp_sum_dual_infeasibilities solution_params |} in
    (true, set_info_ info s).

End Methods.

(** ** [Highs::run] *)

Section Run.
Context `{C : Collaborators}.

Definition original_hmo : nat := 0.

(** Lines 344-364: load a model when there is no model object. *)
Definition run_load (s : Highs) : Flow HighsStatus :=
  let return_status := OK in
  if (length (hmos_ s) =? 0)%nat then
    if String.eqb (model_file (options_ s)) FILENAME_DEFAULT then
      finish Error s
    else
      let model_file := model_file (options_ s) in
      let '(call_status, s) := readModel model_file s in
      let return_status := interpretCallStatus call_status return_status in
      if decide (return_status = Error) then finish return_status s
      else Continue return_status s
  else Continue return_status s.

(** Store [model_status_] in [scaled_model_status_] and in both statuses of
    [hmos_[original_hmo]]. *)
Definition transfer_model_status (s : Highs) : Highs :=
  let s := set_scaled_model_status_ (model_status_ s) s in
  let s := modify_hmo original_hmo
             (set_unscaled_model_status_ (model_status_ s)) s in
  modify_hmo original_hmo (set_hmo_scaled_model_status_ (model_status_ s)) s.

(** Lines 463-606: the switch on the presolve status.  [Continue] carries
    [return_status] and [solved_hmo]. *)
Definition run_solve (presolve_status : HighsPresolveStatus)
  (presolve_hmo : nat) (return_status : HighsStatus) (s : Highs)
  : Flow (HighsStatus * nat) :=
  let solved_hmo := original_hmo in
  match presolve_status with
  | NotPresolved =>
      let s := set_hmo_lp_name solved_hmo "Original LP" s in
      let '(call_status, s) :=
        runLpSolver solved_hmo "Not presolved: solving the LP" s in
      let return_status := interpretCallStatus call_status return_status in
      if decide (return_status = Error) then finish return_status s
      else Continue (return_status, solved_hmo) s
  | NotReduced =>
      let s := set_hmo_lp_name solved_hmo "Unreduced LP" s in
      let '(call_status, s) :=
        runLpSolver solved_hmo
          "Problem not reduced by presolve: solving the LP" s in
      let return_status := interpretCallStatus call_status return_status in
      if decide (return_status = Error) then finish return_status s
      else Continue (return_status, solved_hmo) s
  | Reduced =>
      (* Validate the reduced LP: assert(assessLp(...) == OK) *)
      let '(call_status, reduced_lp) :=
        cleanBounds (options_ s) (reduced_lp_ (presolve_ s)) in
      let s := set_presolve_ (set_reduced_lp_ reduced_lp (presolve_ s)) s in
      (* Ignore any warning from clean bounds *)
      if decide (interpretCallStatus call_status return_status = Error)
      then Return Error s
      else
        let s := set_hmos_ (hmos_ s ++ [HighsModelObject_new ReducedLp]) s in
        (* Record the HMO to be solved *)
        let solved_hmo := presolve_hmo in
        let s := set_hmo_lp_name solved_hmo "Presolved LP" s in
        (* Don't try dual cut-off when solving the presolved LP *)
        let save_dual_objective_value_upper_bound :=
          dual_objective_value_upper_bound (options_ s) in
        let s := set_options_
                   (set_dual_objective_value_upper_bound HIGHS_CONST_INF
                      (options_ s)) s in
        let '(call_status, s) :=
          runLpSolver solved_hmo "Solving the presolved LP" s in
        (* Restore the dual objective cut-off *)
        let s := set_options_
                   (set_dual_objective_value_upper_bound
                      save_dual_objective_value_upper_bound (options_ s)) s in
        let return_status := interpretCallStatus call_status return_status in
        if decide (return_status = Error) then finish return_status s
        else Continue (return_status, solved_hmo) s
  | ReducedToEmpty =>
      let s := modify_hmo original_hmo (set_unscaled_model_status_ OPTIMAL) s in
      let s := modify_hmo original_hmo
                 (set_hmo_scaled_model_status_
                    (unscaled_model_status_ (hmo_at original_hmo s))) s in
      (* Proceed to postsolve. *)
      Continue (return_status, solved_hmo) s
  | Infeasible | Unbounded =>
      let s :=
        if decide (presolve_status = Infeasible)
        then set_model_status_ PRIMAL_INFEASIBLE s
        else set_model_status_ PRIMAL_UNBOUNDED s in
      let s := transfer_model_status s in
      let return_status := OK in
      finish return_status s
  | Timeout =>
      let s := set_model_status_ PRESOLVE_ERROR s in
      Return Warning s
  | OptionsError =>
      let s := set_model_status_ PRESOLVE_ERROR s in
      Return Warning s
  | _ =>
      let s := set_model_status_ PRESOLVE_ERROR s in
      let s := transfer_model_status s in
      let return_status := Error in
      finish return_status s
  end.

(** Lines 645-690: hot start of the simplex solver for [original_hmo] from
    the solution and basis that postsolve recovered. *)
Definition run_hot_start (return_status : HighsStatus) (s : Highs)
  : Flow (HighsStatus * nat) :=
  let s := modify_hmo original_hmo
             (resetModelStatusAndSolutionParams (lp_ s) (options_ s)) s in
  (* Set solution and its status *)
  let s := modify_hmo original_hmo
             (set_hmo_solution_ (recovered_solution_ (presolve_ s))) s in
  (* Set basis and its status *)
  let s := modify_hmo original_hmo
             (fun h => set_hmo_basis_
                         (set_col_status (getColStatus (engine_ (presolve_ s)))
                            (hmo_basis_ h)) h) s in
  let s := modify_hmo original_hmo
             (fun h => set_hmo_basis_
                         (set_row_status (getRowStatus (engine_ (presolve_ s)))
                            (hmo_basis_ h)) h) s in
  let s := modify_hmo original_hmo
             (fun h => set_hmo_basis_ (set_valid_ true (hmo_basis_ h)) h) s in
  (* Now hot-start the simplex solver for the original_hmo *)
  let solved_hmo := original_hmo in
  (* Save the options to allow the best simplex strategy to be used *)
  let save_options := options_ s in
  (* Force the use of simplex to clean up if IPM has been used *)
  let s := if String.eqb (solver (options_ s)) ipm_string
           then set_options_ (set_solver simplex_string (options_ s)) s
           else s in
  let s := set_options_
             (set_simplex_strategy SIMPLEX_STRATEGY_CHOOSE (options_ s)) s in
  (* Ensure that the parallel solver isn't used *)
  let s := set_options_ (set_highs_min_threads 1 (options_ s)) s in
  let s := set_options_ (set_highs_max_threads 1 (options_ s)) s in
  let s := set_hmo_lp_name solved_hmo "Postsolve LP" s in
  let '(call_status, s) :=
    runLpSolver solved_hmo
      "Solving the original LP from the solution after postsolve" s in
  let return_status := interpretCallStatus call_status return_status in
  (* Recover the options *)
  let s := set_options_ save_options s in
  if decide (return_status = Error) then finish return_status s
  else Continue (return_status, solved_hmo) s.

(** Lines 607-711: postsolve, if the solved model is optimal. *)
Definition run_postsolve (presolve_status : HighsPresolveStatus)
  (solved_hmo : nat) (return_status : HighsStatus) (s : Highs)
  : Flow (HighsStatus * nat) :=
  if decide (hmo_scaled_model_status_ (hmo_at solved_hmo s) = OPTIMAL) then
    if decide (presolve_status = Reduced ∨ presolve_status = ReducedToEmpty)
    then
      let s :=
        if decide (presolve_status = ReducedToEmpty)
        then modify_hmo solved_hmo
               (fun h => set_hmo_solution_
                           (resize_solution 0 0 (hmo_solution_ h)) h) s
        else s in
      let s := set_presolve_
                 (set_reduced_solution_ (hmo_solution_ (hmo_at solved_hmo s))
                    (presolve_ s)) s in
      let s := set_presolve_
                 (setBasisInfo
                    (col_status (hmo_basis_ (hmo_at solved_hmo s)))
                    (row_status (hmo_basis_ (hmo_at solved_hmo s)))
                    (presolve_ s)) s in
      let '(postsolve_status, s) := runPostsolve s in
      if decide (postsolve_status = SolutionRecovered)
      then run_hot_start return_status s
      else
        let s := set_model_status_ POSTSOLVE_ERROR s in
        let s := transfer_model_status s in
        let return_status := Error in
        finish return_status s
    else Continue (return_status, solved_hmo) s
  else
    (* The original model inherits the solved model's status *)
    let s := modify_hmo original_hmo
               (set_unscaled_model_status_
                  (unscaled_model_status_ (hmo_at solved_hmo s))) s in
    let s := modify_hmo original_hmo
               (set_hmo_scaled_model_status_
                  (hmo_scaled_model_status_ (hmo_at solved_hmo s))) s in
    Continue (return_status, solved_hmo) s.

(** Lines 433-711: the branch taken when presolve is considered. *)
Definition run_with_presolve (presolve_hmo : nat) (return_status : HighsStatus)
  (s : Highs) : Flow (HighsStatus * nat) :=
  (* If using IPX to solve the reduced LP, crossover must be run *)
  let s :=
    if String.eqb (solver (options_ s)) ipm_string
       && negb (run_crossover (options_ s))
    then set_options_ (set_run_crossover true (options_ s)) s
    else s in
  let s := modify_hmo original_hmo (set_hmo_scaled_model_status_ NOTSET) s in
  let '(presolve_status, s) := runPresolve s in
  match run_solve presolve_status presolve_hmo return_status s with
  | Return st s => Return st s
  | Continue (return_status, solved_hmo) s =>
      run_postsolve presolve_status solved_hmo return_status s
  end.

(** Lines 712-731: there is a valid basis or presolve is off. *)
Definition run_without_presolve (return_status : HighsStatus) (s : Highs)
  : Flow (HighsStatus * nat) :=
  let solved_hmo := original_hmo in
  let s := set_hmo_lp_name solved_hmo "LP without presolve or with basis" s in
  let s := if valid_ (basis_ s)
           then modify_hmo solved_hmo (set_hmo_basis_ (basis_ s)) s
           else s in
  let '(call_status, s) :=
    runLpSolver solved_hmo "Solving LP without presolve or with basis" s in
  let return_status := interpretCallStatus call_status return_status in
  if decide (return_status = Error) then finish return_status s
  else Continue (return_status, solved_hmo) s.

(** Lines 741-824: harvest status, solution and basis, and return. *)
Definition run_harvest (solved_hmo : nat) (return_status : HighsStatus)
  (s : Highs) : HighsStatus * Highs :=
  let '(ok, s) := getHighsModelStatusAndInfo solved_hmo s in
  if negb ok then (Error, beforeReturnFromRun Error s)
  else
    let s := set_solution_ (hmo_solution_ (hmo_at original_hmo s)) s in
    let s := set_basis_ (hmo_basis_ (hmo_at original_hmo s)) s in
    (* Stop and read the HiGHS clock, then work out time for this call *)
    let '(lp_solve_final_time, s) := readRunHighsClock s in
    let call_status :=
      highsStatusFromHighsModelStatus (scaled_model_status_ s) in
    let return_status := interpretCallStatus call_status return_status in
    (return_status, beforeReturnFromRun return_status s).

(** [Highs::run]; the entry is logged with the basis validity and the
    presolve option it starts from. *)
Definition run (s : Highs) : HighsStatus * Highs :=
  let s := log (EvRun (valid_ (basis_ s)) (presolve (options_ s))) s in
  (* If running as hsol, reset any changed options *)
  let s := if run_as_hsol (options_ s)
           then set_options_ (setHsolOptions (options_ s)) s else s in
  (* Determine whether a model has been loaded. *)
  match run_load s with
  | Return st s => (st, s)
  | Continue return_status s =>
      (* Initialise the HiGHS model status values *)
      let s := modify_hmo 0 (set_hmo_scaled_model_status_ NOTSET) s in
      let s := modify_hmo 0 (set_unscaled_model_status_ NOTSET) s in
      let s := set_model_status_ (hmo_scaled_model_status_ (hmo_at 0 s)) s in
      let s := set_scaled_model_status_
                 (unscaled_model_status_ (hmo_at 0 s)) s in
      (* Return immediately if the LP has no columns *)
      if (numCol_ (lp_ s) =? 0)%nat then
        let s := set_model_status_ MODEL_EMPTY s in
        let s := set_scaled_model_status_ (model_status_ s) s in
        let s := modify_hmo 0 (set_unscaled_model_status_ (model_status_ s)) s in
        let s := modify_hmo 0
                   (set_hmo_scaled_model_status_ (model_status_ s)) s in
        let return_status :=
          highsStatusFromHighsModelStatus (model_status_ s) in
        (return_status, beforeReturnFromRun return_status s)
      else
        (* Record the initial time *)
        let '(initial_time, s) := readRunHighsClock s in
        let presolve_hmo := length (hmos_ s) in
        let flow :=
          if negb (valid_ (basis_ s))
             && negb (String.eqb (presolve (options_ s)) off_string)
          then run_with_presolve presolve_hmo return_status s
          else run_without_presolve return_status s in
        match flow with
        | Return st s => (st, s)
        | Continue (return_status, solved_hmo) s =>
            run_harvest solved_hmo return_status s
        end
  end.

End Run.

(** ** The incremental model editor *)

Section Editor.
Context `{C : Collaborators}.

(** [Highs::updateHighsSolutionBasis] *)
Definition updateHighsSolutionBasis (s : Highs) : bool * Highs :=
  if negb (haveHmo s) then (false, s)
  else
    let ncol := numCol_ (lp_ s) in
    let nrow := numRow_ (lp_ s) in
    let s := set_solution_ (resize_solution ncol nrow (solution_ s)) s in
    let s := modify_hmo 0
               (fun h => set_hmo_solution_
                           (resize_solution ncol nrow (hmo_solution_ h)) h) s in
    if valid_ (hmo_basis_ (hmo_at 0 s)) then
      (true, set_basis_ (hmo_basis_ (hmo_at 0 s)) s)
    else
      let s := set_basis_ (set_valid_ false (basis_ s)) s in
      let s := set_basis_
                 (set_col_status (resize ncol LOWER (col_status (basis_ s)))
                    (basis_ s)) s in
      let s := set_basis_
                 (set_row_status (resize nrow LOWER (row_status (basis_ s)))
                    (basis_ s)) s in
      (true, s).

(** [HighsSimplexInterface interface(hmos_[0]); call_status =
    interface.op(...)]: the interface works on [hmos_[0]] and on the LP it
    refers to. *)
Definition interface_call (op : EditOp) (s : Highs) : HighsStatus * Highs :=
  let h := hmo_at 0 s in
  let '(call_status, lp, h') :=
    interface_edit op (options_ s) (lp_of (hmo_lp_ h) s) h in
  (call_status, modify_hmo 0 (fun _ => h') (set_lp_of (hmo_lp_ h) lp s)).

(** The body shared by [addRows], [addCols], [deleteCols] and
    [deleteRows]. *)
Definition edit_and_update (op : EditOp) (s : Highs) : bool * Highs :=
  let return_status := OK in
  (* Check that there is a HighsModelObject *)
  if negb (haveHmo s) then (false, s)
  else
    let '(call_status, s) := interface_call op s in
    let return_status := interpretCallStatus call_status return_status in
    if decide (return_status = Error) then (false, s)
    else
      let '(updated, s) := updateHighsSolutionBasis s in
      if negb updated then (false, s)
      else (bool_decide (return_status ≠ Error), s).

(** The body shared by [changeObjectiveSense], [changeColsCost],
    [changeColsBounds], [changeRowsBounds] and [changeCoeff]. *)
Definition edit_only (op : EditOp) (s : Highs) : bool * Highs :=
  let return_status := OK in
  if negb (haveHmo s) then (false, s)
  else
    let '(call_status, s) := interface_call op s in
    let return_status := interpretCallStatus call_status return_status in
    if decide (return_status = Error) then (false, s)
    else (bool_decide (return_status ≠ Error), s).

Definition addRows num_new_row lower_bounds upper_bounds num_new_nz starts
  indices values :=
  edit_and_update
    (OpAddRows num_new_row lower_bounds upper_bounds num_new_nz starts indices
       values).

Definition addRow lower_bound upper_bound num_new_nz indices values :=
  addRows 1 [lower_bound] [upper_bound] num_new_nz [0] indices values.

Definition addCols num_new_col costs lower_bounds upper_bounds num_new_nz
  starts indices values :=
  edit_and_update
    (OpAddCols num_new_col costs lower_bounds upper_bounds num_new_nz starts
       indices values).

Definition addCol cost lower_bound upper_bound num_new_nz indices values :=
  addCols 1 [cost] [lower_bound] [upper_bound] num_new_nz [0] indices values.

Definition deleteCols from_col to_col :=
  edit_and_update (OpDeleteColsRange from_col to_col).
Definition deleteCols_set num_set_entries set :=
  edit_and_update (OpDeleteColsSet num_set_entries set).
Definition deleteCols_mask mask := edit_and_update (OpDeleteColsMask mask).

Definition deleteRows from_row to_row :=
  edit_and_update (OpDeleteRowsRange from_row to_row).
Definition deleteRows_set num_set_entries set :=
  edit_and_update (OpDeleteRowsSet num_set_entries set).
Definition deleteRows_mask mask := edit_and_update (OpDeleteRowsMask mask).

Definition changeObjectiveSense sense :=
  edit_only (OpChangeObjectiveSense sense).

Definition changeColsCost num_set_entries set cost :=
  edit_only (OpChangeCostsSet num_set_entries set cost).
Definition changeColsCost_mask mask cost :=
  edit_only (OpChangeCostsMask mask cost).
Definition changeColCost (col : Z) (cost : double) :=
  changeColsCost 1 [col] [cost].

Definition changeColsBounds_set num_set_entries set lower upper :=
  edit_only (OpChangeColBoundsSet num_set_entries set lower upper).
Definition changeColsBounds from_col to_col lower upper :=
  edit_only (OpChangeColBoundsRange from_col to_col lower upper).
Definition changeColsBounds_mask mask lower upper :=
  edit_only (OpChangeColBoundsMask mask lower upper).
Definition changeColBounds (col : Z) (lower upper : double) :=
  changeColsBounds_set 1 [col] [lower] [upper].

Definition changeRowsBounds_set num_set_entries set lower upper :=
  edit_only (OpChangeRowBoundsSet num_set_entries set lower upper).
Definition changeRowsBounds_mask mask lower upper :=
  edit_only (OpChangeRowBoundsMask mask lower upper).
Definition changeRowBounds (row : Z) (lower upper : double) :=
  changeRowsBounds_set 1 [row] [lower] [upper].

Definition changeCoeff row col value :=
  edit_only (OpChangeCoefficient row col value).

(** The mutating methods of the editor, by the interface call they
    delegate to. *)
Definition edit (op : EditOp) : Highs -> bool * Highs :=
  match op with
  | OpAddRows n l u nz st ix v => addRows n l u nz st ix v
  | OpAddCols n c l u nz st ix v => addCols n c l u nz st ix v
  | OpDeleteColsRange a b => deleteCols a b
  | OpDeleteColsSet n set => deleteCols_set n set
  | OpDeleteColsMask m => deleteCols_mask m
  | OpDeleteRowsRange a b => deleteRows a b
  | OpDeleteRowsSet n set => deleteRows_set n set
  | OpDeleteRowsMask m => deleteRows_mask m
  | OpChangeObjectiveSense sense => changeObjectiveSense sense
  | OpChangeCostsSet n set c => changeColsCost n set c
  | OpChangeCostsMask m c => changeColsCost_mask m c
  | OpChangeColBoundsSet n set l u => changeColsBounds_set n set l u
  | OpChangeColBoundsRange a b l u => changeColsBounds a b l u
  | OpChangeColBoundsMask m l u => changeColsBounds_mask m l u
  | OpChangeRowBoundsSet n set l u => changeRowsBounds_set n set l u
  | OpChangeRowBoundsMask m l u => changeRowsBounds_mask m l u
  | OpChangeCoefficient r c v => changeCoeff r c v
  end.

(** Adding or deleting rows or columns. *)
Definition resizes (op : EditOp) : bool :=
  match op with
  | OpAddRows _ _ _ _ _ _ _ | OpAddCols _ _ _ _ _ _ _ _
  | OpDeleteColsRange _ _ | OpDeleteColsSet _ _ | OpDeleteColsMask _
  | OpDeleteRowsRange _ _ | OpDeleteRowsSet _ _ | OpDeleteRowsMask _ => true
  | _ => false
  end.

End Editor.

(** ** Writing the solution, and the status to use *)

(** What [fopen], [FILE*] and [std::cout] act on: the contents of the files
    by name, and the lines sent to standard output. *)
Record World := {
  files_ : gmap string string;
  stdout_ : list string
}.

(** A [FILE*]: [stdout] or a stream on a named file. *)
Inductive FILE := stdout | stream (filename : string).

Section Output.
Context `{C : Collaborators}.

(** [filename.c_str()] read as a C string: the characters before the first
    NUL.  A [std::string] may hold NUL characters; [fopen], [strrchr] and
    [strcmp] stop at the first one. *)
Fixpoint c_str (s : string) : string :=
  match s with
  | EmptyString => EmptyString
  | String c r =>
      if Ascii.eqb c Ascii.zero then EmptyString else String c (c_str r)
  end.

(** [strrchr(name, '.')] for a C string [name]: what the pointer to the
    last dot points to, if there is a dot. *)
Fixpoint strrchr_dot (s : string) : option string :=
  match s with
  | EmptyString => None
  | String c r =>
      match strrchr_dot r with
      | Some t => Some t
      | None => if Ascii.eqb c "."%char then Some s else None
      end
  end.

(** [Highs::openWriteFile]: the status, [file] and [html].  On failure
    [file] is the null pointer.  [filename == ""] and [dot != filename]
    compare the whole [std::string]; [fopen], [strrchr] and [strcmp] are
    handed [filename.c_str()]. *)
Definition openWriteFile (filename method_name : string) (s : Highs)
  (w : World) : HighsStatus * option FILE * bool * World :=
  let html := false in
  if String.eqb filename EmptyString then
    (* Empty file name: use stdout *)
    (OK, Some stdout, html, w)
  else if negb (fopen_w (c_str filename)) then (Error, None, html, w)
  else
    (* fopen(filename.c_str(), "w") creates the file or truncates it *)
    let w := {| files_ := <[c_str filename := EmptyString]> (files_ w);
                stdout_ := stdout_ w |} in
    let html :=
      match strrchr_dot (c_str filename) with
      | Some dot =>
          if negb (String.eqb dot filename)
          then String.eqb (String.substring 1 (String.length dot - 1) dot)
                 "html"
          else html
      | None => html
      end in
    (OK, Some (stream (c_str filename)), html, w).

(** [Highs::writeSolution], a [const] method: the object it returns is the
    object it was called on. *)
Definition writeSolution (filename : string) (pretty : bool) (s : Highs)
  (w : World) : HighsStatus * Highs * World :=
  let return_status := OK in
  let lp := lp_ s in
  let basis := basis_ s in
  let solution := solution_ s in
  let '(call_status, file, html, w) :=
    openWriteFile filename "writeSolution" s w in
  let return_status := interpretCallStatus call_status return_status in
  if decide (return_status = Error) then (return_status, s, w)
  else
    let w := {| files_ := files_ w;
                stdout_ := stdout_ w ++ ["warning: Feature under development"]
             |} in
    (Warning, s, w).
    (* writeSolutionToFile(file, lp, basis, solution, pretty);
       return HighsStatus::OK;   -- commented out in the source *)



End Output.

(** ** Basis queries, solution and basis setters, [clearModel]

    The methods below read members of [hmos_[0]] that [run] and the editor
    leave to the simplex code, and call helpers that are fields of
    [Arithmetic] and [Services].  An [int] is a [Z]; an array handed in
    through a pointer is the list of its elements, and a method that writes
    through the pointer returns the list afterwards.  A write past the end
    of an array, undefined in C++, stores nothing here, and so does a write
    through a null pointer; messages to the log file are left out. *)

(** The double arithmetic of [getReducedRow] and the constants it names. *)
Class Arithmetic `{P : Platform} := {
  (** [1.0] *)
  d_one : double;
  (** [a + b], [a * b], [fabs(a)] *)
  dadd : double -> double -> double;
  dmul : double -> double -> double;
  fabs : double -> double;
  HIGHS_CONST_TINY : double
}.

Section Buffers.
Context `{P : Platform}.

(** The three output arguments of a basis query: [double* vector],
    [int* num_nz] and [int* indices].  [None] is the null pointer. *)
Record SolveBuffers := {
  vector_ : list double;
  num_nz_ : option Z;
  indices_ : option (list Z)
}.

Definition set_vector_ (v : _) (r : SolveBuffers) : SolveBuffers :=
  {| vector_ := v; num_nz_ := num_nz_ r; indices_ := indices_ r |}.

Definition set_num_nz_ (v : _) (r : SolveBuffers) : SolveBuffers :=
  {| vector_ := vector_ r; num_nz_ := v; indices_ := indices_ r |}.

Definition set_indices_ (v : _) (r : SolveBuffers) : SolveBuffers :=
  {| vector_ := vector_ r; num_nz_ := num_nz_ r; indices_ := v |}.

Definition set_col_value (v : _) (r : HighsSolution) : HighsSolution :=
  {| col_value := v; col_dual := col_dual r; row_value := row_value r;
     row_dual := row_dual r |}.

Definition set_row_dual (v : _) (r : HighsSolution) : HighsSolution :=
  {| col_value := col_value r; col_dual := col_dual r; row_value :=
     row_value r; row_dual := v |}.

End Buffers.

Class Services `{P : Platform} := {
  (** [simplex_lp_status_.has_basis], [simplex_lp_status_.has_invert],
      [simplex_lp_.numRow_] and [simplex_basis_.basicIndex_] of a model
      object *)
  has_basis : SimplexData -> bool;
  has_invert : SimplexData -> bool;
  simplex_lp_numRow_ : SimplexData -> nat;
  basicIndex_ : SimplexData -> list Z;
  (** [HighsSimplexInterface(hmos_[0]).basisSolve(rhs, vector, num_nz,
      indices, transpose)]: what it leaves in the three output arguments, in
      the LP and in the object *)
  basisSolve : HighsOptions -> HighsLp -> HighsModelObject -> list double ->
               SolveBuffers -> bool ->
               SolveBuffers * HighsLp * HighsModelObject;
  (** [HighsSimplexInterface(hmos_[0]).clearBasis()] *)
  interface_clearBasis : HighsOptions -> HighsLp -> HighsModelObject ->
                         HighsLp * HighsModelObject;
  (** [basisOk(options_.logfile, lp_, basis)] *)
  basisOk : HighsLp -> HighsBasis -> bool;
  (** [calculateRowValues(lp_, solution_)], [calculateColDuals(lp_,
      solution_)]: the status and the solution afterwards *)
  calculateRowValues : HighsLp -> HighsSolution -> HighsStatus * HighsSolution;
  calculateColDuals : HighsLp -> HighsSolution -> HighsStatus * HighsSolution;
  (** a default-constructed [HighsLp] *)
  HighsLp_new : HighsLp
}.

(** [v[i]] and [v[i] = x] for an [int] index.  Outside the array both are
    undefined in C++; the embedding then reads [d] and stores nothing. *)
Definition at_ {A} (d : A) (v : list A) (i : Z) : A :=
  if (i <? 0)%Z then d else default d (v !! Z.to_nat i).

Definition put_ {A} (i : Z) (x : A) (v : list A) : list A :=
  if (i <? 0)%Z then v else <[Z.to_nat i := x]> v.

Section Queries.
Context `{C : Collaborators} `{Ar : !Arithmetic} `{Sv : !Services}.

(** [Highs::getModelStatus] *)
Definition getModelStatus (scaled_model : bool) (s : Highs)
  : HighsModelStatus :=
  if scaled_model then scaled_model_status_ s else model_status_ s.

(** [Highs::getPresolveReductionCounts]: [rows], [cols] and [nnz]. *)
Definition getPresolveReductionCounts (s : Highs) : Z * Z * Z :=
  (n_rows_removed (presolve_ s), n_cols_removed (presolve_ s),
   n_nnz_removed (presolve_ s)).

(** [hmos_[0].lp_] *)
Definition hmo0_lp (s : Highs) : HighsLp := lp_of (hmo_lp_ (hmo_at 0 s)) s.

(** [Highs::getBasicVariables]: the status and the array
    [basic_variables] afterwards. *)
Definition getBasicVariables (basic_variables : list Z) (s : Highs)
  : HighsStatus * list Z :=
  if (length (hmos_ s) =? 0)%nat then (Error, basic_variables)
  else if negb (has_basis (simplex_ (hmo_at 0 s)))
  then (Error, basic_variables)
  else
    let numRow := numRow_ (hmo0_lp s) in
    let numCol := numCol_ (hmo0_lp s) in
    if negb (numRow =? simplex_lp_numRow_ (simplex_ (hmo_at 0 s)))%nat
    then (Error, basic_variables)
    else
      (OK,
       foldl (fun basic_variables row =>
                let var :=
                  at_ 0 (basicIndex_ (simplex_ (hmo_at 0 s))) (Z.of_nat row) in
                if (var <? Z.of_nat numCol)%Z
                then <[row := var]> basic_variables
                else <[row := (- (1 + var - Z.of_nat numCol))%Z]> basic_variables)
         basic_variables (seq 0 numRow)).

(** [HighsSimplexInterface simplex_interface(hmos_[0]);
    simplex_interface.basisSolve(rhs, ...)]: the interface works on
    [hmos_[0]] and on the LP it refers to. *)
Definition interface_basisSolve (rhs : list double) (out : SolveBuffers)
  (transpose : bool) (s : Highs) : SolveBuffers * Highs :=
  let h := hmo_at 0 s in
  let '(out, lp, h') :=
    basisSolve (options_ s) (lp_of (hmo_lp_ h) s) h rhs out transpose in
  (out, modify_hmo 0 (fun _ => h') (set_lp_of (hmo_lp_ h) lp s)).

(** [rhs.assign(numRow, 0); rhs[i] = 1;] *)
Definition unit_rhs (numRow : nat) (i : Z) : list double :=
  put_ i d_one (replicate numRow d_zero).

(** [rhs.assign(numRow, 0); for (row = 0; row < numRow; row++) rhs[row] =
    Xrhs[row];] *)
Definition copy_rhs (numRow : nat) (Xrhs : list double) : list double :=
  foldl (fun rhs row => <[row := at_ d_zero Xrhs (Z.of_nat row)]> rhs)
    (replicate numRow d_zero) (seq 0 numRow).

(** [Highs::getBasisInverseRow] *)
Definition getBasisInverseRow (row : Z) (out : SolveBuffers) (s : Highs)
  : HighsStatus * SolveBuffers * Highs :=
  if (length (hmos_ s) =? 0)%nat then (Error, out, s)
  else
    let numRow := numRow_ (hmo0_lp s) in
    if (row <? 0)%Z || (Z.of_nat numRow <=? row)%Z then (Error, out, s)
    else if negb (has_invert (simplex_ (hmo_at 0 s))) then (Error, out, s)
    else
      (* Compute a row i of the inverse of the basis matrix by solving
         B^Tx=e_i *)
      let rhs := unit_rhs numRow row in
      let '(out, s) := interface_basisSolve rhs out true s in
      (OK, out, s).

(** [Highs::getBasisInverseCol] *)
Definition getBasisInverseCol (col : Z) (out : SolveBuffers) (s : Highs)
  : HighsStatus * SolveBuffers * Highs :=
  if (length (hmos_ s) =? 0)%nat then (Error, out, s)
  else
    let numRow := numRow_ (hmo0_lp s) in
    if (col <? 0)%Z || (Z.of_nat numRow <=? col)%Z then (Error, out, s)
    else if negb (has_invert (simplex_ (hmo_at 0 s))) then (Error, out, s)
    else
      (* Compute a col i of the inverse of the basis matrix by solving
         Bx=e_i *)
      let rhs := unit_rhs numRow col in
      let '(out, s) := interface_basisSolve rhs out false s in
      (OK, out, s).

(** [Highs::getBasisSolve] *)
Definition getBasisSolve (Xrhs : list double) (out : SolveBuffers) (s : Highs)
  : HighsStatus * SolveBuffers * Highs :=
  if (length (hmos_ s) =? 0)%nat then (Error, out, s)
  else if negb (has_invert (simplex_ (hmo_at 0 s))) then (Error, out, s)
  else
    let numRow := numRow_ (hmo0_lp s) in
    let rhs := copy_rhs numRow Xrhs in
    let '(out, s) := interface_basisSolve rhs out false s in
    (OK, out, s).

(** [Highs::getBasisTransposeSolve] *)
Definition getBasisTransposeSolve (Xrhs : list double) (out : SolveBuffers)
  (s : Highs) : HighsStatus * SolveBuffers * Highs :=
  if (length (hmos_ s) =? 0)%nat then (Error, out, s)
  else if negb (has_invert (simplex_ (hmo_at 0 s))) then (Error, out, s)
  else
    let numRow := numRow_ (hmo0_lp s) in
    let rhs := copy_rhs numRow Xrhs in
    let '(out, s) := interface_basisSolve rhs out true s in
    (OK, out, s).

(** The entries [el] of column [col] in the column-wise matrix of [lp]:
    [lp.Astart_[col] <= el < lp.Astart_[col + 1]]. *)
Definition column_entries (lp : HighsLp) (col : Z) : list Z :=
  seqZ (at_ 0 (Astart_ lp) col)
    (at_ 0 (Astart_ lp) (col + 1) - at_ 0 (Astart_ lp) col)%Z.

(** The inner loop of [getReducedRow]: [value] for column [col]. *)
Definition reduced_row_value (lp : HighsLp) (col_vector : list double)
  (col : nat) : double :=
  foldl (fun value el =>
           let row := at_ 0 (Aindex_ lp) el in
           dadd value
             (dmul (at_ d_zero (Avalue_ lp) el) (at_ d_zero col_vector row)))
    d_zero (column_entries lp (Z.of_nat col)).

(** The body of the outer loop of [getReducedRow]. *)
Definition getReducedRow_col (lp : HighsLp) (col_vector : list double)
  (return_indices : bool) (out : SolveBuffers) (col : nat) : SolveBuffers :=
  let value := reduced_row_value lp col_vector col in
  let out := set_vector_ (<[col := d_zero]> (vector_ out)) out in
  if dgt (fabs value) HIGHS_CONST_TINY then
    let out :=
      if return_indices then
        (* store col at row_indices[nz], then increment nz *)
        let nz := default 0 (num_nz_ out) in
        let out := set_indices_ (put_ nz (Z.of_nat col) <$> indices_ out) out in
        set_num_nz_ (Some (nz + 1)%Z) out
      else out in
    set_vector_ (<[col := value]> (vector_ out)) out
  else out.

(** [Highs::getReducedRow].  [lp] is a reference to [hmos_[0].lp_]: the
    loop reads the LP as [basisSolve] left it, [numRow] is read before.
    The local [col_num_nz] is handed to [basisSolve] uninitialised. *)
Definition getReducedRow (row : Z) (out : SolveBuffers) (s : Highs)
  : HighsStatus * SolveBuffers * Highs :=
  if (length (hmos_ s) =? 0)%nat then (Error, out, s)
  else if (row <? 0)%Z || (Z.of_nat (numRow_ (hmo0_lp s)) <=? row)%Z
  then (Error, out, s)
  else if negb (has_invert (simplex_ (hmo_at 0 s))) then (Error, out, s)
  else
    let numRow := numRow_ (hmo0_lp s) in
    let rhs := unit_rhs numRow row in
    let col_vector := resize numRow d_zero [] in
    let col_indices := resize numRow 0 [] in
    (* Form B^{-T}e_{row} *)
    let '(col, s) :=
      interface_basisSolve rhs
        {| vector_ := col_vector; num_nz_ := Some 0;
           indices_ := Some col_indices |} true s in
    let lp := hmo0_lp s in
    let return_indices := bool_decide (is_Some (num_nz_ out)) in
    let out := if return_indices then set_num_nz_ (Some 0) out else out in
    (OK,
     foldl (getReducedRow_col lp (vector_ col) return_indices) out
       (seq 0 (numCol_ lp)),
     s).

(** [rhs.assign(numRow, 0); for (el ...) rhs[lp.Aindex_[el]] =
    lp.Avalue_[el];] in [getReducedColumn]. *)
Definition scatter_column (lp : HighsLp) (col : Z) : list double :=
  foldl (fun rhs el =>
           put_ (at_ 0 (Aindex_ lp) el) (at_ d_zero (Avalue_ lp) el) rhs)
    (replicate (numRow_ lp) d_zero) (column_entries lp col).

(** [Highs::getReducedColumn] *)
Definition getReducedColumn (col : Z) (out : SolveBuffers) (s : Highs)
  : HighsStatus * SolveBuffers * Highs :=
  if (length (hmos_ s) =? 0)%nat then (Error, out, s)
  else if (col <? 0)%Z || (Z.of_nat (numCol_ (hmo0_lp s)) <=? col)%Z
  then (Error, out, s)
  else if negb (has_invert (simplex_ (hmo_at 0 s))) then (Error, out, s)
  else
    let lp := hmo0_lp s in
    let rhs := scatter_column lp col in
    let '(out, s) := interface_basisSolve rhs out false s in
    (OK, out, s).

(** [Highs::setSolution] *)
Definition setSolution (solution : HighsSolution) (s : Highs)
  : HighsStatus * Highs :=
  let return_status := OK in
  let s := if (0 <? length (col_value solution))%nat
           then set_solution_
                  (set_col_value (col_value solution) (solution_ s)) s
           else s in
  let s := if (0 <? length (col_dual solution))%nat
           then set_solution_
                  (set_col_dual (col_dual solution) (solution_ s)) s
           else s in
  let s := if (0 <? length (row_dual solution))%nat
           then set_solution_
                  (set_row_dual (row_dual solution) (solution_ s)) s
           else s in
  let rows : Flow HighsStatus :=
    if (0 <? length (col_value solution))%nat then
      let '(call_status, x) := calculateRowValues (lp_ s) (solution_ s) in
      let s := set_solution_ x s in
      let return_status := interpretCallStatus call_status return_status in
      if decide (return_status = Error) then Return return_status s
      else Continue return_status s
    else Continue return_status s in
  match rows with
  | Return return_status s => (return_status, s)
  | Continue return_status s =>
      if (0 <? length (row_dual solution))%nat then
        let '(call_status, x) := calculateColDuals (lp_ s) (solution_ s) in
        let s := set_solution_ x s in
        let return_status := interpretCallStatus call_status return_status in
        if decide (return_status = Error) then (return_status, s)
        else (return_status, s)
      else (return_status, s)
  end.

(** [Highs::setBasis(const HighsBasis& basis)] *)
Definition setBasis (basis : HighsBasis) (s : Highs) : HighsStatus * Highs :=
  if negb (basisOk (lp_ s) basis) then (Error, s)
  else
    let s := set_basis_ basis s in
    let s := set_basis_ (set_valid_ true (basis_ s)) s in
    (OK, s).

(** [Highs::setBasis()] *)
Definition setBasis_logical (s : Highs) : HighsStatus * Highs :=
  (* Invalidate the basis for HiGHS *)
  let s := set_basis_ (set_valid_ false (basis_ s)) s in
  if (0 <? length (hmos_ s))%nat then
    (* Invalidate the Highs basis and any simplex basis for the model *)
    let s := modify_hmo 0
               (fun h => set_hmo_basis_ (set_valid_ false (hmo_basis_ h)) h)
               s in
    let h := hmo_at 0 s in
    let '(lp, h') :=
      interface_clearBasis (options_ s) (lp_of (hmo_lp_ h) s) h in
    (OK, modify_hmo 0 (fun _ => h') (set_lp_of (hmo_lp_ h) lp s))
  else (OK, s).

(** [Highs::clearModel] *)
Definition clearModel (s : Highs) : HighsStatus * Highs :=
  let return_status := OK in
  let s := set_hmos_ [] s in
  let empty_lp := HighsLp_new in
  let s := set_lp_ empty_lp s in
  let s := set_hmos_ (hmos_ s ++ [HighsModelObject_new OriginalLp]) s in
  let '(call_status, s) := clearSolver s in
  let return_status := interpretCallStatus call_status return_status in
  if decide (return_status = Error) then (return_status, s)
  else (return_status, s).

End Queries.

(** ** A concrete platform and concrete collaborators

    Doubles are integers here, and the collaborators are scripted by what
    presolve, postsolve and the solver answer: enough to run every method
    on explicit data. *)

Module Demo.

#[local] Instance platform : Platform := {|
  double := Z;
  d_zero := 0;
  HIGHS_CONST_INF := 1000000;
  dneg := Z.opp;
  dsub := Z.sub;
  dlt := Z.ltb;
  dle := Z.leb;
  SimplexData := unit;
  fresh_simplex_data := tt;
  PresolveEngine := unit
|}.

Definition params : HighsSolutionParams :=
  {| sp_primal_status := 0; sp_dual_status := 0;
     sp_objective_function_value := 0;
     sp_num_primal_infeasibilities := 0; sp_max_primal_infeasibility := 0;
     sp_sum_primal_infeasibilities := 0;
     sp_num_dual_infeasibilities := 0; sp_max_dual_infeasibility := 0;
     sp_sum_dual_infeasibilities := 0 |}.

Definition info0 : HighsInfo :=
  {| simplex_iteration_count := 0; ipm_iteration_count := 0;
     crossover_iteration_count := 0; primal_status := -1; dual_status := -1;
     objective_function_value := 0;
     num_primal_infeasibilities := -1; max_primal_infeasibility := 0;
     sum_primal_infeasibilities := 0;
     num_dual_infeasibilities := -1; max_dual_infeasibility := 0;
     sum_dual_infeasibilities := 0 |}.

(** The LP of the scenario of section 8: two columns, one row,
    [x1 + x2 <= 10], costs [(1, 1)]. *)
Definition lp2 (sense : ObjSense) : HighsLp :=
  {| numCol_ := 2; numRow_ := 1;
     Astart_ := [0; 1; 2]; Aindex_ := [0; 0]; Avalue_ := [1; 1];
     colCost_ := [1; 1]; colLower_ := [0; 0]; colUpper_ := [1000000; 1000000];
     rowLower_ := [-1000000]; rowUpper_ := [10];
     sense_ := sense; model_name_ := "scenario"; lp_name_ := EmptyString |}.

(** A reduced LP with one column and no row. *)
Definition lp1 : HighsLp :=
  {| numCol_ := 1; numRow_ := 0;
     Astart_ := [0; 0]; Aindex_ := []; Avalue_ := [];
     colCost_ := [1]; colLower_ := [0]; colUpper_ := [10];
     rowLower_ := []; rowUpper_ := [];
     sense_ := MINIMIZE; model_name_ := "scenario"; lp_name_ := EmptyString |}.

(** An LP without columns. *)
Definition lp0 : HighsLp :=
  {| numCol_ := 0; numRow_ := 1;
     Astart_ := [0]; Aindex_ := []; Avalue_ := [];
     colCost_ := []; colLower_ := []; colUpper_ := [];
     rowLower_ := [0]; rowUpper_ := [10];
     sense_ := MINIMIZE; model_name_ := "no columns"; lp_name_ := EmptyString |}.

Definition options0 : HighsOptions :=
  {| presolve := "choose"; solver := "choose"; run_crossover := true;
     run_as_hsol := false; model_file := EmptyString; time_limit := 1000000;
     dual_objective_value_upper_bound := 77;
     highs_min_threads := 2; highs_max_threads := 8;
     simplex_strategy := 3 |}.

(** The solver of the script: it answers [call] and leaves the object with
    the scaled status [st], a solution and a valid basis sized to the LP. *)
Definition solve (call : HighsStatus) (st : HighsModelStatus) (lp : HighsLp)
  (h : HighsModelObject) : HighsStatus * HighsModelObject :=
  (call,
   {| hmo_lp_ := hmo_lp_ h;
      hmo_basis_ := {| valid_ := true;
                       col_status := replicate (numCol_ lp) BASIC;
                       row_status := replicate (numRow_ lp) LOWER |};
      hmo_solution_ := {| col_value := replicate (numCol_ lp) 5;
                          col_dual := replicate (numCol_ lp) 3;
                          row_value := replicate (numRow_ lp) 10;
                          row_dual := replicate (numRow_ lp) 1 |};
      unscaled_model_status_ := NOTSET;
      hmo_scaled_model_status_ := st;
      unscaled_solution_params_ := unscaled_solution_params_ h;
      scaled_solution_params_ := scaled_solution_params_ h;
      iteration_counts_ := iteration_counts_ h;
      simplex_ := tt |}).

(** The structural-edit interface of the script: it answers [call]; adding
    rows or columns enlarges the LP, and the object's basis is no longer
    valid. *)
Definition edit_lp (op : EditOp) (lp : HighsLp) : HighsLp :=
  let '(dcol, drow) :=
    match op with
    | OpAddRows n _ _ _ _ _ _ => (0%nat, Z.to_nat n)
    | OpAddCols n _ _ _ _ _ _ _ => (Z.to_nat n, 0%nat)
    | _ => (0%nat, 0%nat)
    end in
  {| numCol_ := numCol_ lp + dcol; numRow_ := numRow_ lp + drow;
     Astart_ := Astart_ lp; Aindex_ := Aindex_ lp; Avalue_ := Avalue_ lp;
     colCost_ := colCost_ lp; colLower_ := colLower_ lp;
     colUpper_ := colUpper_ lp; rowLower_ := rowLower_ lp;
     rowUpper_ := rowUpper_ lp; sense_ := sense_ lp;
     model_name_ := model_name_ lp; lp_name_ := lp_name_ lp |}.

Definition collaborators (presolved : HighsPresolveStatus)
  (postsolved : HighsPostsolveStatus) (solved : HighsStatus)
  (status : HighsModelStatus) (edited : HighsStatus) (writable : bool)
  : Collaborators := {|
  off_string := "off";
  on_string := "on";
  ipm_string := "ipm";
  simplex_string := "simplex";
  FILENAME_DEFAULT := EmptyString;
  SIMPLEX_STRATEGY_CHOOSE := 0;
  STATUS_NOTSET := -1;
  default_solution_params := params;
  clock := fun n => Z.of_nat n;
  setHsolOptions := fun o => o;
  getFilereader := fun _ => false;
  readModelFromFile := fun _ => (FilereaderRetcode.FILENOTFOUND, lp0);
  extractModelName := fun f => f;
  assessLp := fun lp _ => (OK, lp);
  cleanBounds := fun _ lp => (OK, lp);
  solveLp := fun _ lp _ h => solve solved status lp h;
  resetModelStatusAndSolutionParams := fun _ _ h => h;
  HighsInfo_clear := fun _ => info0;
  presolve_clear := fun p => p;
  presolve_init := fun _ p => p;
  presolve_run := fun p =>
    (presolved,
     {| has_run_ := true; presolve_status_ := presolved;
        presolve_time_limit := presolve_time_limit p;
        n_cols_removed := 0; n_rows_removed := 0; n_nnz_removed := 0;
        reduced_lp_ := lp1;
        reduced_solution_ := reduced_solution_ p;
        recovered_solution_ := recovered_solution_ p;
        engine_ := tt |});
  setBasisInfo := fun _ _ p => p;
  postsolve := fun e _ _ =>
    (postsolved,
     {| col_value := [5; 5]; col_dual := [0; 0];
        row_value := [10]; row_dual := [1] |}, e);
  getColStatus := fun _ => [BASIC; LOWER];
  getRowStatus := fun _ => [UPPER];
  interface_edit := fun op _ lp h =>
    (edited, edit_lp op lp,
     set_hmo_basis_ (set_valid_ false (hmo_basis_ h)) h);
  fopen_w := fun _ => writable
|}.

Definition presolve0 : PresolveComponent :=
  {| has_run_ := false; presolve_status_ := NotPresolved;
     presolve_time_limit := 0;
     n_cols_removed := 0; n_rows_removed := 0; n_nnz_removed := 0;
     reduced_lp_ := lp0;
     reduced_solution_ := empty_solution;
     recovered_solution_ := empty_solution;
     engine_ := tt |}.

(** What an earlier solve left in the caller-visible members. *)
Definition old_solution : HighsSolution :=
  {| col_value := [4; 4]; col_dual := [0; 0];
     row_value := [8]; row_dual := [0] |}.

Definition old_info : HighsInfo := set_primal_status 2 info0.

(** A [Highs] holding [lp] under [options] with one fresh context, the
    solution of an earlier solve and a basis that has been invalidated. *)
Definition highs `{!Collaborators} (lp : HighsLp) (options : HighsOptions)
  : Highs :=
  Highs_new
    {| lp_ := lp; options_ := options; hmos_ := [];
       basis_ := {| valid_ := false; col_status := [BASIC; BASIC];
                    row_status := [LOWER] |};
       solution_ := old_solution;
       info_ := old_info;
       model_status_ := NOTSET; scaled_model_status_ := NOTSET;
       presolve_ := presolve0; clock_reads_ := 0; trace_ := [] |}.

(** Presolve detects infeasibility. *)
Definition infeasible : Collaborators :=
  collaborators Infeasible SolutionRecovered OK OPTIMAL OK true.

(** Presolve runs out of time. *)
Definition timed_out : Collaborators :=
  collaborators Timeout SolutionRecovered OK OPTIMAL OK true.

(** Presolve reduces, the reduced LP is solved to optimality, postsolve
    recovers a solution. *)
Definition recovering : Collaborators :=
  collaborators Reduced SolutionRecovered OK OPTIMAL OK true.

(** As [recovering], but postsolve fails. *)
Definition failing_postsolve : Collaborators :=
  collaborators Reduced BasisError OK OPTIMAL OK true.

(** Presolve does not reduce; the solver is optimal in scaled space only. *)
Definition unreduced : Collaborators :=
  collaborators NotReduced SolutionRecovered OK OPTIMAL OK true.


(** The scenario of section 8, before any run, under each script. *)
Definition start (c : Collaborators) : Highs :=
  @highs c (lp2 MAXIMIZE) options0.

(** A model without columns, before any run. *)
Definition start_without_columns : Highs := @highs unreduced lp0 options0.

(** Adding the row [0 <= . <= 5] without entries. *)
Definition add_one_row : EditOp := OpAddRows 1 [0] [5] 0 [0] [] [].

End Demo.

(** ** Concrete services for the basis queries and the setters

    The basis matrix of the script is the identity, so that a solve
    returns its right-hand side; the simplex data holds a basis and an
    invertible representation for an LP with one row, whose basic variable
    is variable 2, the slack of the row of [Demo.lp2]. *)

Module DemoQueries.
Import Demo.

#[local] Existing Instance platform.

Definition arithmetic : @Arithmetic platform :=
  {| d_one := 1; dadd := Z.add; dmul := Z.mul; fabs := Z.abs;
     HIGHS_CONST_TINY := 0 |}.

(** The solution of [B x = rhs] for the identity: [rhs], all entries
    counted as nonzeros. *)
Definition solve_identity (rhs : list Z) (out : SolveBuffers) : SolveBuffers :=
  {| vector_ := rhs ++ drop (length rhs) (vector_ out);
     num_nz_ := (fun _ => Z.of_nat (length rhs)) <$> num_nz_ out;
     indices_ := indices_ out |}.

(** A default-constructed LP. *)
Definition lp_new : HighsLp :=
  {| numCol_ := 0; numRow_ := 0;
     Astart_ := []; Aindex_ := []; Avalue_ := [];
     colCost_ := []; colLower_ := []; colUpper_ := [];
     rowLower_ := []; rowUpper_ := [];
     sense_ := MINIMIZE; model_name_ := EmptyString;
     lp_name_ := EmptyString |}.

Definition services (basis_ok : bool) : @Services platform :=
  {| has_basis := fun _ => true;
     has_invert := fun _ => true;
     simplex_lp_numRow_ := fun _ => 1%nat;
     basicIndex_ := fun _ => [2];
     basisSolve := fun _ lp h rhs out _ => (solve_identity rhs out, lp, h);
     interface_clearBasis := fun _ lp h => (lp, h);
     basisOk := fun _ _ => basis_ok;
     calculateRowValues := fun _ x => (OK, x);
     calculateColDuals := fun _ x => (OK, x);
     HighsLp_new := lp_new |}.

(** Output arguments with room for two columns. *)
Definition buffers : SolveBuffers :=
  {| vector_ := [9; 9]; num_nz_ := Some 5; indices_ := Some [7; 7] |}.

(** The scenario with a valid caller-visible basis. *)
Definition warm : Highs :=
  set_basis_ (set_valid_ true (basis_ (start unreduced))) (start unreduced).

(** A basis for the LP of the scenario. *)
Definition basis2 : HighsBasis :=
  {| valid_ := false; col_status := [BASIC; LOWER]; row_status := [UPPER] |}.

(** As [unreduced], with a structural-edit interface that extends the basis
    of the object and leaves it valid. *)
Definition keeping_basis : Collaborators :=
  let c := unreduced in
  {| off_string := @off_string _ c;
     on_string := @on_string _ c;
     ipm_string := @ipm_string _ c;
     simplex_string := @simplex_string _ c;
     FILENAME_DEFAULT := @FILENAME_DEFAULT _ c;
     SIMPLEX_STRATEGY_CHOOSE := @SIMPLEX_STRATEGY_CHOOSE _ c;
     STATUS_NOTSET := @STATUS_NOTSET _ c;
     default_solution_params := @default_solution_params _ c;
     clock := @clock _ c;
     setHsolOptions := @setHsolOptions _ c;
     getFilereader := @getFilereader _ c;
     readModelFromFile := @readModelFromFile _ c;
     extractModelName := @extractModelName _ c;
     assessLp := @assessLp _ c;
     cleanBounds := @cleanBounds _ c;
     solveLp := @solveLp _ c;
     resetModelStatusAndSolutionParams :=
       @resetModelStatusAndSolutionParams _ c;
     HighsInfo_clear := @HighsInfo_clear _ c;
     presolve_clear := @presolve_clear _ c;
     presolve_init := @presolve_init _ c;
     presolve_run := @presolve_run _ c;
     setBasisInfo := @setBasisInfo _ c;
     postsolve := @postsolve _ c;
     getColStatus := @getColStatus _ c;
     getRowStatus := @getRowStatus _ c;
     interface_edit := fun op _ lp h =>
       (OK, edit_lp op lp,
        set_hmo_basis_ (set_valid_ true (hmo_basis_ h)) h);
     fopen_w := @fopen_w _ c |}.

End DemoQueries.

Local Close Scope string_scope.

(** ** Vocabulary of the statements *)

Section Vocabulary.
Context `{C : Collaborators}.

(** The state a block leaves, whichever way it exits. *)
Definition flow_state {A} (f : Flow A) : Highs :=
  match f with Return _ s | Continue _ s => s end.

(** From [s] to [s'] the log grew by events that all satisfy [Pr]. *)
Definition appends (Pr : Event -> Prop) (s s' : Highs) : Prop :=
  ∃ l : list Event, trace_ s' = trace_ s ++ l ∧ Forall Pr l.

(** The statuses the finalizer treats as error returns (the first group of
    its switch). *)
Definition error_class (st : HighsModelStatus) : Prop :=
  st = NOTSET ∨ st = LOAD_ERROR ∨ st = MODEL_ERROR ∨ st = PRESOLVE_ERROR ∨
  st = SOLVE_ERROR ∨ st = POSTSOLVE_ERROR.

(** Solution, basis and info are cleared: the vectors are empty, the basis
    is invalid and [info_] is what [info_.clear()] leaves. *)
Definition cleared (s : Highs) : Prop :=
  solution_ s = empty_solution ∧ basis_ s = empty_basis ∧
  ∃ info, info_ s = HighsInfo_clear info.

(** What [clearSolver] leaves: cleared, and both statuses not set. *)
Definition reset_result (s : Highs) : Prop :=
  cleared s ∧ model_status_ s = NOTSET ∧ scaled_model_status_ s = NOTSET.

(** The options a solver call must run under: no dual objective cut-off
    on a context other than context 0 (the presolved LP), and one thread
    in the hot start after postsolve. *)
Definition solver_options_ok (model_index : nat) (message : string)
  (o : HighsOptions) : Prop :=
  (model_index ≠ 0%nat ∨ message = "Solving the presolved LP"%string ->
   dual_objective_value_upper_bound o = HIGHS_CONST_INF) ∧
  (message
   = "Solving the original LP from the solution after postsolve"%string ->
   highs_min_threads o = 1 ∧ highs_max_threads o = 1).

Definition is_solve (e : Event) : Prop :=
  match e with
  | EvSolveLp i m o => solver_options_ok i m o
  | _ => False
  end.

(** The events that may follow the presolve stage when [x] is the result
    of postsolve, if postsolve ran. *)
Definition post_ev (x : option HighsPostsolveStatus) (e : Event) : Prop :=
  match e with
  | EvSolveLp i m o => solver_options_ok i m o
  | EvPostsolve y => x = Some y
  | EvNegateReducedLpColDuals _ | EvPostsolveEngine _ => x ≠ None
  | _ => False
  end.


(** The model status adopted when presolve detects infeasibility or
    unboundedness (lines 553-557). *)
Definition detected_status (pst : HighsPresolveStatus) : HighsModelStatus :=
  if decide (pst = Infeasible) then PRIMAL_INFEASIBLE else PRIMAL_UNBOUNDED.

(** Context 0 exists and carries [st] as unscaled and as scaled status. *)
Definition context0_status (st : HighsModelStatus) (s : Highs) : Prop :=
  ∃ h, hmos_ s !! 0%nat = Some h ∧ unscaled_model_status_ h = st ∧
       hmo_scaled_model_status_ h = st.

(** The options the pipeline starts from: [options_] after the hsol
    reset. *)
Definition pipeline_options (s : Highs) : HighsOptions :=
  if run_as_hsol (options_ s) then setHsolOptions (options_ s) else options_ s.

(** The log entry of a call of [run] on [s]. *)
Definition run_entry (s : Highs) : Event :=
  EvRun (valid_ (basis_ s)) (presolve (options_ s)).



(** The caller-visible solution has the dimensions of [lp_], and the
    caller-visible basis is the one of context 0 if that is valid, and
    otherwise invalid with the dimensions of [lp_]. *)
Definition resynchronised (s : Highs) : Prop :=
  length (col_value (solution_ s)) = numCol_ (lp_ s) ∧
  length (col_dual (solution_ s)) = numCol_ (lp_ s) ∧
  length (row_value (solution_ s)) = numRow_ (lp_ s) ∧
  length (row_dual (solution_ s)) = numRow_ (lp_ s) ∧
  if valid_ (hmo_basis_ (hmo_at 0 s))
  then basis_ s = hmo_basis_ (hmo_at 0 s)
  else valid_ (basis_ s) = false ∧
       length (col_status (basis_ s)) = numCol_ (lp_ s) ∧
       length (row_status (basis_ s)) = numRow_ (lp_ s).

(** What the switch on the presolve status (lines 463-606) establishes, by
    exit. *)
Definition run_solve_post (pst : HighsPresolveStatus) (s : Highs)
  (f : Flow (HighsStatus * nat)) : Prop :=
  match f with
  | Return st s' =>
      options_ s' = options_ s ∧ length (hmos_ s') = 1%nat ∧
      appends is_solve s s' ∧
      ((st = OK ∧ (pst = Infeasible ∨ pst = Unbounded) ∧
        trace_ s' = trace_ s ∧
        model_status_ s' = detected_status pst ∧
        scaled_model_status_ s' = detected_status pst ∧
        solution_ s' = empty_solution ∧
        context0_status (detected_status pst) s')
       ∨ (st = Warning ∧ (pst = Timeout ∨ pst = OptionsError) ∧
          trace_ s' = trace_ s ∧ model_status_ s' = PRESOLVE_ERROR)
       ∨ (st = Error ∧ pst = Reduced ∧ trace_ s' = trace_ s)
       ∨ (st = Error ∧ reset_result s' ∧ pst ≠ Infeasible ∧ pst ≠ Unbounded ∧
          pst ≠ Timeout ∧ pst ≠ OptionsError))
  | Continue (rs', solved) s' =>
      rs' ≠ Error ∧ options_ s' = options_ s ∧ appends is_solve s s' ∧
      scaled_model_status_ s' = NOTSET ∧
      (pst = NotPresolved ∨ pst = NotReduced ∨ pst = Reduced ∨
       pst = ReducedToEmpty) ∧
      (solved < length (hmos_ s') <= 2)%nat
  end.

(** What a single solve of context 0 establishes (the hot start, and the
    branch without presolve). *)
Definition run_original_post (s : Highs) (f : Flow (HighsStatus * nat))
  : Prop :=
  match f with
  | Return st s' =>
      st = Error ∧ reset_result s' ∧ options_ s' = options_ s ∧
      length (hmos_ s') = 1%nat ∧ appends is_solve s s'
  | Continue (rs', solved) s' =>
      rs' ≠ Error ∧ options_ s' = options_ s ∧
      length (hmos_ s') = length (hmos_ s) ∧ appends is_solve s s'
  end.

(** What the postsolve block (lines 607-711) establishes when [x] is the
    result of postsolve, if postsolve ran. *)
Definition run_postsolve_post (s : Highs) (x : option HighsPostsolveStatus)
  (f : Flow (HighsStatus * nat)) : Prop :=
  match f with
  | Return st s' =>
      st = Error ∧ reset_result s' ∧ options_ s' = options_ s ∧
      length (hmos_ s') = 1%nat ∧ appends (post_ev x) s s' ∧ x ≠ None ∧
      (forall y, x = Some y -> y ≠ SolutionRecovered ->
                 context0_status POSTSOLVE_ERROR s')
  | Continue (rs', solved) s' =>
      rs' ≠ Error ∧ options_ s' = options_ s ∧
      (1 <= length (hmos_ s') <= 2)%nat ∧ appends (post_ev x) s s' ∧
      (x = None ∨ x = Some SolutionRecovered)
  end.

(** The outcome of a run whose presolve stage answered [pst], whose
    postsolve stage answered [x] if it ran, and that logged [l1] after
    presolve. *)
Definition presolve_outcome (pst : HighsPresolveStatus)
  (x : option HighsPostsolveStatus) (l1 : list Event)
  (r : HighsStatus * Highs) : Prop :=
  (pst = Infeasible ∨ pst = Unbounded ->
   l1 = [] ∧ r.1 = OK ∧ model_status_ r.2 = detected_status pst ∧
   scaled_model_status_ r.2 = detected_status pst ∧
   solution_ r.2 = empty_solution ∧
   context0_status (detected_status pst) r.2) ∧
  (pst = Timeout ∨ pst = OptionsError ->
   l1 = [] ∧ r.1 = Warning ∧ model_status_ r.2 = PRESOLVE_ERROR) ∧
  (x ≠ None -> pst = Reduced ∨ pst = ReducedToEmpty) ∧
  (forall y, x = Some y -> y ≠ SolutionRecovered ->
             r.1 = Error ∧ context0_status POSTSOLVE_ERROR r.2) ∧
  (r.1 = Error -> reset_result r.2 ∨ (pst = Reduced ∧ l1 = [])) ∧
  (r.1 ≠ Error ->
   ¬ error_class (scaled_model_status_ r.2) ∨
   pst = Timeout ∨ pst = OptionsError).

End Vocabulary.

(** ** Vocabulary of the statements on queries and setters *)

Section QueryVocabulary.
Context `{C : Collaborators} `{Ar : !Arithmetic} `{Sv : !Services}.

(** The solve that [getReducedRow] performs, into its local [col_vector],
    [col_num_nz] and [col_indices]: row [row] of the basis inverse, and the
    object afterwards. *)
Definition reduced_row_solve (row : Z) (s : Highs) : SolveBuffers * Highs :=
  let numRow := numRow_ (hmo0_lp s) in
  interface_basisSolve (unit_rhs numRow row)
    {| vector_ := resize numRow d_zero []; num_nz_ := Some 0;
       indices_ := Some (resize numRow 0 []) |} true s.

End QueryVocabulary.

(** ** Vocabulary of the further statements on [run] *)

Section RunVocabulary.
Context `{C : Collaborators}.

(** The object when [run], on a model with columns, reaches the test of
    line 433: the entry is logged, the hsol options are set, the statuses
    of the object and of context 0 are not set and the initial time has
    been read. *)
Definition run_start (s : Highs) : Highs :=
  let s := log (run_entry s) s in
  let s := if run_as_hsol (options_ s)
           then set_options_ (setHsolOptions (options_ s)) s else s in
  let s := modify_hmo 0 (set_hmo_scaled_model_status_ NOTSET) s in
  let s := modify_hmo 0 (set_unscaled_model_status_ NOTSET) s in
  let s := set_model_status_ (hmo_scaled_model_status_ (hmo_at 0 s)) s in
  let s := set_scaled_model_status_
             (unscaled_model_status_ (hmo_at 0 s)) s in
  (readRunHighsClock s).2.

(** Whether [run] considers presolve: there is no valid basis and the
    presolve option is not off. *)
Definition considers_presolve (s : Highs) : bool :=
  negb (valid_ (basis_ s))
  && negb (String.eqb (presolve (pipeline_options s)) off_string).

Definition is_presolve (e : Event) : Prop :=
  match e with EvPresolve _ => True | _ => False end.

End RunVocabulary.

Section ResultVocabulary.
Context `{C : Collaborators}.

(** The statuses with which a solve ends in a definite answer: the group
    the finalizer lists as the OK returns. *)
Definition definite (st : HighsModelStatus) : Prop :=
  st = MODEL_EMPTY ∨ st = PRIMAL_INFEASIBLE ∨ st = PRIMAL_UNBOUNDED ∨
  st = OPTIMAL ∨ st = REACHED_DUAL_OBJECTIVE_VALUE_UPPER_BOUND.

(** The statuses the finalizer lists as the warning returns. *)
Definition limit_reached (st : HighsModelStatus) : Prop :=
  st = REACHED_TIME_LIMIT ∨ st = REACHED_ITERATION_LIMIT.

(** How [run] can end on a model with columns: through the harvest of
    lines 741-824, started from [s1] with the statuses of context 0 those
    of the solved context; with Error and nothing left; with a status
    detected by presolve; or early, with the scaled status not set. *)
Definition run_ending (r : HighsStatus * Highs) : Prop :=
  (∃ solved rs s1,
     rs ≠ Error ∧ (1 <= length (hmos_ s1) <= 2)%nat ∧
     r = run_harvest solved rs s1 ∧
     unscaled_model_status_ (hmo_at 0 s1)
     = unscaled_model_status_ (hmo_at solved s1) ∧
     hmo_scaled_model_status_ (hmo_at 0 s1)
     = hmo_scaled_model_status_ (hmo_at solved s1))
  ∨ (r.1 = Error ∧ reset_result r.2)
  ∨ (r.1 = OK ∧ (scaled_model_status_ r.2 = PRIMAL_INFEASIBLE ∨
                 scaled_model_status_ r.2 = PRIMAL_UNBOUNDED))
  ∨ (r.1 ≠ OK ∧ scaled_model_status_ r.2 = NOTSET).

End ResultVocabulary.

Section StageVocabulary.
Context `{P : Platform}.

(** How many events of a log satisfy [p]. *)
Fixpoint count (p : Event -> bool) (l : list Event) : nat :=
  match l with
  | [] => 0
  | e :: l => (if p e then 1 else 0) + count p l
  end.

(** A solve of context 0, the original problem; a solve of another
    context, the reduced problem; a postsolve. *)
Definition solves_original (e : Event) : bool :=
  match e with EvSolveLp 0 _ _ => true | _ => false end.

Definition solves_reduced (e : Event) : bool :=
  match e with EvSolveLp (S _) _ _ => true | _ => false end.

Definition postsolves (e : Event) : bool :=
  match e with EvPostsolve _ => true | _ => false end.

(** What a block of [run] appends to the log: at most one solve of each
    kind and at most one postsolve. *)
Definition stages (original reduced post : nat) (l : list Event) : Prop :=
  count solves_original l = original ∧ count solves_reduced l = reduced ∧
  count postsolves l = post.

End StageVocabulary.

(** ** Proofs *)

Section Theory.
Context `{C : Collaborators}.

Lemma appends_refl Pr s s' : trace_ s' = trace_ s -> appends Pr s s'.
Proof. intros H. exists []. rewrite app_nil_r. auto. Qed.

Lemma appends_trans Pr s1 s2 s3 :
  appends Pr s1 s2 -> appends Pr s2 s3 -> appends Pr s1 s3.
Proof.
  intros (l1 & H1 & F1) (l2 & H2 & F2). exists (l1 ++ l2).
  rewrite H2, H1, app_assoc. split; [done | by apply Forall_app].
Qed.

Lemma appends_mono (Pr Qr : Event -> Prop) s s' :
  (forall e, Pr e -> Qr e) -> appends Pr s s' -> appends Qr s s'.
Proof.
  intros H (l & E & F). exists l. split; [done|]. eapply Forall_impl; eauto.
Qed.

Lemma appends_log (Pr : Event -> Prop) e s : Pr e -> appends Pr s (log e s).
Proof. intros H. exists [e]. split; [done | by constructor]. Qed.

Lemma length_pop_back {A} (v : list A) : length (pop_back v) = (length v - 1)%nat.
Proof. unfold pop_back. rewrite length_take. lia. Qed.

Lemma runLpSolver_frame i m s :
  let s' := snd (runLpSolver i m s) in
  lp_ s' = lp_ s ∧ options_ s' = options_ s ∧ basis_ s' = basis_ s ∧
  solution_ s' = solution_ s ∧ model_status_ s' = model_status_ s ∧
  scaled_model_status_ s' = scaled_model_status_ s ∧
  presolve_ s' = presolve_ s ∧ length (hmos_ s') = length (hmos_ s) ∧
  appends (fun e => e = EvSolveLp i m (options_ s)) s s'.
Proof.
  unfold runLpSolver. destruct (hmos_ s !! i) eqn:Hi; simpl.
  - destruct (solveLp _ _ _ _) as [cs h1] eqn:Hs. simpl.
    case_decide; simpl; rewrite ?length_alter; split_and!; try done;
      by apply (appends_log _ _ s).
  - split_and!; try done. by apply appends_refl.
Qed.

Lemma resize_0 {A} (y : A) l : resize 0 y l = [].
Proof. by destruct l. Qed.

Lemma clearSolver_cleared s :
  cleared (snd (clearSolver s)) ∧ model_status_ (snd (clearSolver s)) = NOTSET ∧
  scaled_model_status_ (snd (clearSolver s)) = NOTSET.
Proof.
  unfold cleared, clearSolver; simpl. unfold resize_solution.
  rewrite !resize_0. split_and!; eauto.
Qed.

Lemma beforeReturnFromRun_frame rs s :
  let s' := beforeReturnFromRun rs s in
  trace_ s' = trace_ s ∧ options_ s' = options_ s ∧ lp_ s' = lp_ s ∧
  presolve_ s' = presolve_ s ∧
  ((1 <= length (hmos_ s) <= 2)%nat ->
   length (hmos_ s') = 1%nat ∧ hmos_ s' !! 0%nat = hmos_ s !! 0%nat).
Proof.
  unfold beforeReturnFromRun.
  destruct (length (hmos_ s) =? 0)%nat eqn:H0; simpl.
  - apply Nat.eqb_eq in H0. split_and!; try done; lia.
  - apply Nat.eqb_neq in H0.
    destruct (Nat.ltb_spec 1 (length (hmos_ s))) as [H1 | H1]; simpl;
      destruct (scaled_model_status_ s); simpl;
      split_and!; try done; intros; rewrite ?length_pop_back;
      (split; [lia |]); try done; unfold pop_back; apply lookup_take_lt; lia.
Qed.

Lemma beforeReturnFromRun_error rs s :
  length (hmos_ s) = 0%nat ∨ error_class (scaled_model_status_ s) ->
  let s' := beforeReturnFromRun rs s in
  cleared s' ∧ model_status_ s' = NOTSET ∧ scaled_model_status_ s' = NOTSET.
Proof.
  intros H. unfold beforeReturnFromRun.
  destruct (length (hmos_ s) =? 0)%nat eqn:H0.
  - apply clearSolver_cleared.
  - apply Nat.eqb_neq in H0. destruct H as [H | H]; [done |].
    set (s1 := if (1 <? _)%nat then _ else _).
    assert (Hs : scaled_model_status_ s1 = scaled_model_status_ s)
      by (subst s1; by case_match).
    rewrite Hs.
    destruct H as [-> | [-> | [-> | [-> | [-> | ->]]]]];
      apply clearSolver_cleared.
Qed.


Lemma runPresolve_reduce_frame s :
  let r := runPresolve_reduce s in
  hmos_ r.2 = hmos_ s ∧ options_ r.2 = options_ s ∧
  model_status_ r.2 = model_status_ s ∧
  scaled_model_status_ r.2 = scaled_model_status_ s ∧
  basis_ r.2 = basis_ s ∧ solution_ r.2 = solution_ s ∧
  info_ r.2 = info_ s ∧ lp_ r.2 = lp_ s ∧
  ∃ l : list Event, trace_ r.2 = trace_ s ++ l ∧
    Forall (fun e => e = EvNegateReducedLpCost ∧ r.1 = Reduced) l.
Proof.
  unfold runPresolve_reduce.
  destruct (presolve_run (presolve_ s)) as [st p] eqn:Hrun.
  case_decide as Hmax; simpl.
  - destruct Hmax as [-> _].
    destruct (presolve_status_ _); simpl;
      split_and!; try done; eexists [_];
      (split; [done | by repeat constructor]).
  - destruct (presolve_status_ _); simpl;
      split_and!; try done; exists []; by rewrite app_nil_r.
Qed.

Lemma runPresolve_body_frame s :
  let r := runPresolve_body s in
  hmos_ r.2 = hmos_ s ∧ options_ r.2 = options_ s ∧
  model_status_ r.2 = model_status_ s ∧
  scaled_model_status_ r.2 = scaled_model_status_ s ∧
  basis_ r.2 = basis_ s ∧ solution_ r.2 = solution_ s ∧
  info_ r.2 = info_ s ∧ lp_ r.2 = lp_ s ∧
  ∃ l : list Event, trace_ r.2 = trace_ s ++ l ∧
    Forall (fun e => e = EvNegateReducedLpCost ∧ r.1 = Reduced) l.
Proof.
  unfold runPresolve_body, readRunHighsClock.
  repeat case_match; simplify_eq; simpl;
    lazymatch goal with
    | |- context [runPresolve_reduce ?x] =>
        pose proof (runPresolve_reduce_frame x) as F; simpl in F; apply F
    | |- _ => split_and!; try done; exists []; by rewrite app_nil_r
    end.
Qed.

Lemma runPresolve_frame s :
  let r := runPresolve s in
  hmos_ r.2 = hmos_ s ∧ options_ r.2 = options_ s ∧
  model_status_ r.2 = model_status_ s ∧
  scaled_model_status_ r.2 = scaled_model_status_ s ∧
  basis_ r.2 = basis_ s ∧ solution_ r.2 = solution_ s ∧
  info_ r.2 = info_ s ∧ lp_ r.2 = lp_ s ∧
  ∃ l : list Event, trace_ r.2 = trace_ s ++ l ++ [EvPresolve r.1] ∧
    Forall (fun e => e = EvNegateReducedLpCost ∧ r.1 = Reduced) l.
Proof.
  pose proof (runPresolve_body_frame s) as F. simpl in F.
  unfold runPresolve. destruct (runPresolve_body s) as [st s1]. simpl in *.
  destruct F as (-> & -> & -> & -> & -> & -> & -> & -> & l & -> & Fl).
  split_and!; try done. exists l. by rewrite app_assoc.
Qed.

Lemma runPostsolve_frame s :
  let r := runPostsolve s in
  hmos_ r.2 = hmos_ s ∧ options_ r.2 = options_ s ∧
  model_status_ r.2 = model_status_ s ∧
  scaled_model_status_ r.2 = scaled_model_status_ s ∧
  basis_ r.2 = basis_ s ∧ solution_ r.2 = solution_ s ∧
  info_ r.2 = info_ s ∧ lp_ r.2 = lp_ s ∧
  ∃ l : list Event, trace_ r.2 = trace_ s ++ l ++ [EvPostsolve r.1] ∧
    Forall (fun e => match e with
                     | EvNegateReducedLpColDuals _ | EvPostsolveEngine _ => True
                     | _ => False
                     end) l.
Proof.
  unfold runPostsolve, runPostsolve_body.
  destruct (negb _); [simpl; split_and!; try done; exists []; by split |].
  case_decide; [simpl; split_and!; try done; exists []; by split |].
  destruct (decide (sense_ (lp_ s) = MAXIMIZE)) as [Hm | Hm]; simpl.
  - destruct (postsolve _ _ _) as [[st rec] eng]; simpl.
    case_decide; simpl.
    + split_and!; try done.
      eexists [_; _]. split; [by rewrite <- !app_assoc | by repeat constructor].
    + rewrite decide_True by done. simpl. split_and!; try done.
      eexists [_; _; _]. split; [by rewrite <- !app_assoc | by repeat constructor].
  - destruct (postsolve _ _ _) as [[st rec] eng]; simpl.
    case_decide; simpl.
    + split_and!; try done.
      eexists [_]. split; [by rewrite <- !app_assoc | by repeat constructor].
    + rewrite decide_False by done. simpl. split_and!; try done.
      subst. eexists [_]. split; [by rewrite <- !app_assoc | by repeat constructor].
Qed.


Lemma interpret_error_l a b :
  b ≠ Error -> interpretCallStatus a b = Error -> a = Error.
Proof. destruct a, b; simpl; intuition congruence. Qed.

Lemma set_hmo_lp_name_frame i n s :
  let s' := set_hmo_lp_name i n s in
  hmos_ s' = hmos_ s ∧ options_ s' = options_ s ∧ trace_ s' = trace_ s ∧
  model_status_ s' = model_status_ s ∧
  scaled_model_status_ s' = scaled_model_status_ s ∧
  basis_ s' = basis_ s ∧ solution_ s' = solution_ s ∧ info_ s' = info_ s.
Proof.
  unfold set_hmo_lp_name, set_lp_of. repeat case_match; by simpl.
Qed.


Ltac solve_ok :=
  split;
  [ intros [? | ?]; try done; try discriminate
  | intros ?; try discriminate ].

Lemma finish_error_spec st s :
  error_class (scaled_model_status_ s) -> (1 <= length (hmos_ s) <= 2)%nat ->
  let s' := beforeReturnFromRun st s in
  reset_result s' ∧ length (hmos_ s') = 1%nat ∧ trace_ s' = trace_ s ∧
  options_ s' = options_ s ∧ hmos_ s' !! 0%nat = hmos_ s !! 0%nat.
Proof.
  intros He Hl.
  destruct (beforeReturnFromRun_frame st s) as (T & O & _ & _ & L).
  destruct (L Hl) as [L1 L0]. split_and!; try done.
  apply beforeReturnFromRun_error. by right.
Qed.

Lemma runLpSolver_spec i m s :
  scaled_model_status_ s = NOTSET -> solver_options_ok i m (options_ s) ->
  let r := runLpSolver i m s in
  options_ r.2 = options_ s ∧ length (hmos_ r.2) = length (hmos_ s) ∧
  scaled_model_status_ r.2 = NOTSET ∧ appends is_solve s r.2.
Proof.
  intros Hst Hok.
  destruct (runLpSolver_frame i m s) as (_ & Ho & _ & _ & _ & Hs & _ & Hl & Ht).
  simpl. rewrite Ho, Hl, Hs, Hst. split_and!; try done.
  eapply appends_mono; [| exact Ht]. intros e ->. done.
Qed.

Lemma restore_dual_objective_value_upper_bound (o : HighsOptions) v :
  set_dual_objective_value_upper_bound (dual_objective_value_upper_bound o)
    (set_dual_objective_value_upper_bound v o) = o.
Proof. by destruct o. Qed.

Lemma run_solve_original pst rs m s0 s :
  rs ≠ Error -> pst = NotPresolved ∨ pst = NotReduced ->
  solver_options_ok 0 m (options_ s0) -> options_ s0 = options_ s ->
  trace_ s0 = trace_ s -> scaled_model_status_ s0 = NOTSET ->
  length (hmos_ s0) = 1%nat ->
  run_solve_post pst s
    (let '(call_status, s1) := runLpSolver 0 m s0 in
     if decide (interpretCallStatus call_status rs = Error)
     then finish (interpretCallStatus call_status rs) s1
     else Continue (interpretCallStatus call_status rs, 0%nat) s1).
Proof.
  intros Hrs Hp Hok Ho Ht Hs Hl.
  destruct (runLpSolver_spec 0 m s0 Hs Hok) as (O & L & S & A).
  destruct (runLpSolver 0 m s0) as [cs s1]. simpl in *.
  assert (A' : appends is_solve s s1).
  { destruct A as (l & E & Fl). exists l. by rewrite E, Ht. }
  case_decide as He; simpl.
  - destruct (finish_error_spec (interpretCallStatus cs rs) s1)
      as (R & L' & T' & O' & _); [left; done | lia |].
    split_and!; try congruence.
    + destruct A' as (l & E & Fl). exists l. by rewrite T', E.
    + right. right. right. rewrite He. destruct Hp; subst; by split_and!.
  - split_and!; try done; try congruence; try lia. tauto.
Qed.

Lemma run_solve_spec pst rs s :
  rs ≠ Error -> scaled_model_status_ s = NOTSET -> length (hmos_ s) = 1%nat ->
  run_solve_post pst s (run_solve pst 1 rs s).
Proof.
  intros Hrs Hst Hlen.
  unfold run_solve. destruct pst.
  - (* NotPresolved *)
    destruct (set_hmo_lp_name_frame original_hmo "Original LP" s)
      as (H1 & H2 & H3 & H4 & H5 & _).
    apply run_solve_original; try done; try congruence; eauto.
    all: try solve_ok.
  - (* NotReduced *)
    destruct (set_hmo_lp_name_frame original_hmo "Unreduced LP" s)
      as (H1 & H2 & H3 & H4 & H5 & _).
    apply run_solve_original; try done; try congruence; eauto.
    all: try solve_ok.
  - (* Infeasible *)
    destruct s as [lp o hm b so inf ms sms pr cl tr]; simpl in *.
    destruct hm as [| h [| ? ?]]; try discriminate.
    cbn. unfold resize_solution. rewrite !resize_0.
    split_and!; try done; [by apply appends_refl |].
    left. split_and!; eauto. eexists; split_and!; done.
  - (* Unbounded *)
    destruct s as [lp o hm b so inf ms sms pr cl tr]; simpl in *.
    destruct hm as [| h [| ? ?]]; try discriminate.
    cbn. unfold resize_solution. rewrite !resize_0.
    split_and!; try done; [by apply appends_refl |].
    left. split_and!; eauto. eexists; split_and!; done.
  - (* Reduced *)
    destruct (cleanBounds _ _) as [cb reduced_lp].
    case_decide as Hcb.
    { simpl. split_and!; try done; [by apply appends_refl |].
      right. right. left. done. }
    match goal with
    | |- context [runLpSolver _ _ (set_options_ _ (set_hmo_lp_name ?i ?n ?x))] =>
        destruct (set_hmo_lp_name_frame i n x) as (N1 & N2 & N3 & _ & N5 & _);
        set (sc := set_hmo_lp_name i n x) in *
    end.
    simpl in N1, N2, N3, N5. clearbody sc.
    match goal with |- context [runLpSolver ?i ?m ?x] =>
      assert (Hs1 : scaled_model_status_ x = NOTSET) by (simpl; by rewrite N5);
      assert (Hok : solver_options_ok i m (options_ x))
        by solve_ok;
      destruct (runLpSolver_spec i m x Hs1 Hok) as (O & L & S & A);
      destruct (runLpSolver i m x) as [cs s1] eqn:Hrun
    end.
    simpl in O, L, S, A.
    rewrite N1, length_app, Hlen in L. simpl in L.
    assert (A' : appends is_solve s s1).
    { destruct A as (l & E & Fl). exists l. rewrite E. simpl. by rewrite N3. }
    rewrite O, restore_dual_objective_value_upper_bound.
    case_decide as He; simpl.
    + match goal with |- context [beforeReturnFromRun ?st ?x] =>
        destruct (finish_error_spec st x) as (R & L' & T' & O' & _);
          [left; done | simpl; lia |]
      end.
      simpl in *. split_and!; try done; try congruence.
      * destruct A' as (l & E & Fl). exists l. by rewrite T', E.
      * right. right. right. by rewrite He.
    + split_and!; try done; try lia; tauto.
  - (* ReducedToEmpty *)
    simpl. rewrite !length_alter. unfold original_hmo.
    split_and!; try done; try lia; try tauto; by apply appends_refl.
  - (* Timeout *)
    simpl. split_and!; try done; [by apply appends_refl | right; left; eauto].
  - (* NullError *)
    destruct s as [lp o hm b so inf ms sms pr cl tr]; simpl in *.
    destruct hm as [| h [| ? ?]]; try discriminate.
    cbn. unfold resize_solution. rewrite !resize_0.
    split_and!; try done; [by apply appends_refl |].
    right. right. right. unfold reset_result, cleared. simpl.
    unfold resize_solution. rewrite !resize_0. split_and!; eauto; done.
  - (* OptionsError *)
    simpl. split_and!; try done; [by apply appends_refl | right; left; eauto].
Qed.


Lemma run_hot_start_spec rs s :
  rs ≠ Error -> scaled_model_status_ s = NOTSET ->
  (1 <= length (hmos_ s) <= 2)%nat ->
  run_original_post s (run_hot_start rs s).
Proof.
  intros Hrs Hst Hlen. unfold run_hot_start.
  destruct (String.eqb _ _).
  all: match goal with
  | |- context [runLpSolver _ _ (set_hmo_lp_name ?i ?n ?x)] =>
      destruct (set_hmo_lp_name_frame i n x) as (N1 & N2 & N3 & _ & N5 & _);
      set (sc := set_hmo_lp_name i n x) in *
  end.
  all: simpl in N1, N2, N3, N5; clearbody sc.
  all: match goal with |- context [runLpSolver ?i ?m ?x] =>
    assert (Hs1 : scaled_model_status_ x = NOTSET) by congruence;
    assert (Hok : solver_options_ok i m (options_ x))
      by (solve_ok; by rewrite N2);
    destruct (runLpSolver_spec i m x Hs1 Hok) as (O & L & S & A);
    destruct (runLpSolver i m x) as [cs s1] eqn:Hrun
  end.
  all: simpl in O, L, S, A; rewrite N1, !length_alter in L.
  all: assert (A' : appends is_solve s s1)
    by (destruct A as (l & E & Fl); exists l; by rewrite E, N3).
  all: case_decide as He; simpl.
  all: try (split_and!; done).
  all: match goal with |- context [beforeReturnFromRun ?st ?x] =>
      destruct (finish_error_spec st x) as (R & L' & T' & O' & _);
        [left; done | simpl; lia |]
    end.
  all: simpl in *; split_and!; try done.
  all: destruct A' as (l & E & Fl); exists l; by rewrite T', E.
Qed.

Lemma run_postsolve_spec pst solved rs s :
  rs ≠ Error -> scaled_model_status_ s = NOTSET ->
  (1 <= length (hmos_ s) <= 2)%nat ->
  ∃ x, (x ≠ None <->
        hmo_scaled_model_status_ (hmo_at solved s) = OPTIMAL ∧
        (pst = Reduced ∨ pst = ReducedToEmpty)) ∧
       run_postsolve_post s x (run_postsolve pst solved rs s).
Proof.
  intros Hrs Hst Hlen. unfold run_postsolve.
  case_decide as Hopt; [case_decide as Hred |].
  - match goal with |- context [runPostsolve ?x] =>
      assert (Hx : options_ x = options_ s ∧ trace_ x = trace_ s ∧
                   scaled_model_status_ x = NOTSET ∧
                   length (hmos_ x) = length (hmos_ s))
        by (case_decide; simpl; rewrite ?length_alter; done);
      set (sx := x) in *; clearbody sx
    end.
    destruct Hx as (X1 & X2 & X3 & X4).
    pose proof (runPostsolve_frame sx) as F. simpl in F.
    destruct F as (F1 & F2 & F3 & F4 & _ & _ & _ & _ & l & Fl & Fa).
    destruct (runPostsolve sx) as [y s1] eqn:Hpost.
    simpl in *. exists (Some y). split; [by split |].
    assert (L1 : length (hmos_ s1) = length (hmos_ s)) by congruence.
    assert (T1 : appends (post_ev (Some y)) s s1).
    { exists (l ++ [EvPostsolve y]). split.
      - by rewrite Fl, X2.
      - apply Forall_app. split; [| by repeat constructor].
        eapply Forall_impl; [exact Fa |]. intros []; simpl; done. }
    assert (S1 : scaled_model_status_ s1 = NOTSET) by congruence.
    assert (O1 : options_ s1 = options_ s) by congruence.
    clear F1 F2 F3 F4 Fl Fa Hpost.
    case_decide as Hy.
    + subst y.
      pose proof (run_hot_start_spec rs s1 Hrs S1 ltac:(lia)) as H.
      destruct (run_hot_start rs s1) as [st s2 | [rs' sv] s2]; simpl in *.
      * destruct H as (-> & R & O & L & A). split_and!; try done; try congruence.
        eapply appends_trans; [exact T1 |].
        eapply appends_mono; [| exact A]. intros []; simpl; done.
      * destruct H as (R & O & L & A). split_and!; try done; try congruence;
          try lia; [| by right].
        eapply appends_trans; [exact T1 |].
        eapply appends_mono; [| exact A]. intros []; simpl; done.
    + unfold finish.
      match goal with |- context [beforeReturnFromRun ?st ?x] =>
        destruct (finish_error_spec st x) as (R & L' & T' & O' & H0);
          [right; right; right; right; right; done
          | simpl; rewrite !length_alter; lia |]
      end.
      simpl in *. split_and!; try done; try congruence.
      * destruct T1 as (l1 & E & Fl1). exists l1. by rewrite T', E.
      * intros y' [= <-] _. unfold context0_status. rewrite H0.
        rewrite !list_lookup_alter.
        destruct (hmos_ s1) as [| h ?] eqn:Hh; [simpl in L1; lia |].
        simpl. eexists. split_and!; done.
  - exists None. split; [split; [done | tauto] |]. simpl.
    split_and!; try done; try lia; try (by left); by apply appends_refl.
  - exists None. split; [split; [done | tauto] |]. simpl.
    rewrite !length_alter.
    split_and!; try done; try lia; try (by left); by apply appends_refl.
Qed.

Lemma run_without_presolve_spec rs s :
  rs ≠ Error -> scaled_model_status_ s = NOTSET ->
  (1 <= length (hmos_ s) <= 2)%nat ->
  run_original_post s (run_without_presolve rs s).
Proof.
  intros Hrs Hst Hlen. unfold run_without_presolve.
  match goal with |- context [runLpSolver ?i ?m ?x] =>
    assert (Hx : options_ x = options_ s ∧ trace_ x = trace_ s ∧
                 scaled_model_status_ x = NOTSET ∧
                 length (hmos_ x) = length (hmos_ s));
    [| destruct Hx as (X1 & X2 & X3 & X4);
       assert (Hok : solver_options_ok i m (options_ x))
         by solve_ok;
       destruct (runLpSolver_spec i m x X3 Hok) as (O & L & S & A);
       destruct (runLpSolver i m x) as [cs s1] eqn:Hrun ]
  end.
  { destruct (set_hmo_lp_name_frame original_hmo
                "LP without presolve or with basis" s)
      as (N1 & N2 & N3 & _ & N5 & _).
    case_match; simpl; rewrite ?length_alter; split_and!; congruence. }
  simpl in O, L, S, A.
  assert (A' : appends is_solve s s1).
  { destruct A as (l & E & Fl). exists l. by rewrite E, X2. }
  case_decide as He; simpl.
  - match goal with |- context [beforeReturnFromRun ?st ?x] =>
      destruct (finish_error_spec st x) as (R & L' & T' & O' & _);
        [left; done | simpl; lia |]
    end.
    simpl in *. split_and!; try done; try congruence.
    destruct A' as (l & E & Fl). exists l. by rewrite T', E.
  - split_and!; try done; congruence.
Qed.

Lemma error_class_of_status st :
  highsStatusFromHighsModelStatus st = Error <-> error_class st.
Proof.
  unfold error_class. destruct st; simpl; split; intros H; try done;
    try tauto; repeat (destruct H as [H | H]; try done).
Qed.

Lemma beforeReturnFromRun_keeps rs s :
  length (hmos_ s) ≠ 0%nat -> ¬ error_class (scaled_model_status_ s) ->
  scaled_model_status_ (beforeReturnFromRun rs s) = scaled_model_status_ s.
Proof.
  intros Hl He. unfold beforeReturnFromRun, error_class in *.
  destruct (Nat.eqb_spec (length (hmos_ s)) 0) as [| _]; [done |].
  destruct (1 <? length (hmos_ s))%nat; simpl;
    destruct (scaled_model_status_ s) eqn:E; simpl; try done; tauto.
Qed.

Lemma run_harvest_spec solved rs s :
  rs ≠ Error -> (1 <= length (hmos_ s) <= 2)%nat ->
  let r := run_harvest solved rs s in
  trace_ r.2 = trace_ s ∧ options_ r.2 = options_ s ∧
  length (hmos_ r.2) = 1%nat ∧ (r.1 = Error -> reset_result r.2) ∧
  (r.1 ≠ Error -> ¬ error_class (scaled_model_status_ r.2)).
Proof.
  intros Hrs Hlen. unfold run_harvest, getHighsModelStatusAndInfo, haveHmo.
  destruct (Nat.ltb_spec 0 (length (hmos_ s))) as [H0 | H0]; [| lia].
  simpl.
  match goal with |- context [beforeReturnFromRun ?st ?x] =>
    destruct (beforeReturnFromRun_frame st x) as (T & O & _ & _ & L);
    destruct L as [L _]; [simpl; lia |];
    pose proof (beforeReturnFromRun_error st x) as E;
    pose proof (beforeReturnFromRun_keeps st x) as K
  end.
  simpl in *. split_and!; try done.
  - intros He. apply E. right.
    apply error_class_of_status. by eapply interpret_error_l.
  - intros Hne.
    assert (Hc : ¬ error_class (hmo_scaled_model_status_ (hmo_at solved s))).
    { rewrite <- error_class_of_status. intros Hs. apply Hne.
      rewrite Hs. by destruct rs. }
    rewrite K; [done | lia | done].
Qed.


Lemma run_with_presolve_spec s :
  scaled_model_status_ s = NOTSET -> length (hmos_ s) = 1%nat ->
  let f := run_with_presolve 1 OK s in
  let r := match f with
           | Return st s' => (st, s')
           | Continue (rs, solved) s' => run_harvest solved rs s'
           end in
  length (hmos_ r.2) = 1%nat ∧
  (options_ r.2 = options_ s ∨
   options_ r.2 = set_run_crossover true (options_ s)) ∧
  ∃ l0 pst l1 x,
    trace_ r.2 = trace_ s ++ l0 ++ EvPresolve pst :: l1 ∧
    Forall (fun e => e = EvNegateReducedLpCost ∧ pst = Reduced) l0 ∧
    Forall (post_ev x) l1 ∧ presolve_outcome pst x l1 r.
Proof.
  intros Hst Hlen. unfold run_with_presolve.
  match goal with |- context [runPresolve ?x] =>
    assert (Hx : (options_ x = options_ s ∨
                  options_ x = set_run_crossover true (options_ s)) ∧
                 trace_ x = trace_ s ∧ scaled_model_status_ x = NOTSET ∧
                 length (hmos_ x) = 1%nat)
      by (case_match; simpl; rewrite ?length_alter; split_and!; auto);
    set (sx := x) in *; clearbody sx
  end.
  destruct Hx as (X1 & X2 & X3 & X4).
  pose proof (runPresolve_frame sx) as F. simpl in F.
  destruct F as (F1 & F2 & _ & F4 & _ & _ & _ & _ & l0 & Fl & Fa).
  destruct (runPresolve sx) as [pst s1] eqn:Hpre. simpl in *.
  assert (S1 : scaled_model_status_ s1 = NOTSET) by congruence.
  assert (L1 : length (hmos_ s1) = 1%nat) by congruence.
  assert (O1 : options_ s1 = options_ s ∨
               options_ s1 = set_run_crossover true (options_ s))
    by (rewrite F2; exact X1).
  rewrite X2 in Fl. clear F1 F2 F4 X1 X2 X3 X4 Hpre.
  pose proof (run_solve_spec pst OK s1 ltac:(done) S1 L1) as Hsolve.
  destruct (run_solve pst 1 OK s1) as [st s2 | [rs solved] s2]; simpl in *.
  - destruct Hsolve as (O2 & L2 & (l1 & T2 & A2) & Hcase).
    split_and!; [done | by rewrite O2 |].
    exists l0, pst, l1, None. split_and!.
    + by rewrite T2, Fl, <- !app_assoc.
    + done.
    + eapply Forall_impl; [exact A2 |]. intros []; simpl; done.
    + assert (Hnil : trace_ s2 = trace_ s1 -> l1 = []).
      { rewrite T2. intros E. apply (f_equal length) in E.
        rewrite length_app in E. destruct l1; [done | simpl in E; lia]. }
      assert (Hdet : pst = Infeasible ∨ pst = Unbounded ->
                     ¬ error_class (detected_status pst)).
      { unfold error_class, detected_status.
        intros [-> | ->]; simpl; intuition congruence. }
      unfold presolve_outcome; simpl.
      destruct Hcase as [H | [H | [H | H]]]; destruct_and!; subst;
        split_and!; try done;
        try (intros [? | ?]; subst; split_and!; auto; intuition congruence).
      all: try (intros _; auto).
      left. rewrite H3. auto.
  - destruct Hsolve as (R2 & O2 & A2 & S2 & Hp & L2).
    destruct (run_postsolve_spec pst solved rs s2 R2 S2 ltac:(lia))
      as (x & Hx & Hpost).
    destruct (run_postsolve pst solved rs s2) as [st s3 | [rs' solved'] s3];
      simpl in *.
    + destruct Hpost as (-> & R3 & O3 & L3 & A3 & X3 & H3).
      split_and!; [done | congruence |].
      destruct A2 as (l1 & T2 & Fl1). destruct A3 as (l2 & T3 & Fl2).
      exists l0, pst, (l1 ++ l2), x. split_and!.
      * by rewrite T3, T2, Fl, <- !app_assoc.
      * done.
      * apply Forall_app. split; [| done].
        eapply Forall_impl; [exact Fl1 |]. intros []; simpl; done.
      * unfold presolve_outcome; simpl.
        split_and!; try (intros [? | ?]; subst; intuition congruence).
        -- tauto.
        -- intros y Ey Ny. split; [done | by eapply H3].
        -- intros _. by left.
        -- done.
    + destruct Hpost as (R3 & O3 & L3 & A3 & X3).
      destruct (run_harvest_spec solved' rs' s3 R3 L3)
        as (T4 & O4 & L4 & E4 & E5).
      split_and!; [done | congruence |].
      destruct A2 as (l1 & T2 & Fl1). destruct A3 as (l2 & T3 & Fl2).
      exists l0, pst, (l1 ++ l2), x. split_and!.
      * by rewrite T4, T3, T2, Fl, <- !app_assoc.
      * done.
      * apply Forall_app. split; [| done].
        eapply Forall_impl; [exact Fl1 |]. intros []; simpl; done.
      * unfold presolve_outcome; simpl.
        split_and!; try (intros [? | ?]; subst; intuition congruence).
        -- tauto.
        -- intros y Ey Ny. destruct X3; congruence.
        -- intros He. left. by apply E4.
        -- intros Hne. left. by apply E5.
Qed.

Lemma run_spec s :
  length (hmos_ s) = 1%nat -> numCol_ (lp_ s) ≠ 0%nat ->
  let r := run s in
  length (hmos_ r.2) = 1%nat ∧
  (options_ r.2 = pipeline_options s ∨
   options_ r.2 = set_run_crossover true (pipeline_options s)) ∧
  ((∃ l, trace_ r.2 = trace_ s ++ run_entry s :: l ∧ Forall is_solve l ∧
         (r.1 = Error -> reset_result r.2) ∧
         (r.1 ≠ Error -> ¬ error_class (scaled_model_status_ r.2)))
   ∨ (∃ l0 pst l1 x,
        trace_ r.2 = trace_ s ++ run_entry s :: l0 ++ EvPresolve pst :: l1 ∧
        Forall (fun e => e = EvNegateReducedLpCost ∧ pst = Reduced) l0 ∧
        Forall (post_ev x) l1 ∧ presolve_outcome pst x l1 r)).
Proof.
  intros Hlen Hcol. unfold run, run_load.
  match goal with |- context [if (length (hmos_ ?x) =? 0)%nat then _ else _] =>
    assert (Hx : options_ x = pipeline_options s ∧
                 trace_ x = trace_ s ++ [run_entry s] ∧
                 length (hmos_ x) = 1%nat ∧ lp_ x = lp_ s)
      by (unfold pipeline_options, run_entry; simpl; case_match; simpl;
          split_and!; done);
    set (sx := x) in *; clearbody sx
  end.
  destruct Hx as (X1 & X2 & X3 & X4).
  rewrite X3. simpl.
  match goal with |- context [run_with_presolve _ _ ?x] =>
    assert (Hy : options_ x = pipeline_options s ∧
                 trace_ x = trace_ s ++ [run_entry s] ∧
                 length (hmos_ x) = 1%nat ∧ lp_ x = lp_ s ∧
                 scaled_model_status_ x = NOTSET);
    [| set (sy := x) in *; clearbody sy ]
  end.
  { destruct sx as [lp o hm b so inf ms sms pr cl tr]; simpl in *.
    destruct hm as [| h [| ? ?]]; try discriminate. by simpl. }
  destruct Hy as (Y1 & Y2 & Y3 & Y4 & Y5).
  rewrite X4. destruct (Nat.eqb_spec (numCol_ (lp_ s)) 0) as [| _]; [done |].
  rewrite !length_alter, X3.
  destruct (negb (valid_ (basis_ sx)) && _).
  - pose proof (run_with_presolve_spec sy Y5 Y3) as H. simpl in H.
    destruct H as (L & O & l0 & pst & l1 & x & T & F0 & F1 & Hout).
    split_and!; [done | by rewrite <- Y1 |].
    right. exists l0, pst, l1, x. split_and!; try done.
    by rewrite T, Y2, <- app_assoc.
  - pose proof (run_without_presolve_spec OK sy ltac:(done) Y5 ltac:(lia)) as H.
    destruct (run_without_presolve OK sy) as [st s1 | [rs solved] s1];
      simpl in *.
    + destruct H as (-> & R & O & L & l & T & Fl).
      split_and!; [done | left; congruence |].
      left. exists l. split_and!; try done.
      by rewrite T, Y2, <- app_assoc.
    + destruct H as (R & O & L & l & T & Fl).
      destruct (run_harvest_spec solved rs s1 R ltac:(lia))
        as (T4 & O4 & L4 & E4 & E5).
      split_and!; [done | left; congruence |].
      left. exists l. split_and!; try done.
      by rewrite T4, T, Y2, <- app_assoc.
Qed.


Lemma run_no_columns s :
  length (hmos_ s) = 1%nat -> numCol_ (lp_ s) = 0%nat ->
  let r := run s in
  r.1 = OK ∧ model_status_ r.2 = MODEL_EMPTY ∧
  scaled_model_status_ r.2 = MODEL_EMPTY ∧ context0_status MODEL_EMPTY r.2 ∧
  solution_ r.2 = empty_solution ∧ basis_ r.2 = empty_basis ∧
  trace_ r.2 = trace_ s ++ [run_entry s] ∧
  length (hmos_ r.2) = 1%nat ∧ options_ r.2 = pipeline_options s.
Proof.
  intros Hlen Hcol. unfold run, run_load, pipeline_options, run_entry.
  destruct s as [lp o hm b so inf ms sms pr cl tr]; simpl in *.
  destruct hm as [| h [| ? ?]]; try discriminate.
  destruct (run_as_hsol o); simpl; rewrite Hcol; simpl;
    unfold resize_solution; rewrite !resize_0;
    split_and!; try done; eexists; split_and!; done.
Qed.



(** C4. For every loaded model with zero columns, [run] returns OK with
    model status model-empty (unscaled and scaled) at once: the log gains
    the entry of the run and nothing else, so neither presolve nor a
    solver is invoked, and the caller-visible Solution and Basis are empty
    on return. *)
Theorem run_on_model_without_columns s :
  length (hmos_ s) = 1%nat -> numCol_ (lp_ s) = 0%nat ->
  (run s).1 = OK ∧
  model_status_ (run s).2 = MODEL_EMPTY ∧
  scaled_model_status_ (run s).2 = MODEL_EMPTY ∧
  solution_ (run s).2 = empty_solution ∧
  basis_ (run s).2 = empty_basis ∧
  trace_ (run s).2 = trace_ s ++ [run_entry s].
Proof.
  intros Hlen Hcol.
  destruct (run_no_columns s Hlen Hcol) as (? & ? & ? & ? & ? & ? & ? & ? & ?).
  by split_and!.
Qed.

Lemma presolve_event_inv s st :
  length (hmos_ s) = 1%nat -> trace_ s = [] ->
  EvPresolve st ∈ trace_ (run s).2 ->
  numCol_ (lp_ s) ≠ 0%nat ∧
  ∃ l0 l1 x,
    trace_ (run s).2 = run_entry s :: l0 ++ EvPresolve st :: l1 ∧
    Forall (fun e => e = EvNegateReducedLpCost ∧ st = Reduced) l0 ∧
    Forall (post_ev x) l1 ∧ presolve_outcome st x l1 (run s).
Proof.
  intros Hlen Ht Hin.
  destruct (decide (numCol_ (lp_ s) = 0%nat)) as [Hcol | Hcol].
  { destruct (run_no_columns s Hlen Hcol) as (_ & _ & _ & _ & _ & _ & T & _).
    rewrite T, Ht in Hin. simpl in Hin.
    apply list_elem_of_singleton in Hin. discriminate. }
  split; [done |].
  destruct (run_spec s Hlen Hcol) as (_ & _ & H).
  destruct H as [(l & T & Fl & _ & _) | (l0 & pst & l1 & x & T & F0 & F1 & Ho)];
    rewrite Ht in T; simpl in T; rewrite T in Hin.
  - apply elem_of_cons in Hin as [Hin | Hin]; [discriminate |].
    rewrite Forall_forall in Fl. by apply Fl in Hin.
  - apply elem_of_cons in Hin as [Hin | Hin]; [discriminate |].
    apply elem_of_app in Hin as [Hin | Hin].
    { rewrite Forall_forall in F0. apply F0 in Hin as [? _]. discriminate. }
    apply elem_of_cons in Hin as [Hin | Hin].
    + injection Hin as ->. exists l0, l1, x. by split_and!.
    + rewrite Forall_forall in F1. by apply F1 in Hin.
Qed.

(** C1. If presolve reports infeasible or unbounded, [run] adopts the
    detected status (primal-infeasible or primal-unbounded) as both the
    unscaled and the scaled model status, of the result and of context 0,
    invokes no solve stage and no postsolve stage (the log of the run is
    its entry and the presolve result), leaves the caller-visible
    Solution empty and returns OK. *)
Theorem run_when_presolve_detects_status s st :
  length (hmos_ s) = 1%nat -> trace_ s = [] ->
  EvPresolve st ∈ trace_ (run s).2 ->
  st = Infeasible ∨ st = Unbounded ->
  (run s).1 = OK ∧
  model_status_ (run s).2 = detected_status st ∧
  scaled_model_status_ (run s).2 = detected_status st ∧
  context0_status (detected_status st) (run s).2 ∧
  solution_ (run s).2 = empty_solution ∧
  trace_ (run s).2 = [run_entry s; EvPresolve st].
Proof.
  intros Hlen Ht Hin Hst.
  destruct (presolve_event_inv s st Hlen Ht Hin)
    as (_ & l0 & l1 & x & T & F0 & F1 & Ho & _).
  destruct (Ho Hst) as (-> & ? & ? & ? & ? & ?).
  split_and!; try done.
  destruct l0 as [| e l0]; [done |].
  apply Forall_cons in F0 as [[_ ->] _]. by destruct Hst.
Qed.


(** C2, as amended. An error-class status maps to the aggregate code
    Error; the finalizer, reached with a scaled status in the error class
    (not-set, load, model, presolve, solve or postsolve error), clears
    Solution, Basis and Info; a presolve timeout or options error marks
    presolve-error as the unscaled status and returns Warning; whenever
    [run] returns Error, Solution, Basis and Info are cleared, unless
    [run] stopped right after presolve reported reduced and before any
    solve (the exit taken when cleaning the bounds of the reduced LP
    fails); and [run] returns Error whenever it ends with a scaled status
    in the error class, unless presolve reported a timeout or an options
    error. *)
Theorem run_error_class_finalisation s :
  length (hmos_ s) = 1%nat -> trace_ s = [] ->
  (forall st, error_class st -> highsStatusFromHighsModelStatus st = Error) ∧
  (forall rs s0, error_class (scaled_model_status_ s0) ->
                 cleared (beforeReturnFromRun rs s0)) ∧
  (forall pst, EvPresolve pst ∈ trace_ (run s).2 ->
               pst = Timeout ∨ pst = OptionsError ->
               (run s).1 = Warning ∧ model_status_ (run s).2 = PRESOLVE_ERROR) ∧
  ((run s).1 = Error ->
   cleared (run s).2 ∨
   (EvPresolve Reduced ∈ trace_ (run s).2 ∧
    forall i m o, EvSolveLp i m o ∉ trace_ (run s).2)) ∧
  (error_class (scaled_model_status_ (run s).2) ->
   (run s).1 = Error ∨
   ∃ pst, EvPresolve pst ∈ trace_ (run s).2 ∧
          (pst = Timeout ∨ pst = OptionsError)).
Proof.
  intros Hlen Ht. split_and!.
  - intros st. apply error_class_of_status.
  - intros rs s0 He. apply beforeReturnFromRun_error. by right.
  - intros pst Hin Hp.
    destruct (presolve_event_inv s pst Hlen Ht Hin)
      as (_ & l0 & l1 & x & T & F0 & F1 & _ & Ho & _).
    destruct (Ho Hp) as (_ & ? & ?). done.
  - intros He.
    destruct (decide (numCol_ (lp_ s) = 0%nat)) as [Hcol | Hcol].
    { destruct (run_no_columns s Hlen Hcol) as (E & _). congruence. }
    destruct (run_spec s Hlen Hcol) as (_ & _ & H).
    destruct H as [(l & T & Fl & R & _) | (l0 & pst & l1 & x & T & F0 & F1 & Ho)].
    + left. by apply R.
    + destruct Ho as (_ & _ & _ & _ & R & _).
      destruct (R He) as [R' | [-> ->]]; [left; apply R' |].
      right. rewrite T, Ht. simpl. split.
      * apply list_elem_of_further, elem_of_app. right. by left.
      * intros i m o Hin.
        apply elem_of_cons in Hin as [Hin | Hin]; [discriminate |].
        apply elem_of_app in Hin as [Hin | Hin].
        -- rewrite Forall_forall in F0. apply F0 in Hin as [? _]. discriminate.
        -- apply list_elem_of_singleton in Hin. discriminate.
  - intros He.
    destruct (decide ((run s).1 = Error)) as [Hr | Hr]; [by left |].
    destruct (decide (numCol_ (lp_ s) = 0%nat)) as [Hcol | Hcol].
    { destruct (run_no_columns s Hlen Hcol) as (_ & _ & E & _).
      rewrite E in He. by destruct He as [? | [? | [? | [? | [? | ?]]]]]. }
    destruct (run_spec s Hlen Hcol) as (_ & _ & H).
    destruct H as [(l & T & Fl & _ & N) | (l0 & pst & l1 & x & T & F0 & F1 & Ho)].
    + by destruct (N Hr).
    + destruct Ho as (_ & _ & _ & _ & _ & N).
      destruct (N Hr) as [N' | N']; [done |].
      right. exists pst. split; [| done].
      rewrite T. apply elem_of_app. right.
      apply list_elem_of_further, elem_of_app. right. by left.
Qed.

(** Postsolve in [run]: the conditions under which it is invoked, and the
    object on return after any outcome other than solution-recovered:
    context 0 carries postsolve-error, and [clearSolver], called by the
    finalizer, has cleared Solution, Basis and Info and has reset the
    statuses of the result. *)
Lemma postsolve_gate_and_failure s :
  length (hmos_ s) = 1%nat -> trace_ s = [] ->
  (forall pst solved rs s0 y,
     trace_ s0 = [] ->
     EvPostsolve y ∈ trace_ (flow_state (run_postsolve pst solved rs s0)) ->
     hmo_scaled_model_status_ (hmo_at solved s0) = OPTIMAL ∧
     (pst = Reduced ∨ pst = ReducedToEmpty)) ∧
  (forall y, EvPostsolve y ∈ trace_ (run s).2 ->
     EvPresolve Reduced ∈ trace_ (run s).2 ∨
     EvPresolve ReducedToEmpty ∈ trace_ (run s).2) ∧
  (forall y, EvPostsolve y ∈ trace_ (run s).2 -> y ≠ SolutionRecovered ->
     (run s).1 = Error ∧ context0_status POSTSOLVE_ERROR (run s).2 ∧
     model_status_ (run s).2 = NOTSET ∧
     scaled_model_status_ (run s).2 = NOTSET ∧ cleared (run s).2).
Proof.
  intros Hlen Ht.
  assert (Hinv : forall y, EvPostsolve y ∈ trace_ (run s).2 ->
    ∃ l0 pst l1,
      trace_ (run s).2 = run_entry s :: l0 ++ EvPresolve pst :: l1 ∧
      EvPostsolve y ∈ l1 ∧ presolve_outcome pst (Some y) l1 (run s)).
  { intros y Hin.
    destruct (decide (numCol_ (lp_ s) = 0%nat)) as [Hcol | Hcol].
    { destruct (run_no_columns s Hlen Hcol) as (_ & _ & _ & _ & _ & _ & T & _).
      rewrite T, Ht in Hin. simpl in Hin.
      apply list_elem_of_singleton in Hin. discriminate. }
    destruct (run_spec s Hlen Hcol) as (_ & _ & H).
    destruct H as [(l & T & Fl & _ & _) | (l0 & pst & l1 & x & T & F0 & F1 & Ho)];
      rewrite Ht in T; simpl in T; rewrite T in Hin.
    - apply elem_of_cons in Hin as [Hin | Hin]; [discriminate |].
      rewrite Forall_forall in Fl. by apply Fl in Hin.
    - apply elem_of_cons in Hin as [Hin | Hin]; [discriminate |].
      apply elem_of_app in Hin as [Hin | Hin].
      { rewrite Forall_forall in F0. apply F0 in Hin as [? _]. discriminate. }
      apply elem_of_cons in Hin as [Hin | Hin]; [discriminate |].
      rewrite Forall_forall in F1. pose proof (F1 _ Hin) as Hx. simpl in Hx.
      subst x. exists l0, pst, l1. by split_and!. }
  split_and!.
  - intros pst solved rs s0 y Ht0. unfold run_postsolve.
    case_decide as Hopt; [case_decide as Hred |]; [done | |]; simpl;
      rewrite Ht0; intros Hin; by apply elem_of_nil in Hin.
  - intros y Hin. destruct (Hinv y Hin) as (l0 & pst & l1 & T & _ & Ho).
    destruct Ho as (_ & _ & Hp & _).
    rewrite T.
    destruct Hp as [-> | ->]; [done | left | right];
      apply list_elem_of_further, elem_of_app; right; by left.
  - intros y Hin Hy. destruct (Hinv y Hin) as (l0 & pst & l1 & T & Hl1 & Ho).
    destruct Ho as (_ & _ & _ & Hfail & Herr & _).
    destruct (Hfail y eq_refl Hy) as (He & H0).
    destruct (Herr He) as [(Hc & ? & ?) | [_ ->]]; [done |].
    by apply elem_of_nil in Hl1.
Qed.

(** X21. Postsolve is invoked only when the last-solved context reports
    scaled status optimal and presolve reduced the problem (reduced or
    reduced-to-empty).  After any postsolve outcome other than
    solution-recovered [run] returns Error, context 0 carries
    postsolve-error as both its scaled and its unscaled status, and
    Solution, Basis and Info are cleared. *)
Theorem postsolve_gate s :
  length (hmos_ s) = 1%nat -> trace_ s = [] ->
  (forall pst solved rs s0 y,
     trace_ s0 = [] ->
     EvPostsolve y ∈ trace_ (flow_state (run_postsolve pst solved rs s0)) ->
     hmo_scaled_model_status_ (hmo_at solved s0) = OPTIMAL ∧
     (pst = Reduced ∨ pst = ReducedToEmpty)) ∧
  (forall y, EvPostsolve y ∈ trace_ (run s).2 ->
     EvPresolve Reduced ∈ trace_ (run s).2 ∨
     EvPresolve ReducedToEmpty ∈ trace_ (run s).2) ∧
  (forall y, EvPostsolve y ∈ trace_ (run s).2 -> y ≠ SolutionRecovered ->
     (run s).1 = Error ∧ context0_status POSTSOLVE_ERROR (run s).2 ∧
     cleared (run s).2).
Proof.
  intros Hlen Ht.
  destruct (postsolve_gate_and_failure s Hlen Ht) as (G1 & G2 & G3).
  split_and!; [exact G1 | exact G2 |].
  intros y Hy Hn. destruct (G3 y Hy Hn) as (R1 & R2 & _ & _ & R5).
  by split_and!.
Qed.











Lemma edit_cases op :
  (resizes op = true ∧ edit op = edit_and_update op) ∨
  (resizes op = false ∧ edit op = edit_only op).
Proof. destruct op; simpl; auto. Qed.

Lemma interface_call_frame op s :
  let r := interface_call op s in
  solution_ r.2 = solution_ s ∧ basis_ r.2 = basis_ s ∧
  length (hmos_ r.2) = length (hmos_ s).
Proof.
  unfold interface_call, set_lp_of.
  destruct (interface_edit _ _ _ _) as [[cs lp] h'].
  destruct (hmo_lp_ _); simpl; by rewrite length_alter.
Qed.

Lemma updateHighsSolutionBasis_spec s :
  hmos_ s ≠ [] ->
  (updateHighsSolutionBasis s).1 = true ∧
  resynchronised (updateHighsSolutionBasis s).2.
Proof.
  intros Hne. unfold updateHighsSolutionBasis, haveHmo, resynchronised.
  destruct s as [lp o hm b so inf ms sms pr cl tr]; simpl in *.
  destruct hm as [| h hm]; [done |]. simpl.
  destruct (valid_ (hmo_basis_ h)) eqn:Hv; simpl; rewrite ?Hv, !length_resize;
    by split_and!.
Qed.

(** C9. Every mutating operation of the editor returns false and changes
    nothing when there is no solve context; returns false with the
    caller-visible Solution and Basis untouched when the structural-edit
    interface reports an error; and, for adding or deleting rows or
    columns, on success returns true with the Solution resized to the
    dimensions of the edited model and the Basis adopted from context 0 if
    that reports a valid basis, and otherwise marked invalid and resized to
    those dimensions. *)
Theorem editor_operation op s :
  (hmos_ s = [] -> edit op s = (false, s)) ∧
  (hmos_ s ≠ [] -> (interface_call op s).1 = Error ->
   (edit op s).1 = false ∧
   solution_ (edit op s).2 = solution_ s ∧ basis_ (edit op s).2 = basis_ s) ∧
  (hmos_ s ≠ [] -> (interface_call op s).1 ≠ Error -> resizes op = true ->
   (edit op s).1 = true ∧ resynchronised (edit op s).2).
Proof.
  assert (Hhave : hmos_ s ≠ [] -> haveHmo s = true).
  { unfold haveHmo. destruct (hmos_ s); [done | by intros _]. }
  assert (Herr : forall cs, interpretCallStatus cs OK = Error <-> cs = Error)
    by (intros []; simpl; intuition congruence).
  split_and!.
  - intros He.
    destruct (edit_cases op) as [[_ ->] | [_ ->]];
      unfold edit_and_update, edit_only, haveHmo; by rewrite He.
  - intros Hne Hfail.
    destruct (interface_call_frame op s) as (Hs & Hb & _).
    destruct (edit_cases op) as [[_ ->] | [_ ->]];
      unfold edit_and_update, edit_only; rewrite Hhave by done; simpl;
      destruct (interface_call op s) as [cs s1]; simpl in *; subst cs;
      simpl; done.
  - intros Hne Hok Hres.
    destruct (edit_cases op) as [[_ ->] | [E _]]; [| congruence].
    destruct (interface_call_frame op s) as (_ & _ & Hl).
    unfold edit_and_update. rewrite Hhave by done. simpl.
    destruct (interface_call op s) as [cs s1]; simpl in *.
    rewrite decide_False by (by rewrite Herr).
    assert (Hne1 : hmos_ s1 ≠ []).
    { destruct (hmos_ s1), (hmos_ s); simpl in *; done. }
    destruct (updateHighsSolutionBasis_spec s1 Hne1) as (Hu & Hr).
    destruct (updateHighsSolutionBasis s1) as [u s2]; simpl in *. subst u.
    simpl. split; [| done].
    apply bool_decide_eq_true. by rewrite Herr.
Qed.

(** C10. [writeSolution] never returns OK and never writes the solution:
    it returns Error exactly when the file name is not empty and the file
    cannot be opened for writing, leaving the outside world as it was, and
    otherwise returns Warning, having at most created or truncated the
    named file, which is left empty, and sent one warning line to standard
    output; the object, and with it the stored solution, basis and LP, is
    unchanged.  The file opened is the one named by the characters of the
    file name before its first NUL. *)
Theorem writeSolution_outcome filename pretty s w :
  let r := writeSolution filename pretty s w in
  r.1.1 ≠ OK ∧ r.1.2 = s ∧
  (r.1.1 = Error <->
   filename ≠ EmptyString ∧ fopen_w (c_str filename) = false) ∧
  (r.1.1 = Error -> r.2 = w) ∧
  (r.1.1 ≠ Error ->
   r.1.1 = Warning ∧
   stdout_ r.2 = stdout_ w ++ ["warning: Feature under development"%string] ∧
   files_ r.2 = if decide (filename = EmptyString) then files_ w
                else <[c_str filename := EmptyString]> (files_ w)).
Proof.
  unfold writeSolution, openWriteFile. simpl.
  destruct (String.eqb_spec filename EmptyString) as [-> | Hne]; simpl.
  - split_and!; try done. intuition congruence.
  - destruct (fopen_w (c_str filename)) eqn:Hopen; simpl.
    + rewrite decide_False by done.
      split_and!; try done. intuition congruence.
    + split_and!; try done.
Qed.

End Theory.

(** ** Proofs of the further statements *)

Section QueryTheory.
Context `{C : Collaborators} `{Ar : !Arithmetic} `{Sv : !Services}.

Lemma at_lookup {A} (d : A) v (i : nat) x :
  v !! i = Some x -> at_ d v (Z.of_nat i) = x.
Proof.
  intros H. unfold at_. destruct (Z.ltb_spec (Z.of_nat i) 0) as [|_]; [lia |].
  by rewrite Nat2Z.id, H.
Qed.

Lemma getBasicVariables_loop (bi : list Z) (numCol : Z) n bv :
  let f := fun (basic_variables : list Z) (row : nat) =>
             let var := at_ 0 bi (Z.of_nat row) in
             if (var <? numCol)%Z
             then <[row := var]> basic_variables
             else <[row := (- (1 + var - numCol))%Z]> basic_variables in
  let r := foldl f bv (seq 0 n) in
  length r = length bv ∧
  forall row,
    r !! row =
    if decide (row < n)%nat
    then (fun _ => let var := at_ 0 bi (Z.of_nat row) in
                   if (var <? numCol)%Z then var else (- (1 + var - numCol))%Z)
           <$> bv !! row
    else bv !! row.
Proof.
  intros f. induction n as [| n IH].
  - split; [done |]. intros row. rewrite decide_False by lia. done.
  - rewrite seq_S, foldl_snoc. change (0 + n)%nat with n. cbv zeta in IH. destruct IH as [IHl IH].
    set (r := foldl f bv (seq 0 n)) in *. cbv zeta.
    assert (Hl : length (f r n) = length bv).
    { unfold f. case_match; by rewrite length_insert. }
    split; [done |]. intros row.
    destruct (decide (row = n)) as [-> | Hne].
    + rewrite decide_True by lia.
      destruct (bv !! n) as [x |] eqn:Hx.
      * assert (n < length r)%nat
          by (rewrite IHl; by eapply lookup_lt_Some).
        unfold f. simpl. destruct (_ <? _)%Z; by rewrite list_lookup_insert_eq.
      * assert (length (f r n) <= n)%nat
          by (rewrite Hl; by apply lookup_ge_None_1).
        simpl. by apply lookup_ge_None_2.
    + assert (E : f r n !! row = r !! row).
      { unfold f. case_match; by rewrite list_lookup_insert_ne. }
      rewrite E, IH. repeat case_decide; try lia; done.
Qed.


Lemma hmos_nonempty (s : Highs) :
  (length (hmos_ s) =? 0)%nat = false <-> hmos_ s ≠ [].
Proof. destruct (hmos_ s); simpl; split; done. Qed.

(** X1. [getBasicVariables] returns OK exactly when there is a context
    whose simplex data holds a basis and whose simplex LP has as many rows
    as its LP, and Error with the array untouched otherwise.  On OK the
    array keeps its length and its entries from [numRow] on, and for every
    row the entry written encodes the basic variable of the row: a
    non-negative entry is the variable itself, a column; a negative entry
    [v] stands for the row [- v - 1], the variable being [numCol] plus that
    row. *)
Theorem getBasicVariables_codes bv s :
  let h := hmo_at 0 s in
  let numRow := numRow_ (hmo0_lp s) in
  let numCol := Z.of_nat (numCol_ (hmo0_lp s)) in
  let r := getBasicVariables bv s in
  (r.1 = OK <->
   hmos_ s ≠ [] ∧ has_basis (simplex_ h) = true ∧
   numRow = simplex_lp_numRow_ (simplex_ h)) ∧
  (r.1 ≠ OK -> r = (Error, bv)) ∧
  (r.1 = OK ->
   length r.2 = length bv ∧
   (forall row, (numRow <= row)%nat -> r.2 !! row = bv !! row) ∧
   (forall row var,
      (row < numRow)%nat -> (row < length bv)%nat ->
      basicIndex_ (simplex_ h) !! row = Some var -> 0 <= var ->
      ∃ v, r.2 !! row = Some v ∧
           (0 <= v <-> var < numCol) ∧
           (0 <= v -> v = var) ∧
           (v < 0 -> var = numCol + (- v - 1)))).
Proof.
  cbv zeta. unfold getBasicVariables.
  destruct (length (hmos_ s) =? 0)%nat eqn:Hh.
  { simpl. apply Nat.eqb_eq in Hh.
    split_and!; try done. split; [done |].
    intros (Hne & _). destruct (hmos_ s); done. }
  apply hmos_nonempty in Hh.
  destruct (has_basis _) eqn:Hb; simpl;
    [| split_and!; try done; split; [done | intros (_ & ? & _); done]].
  destruct (Nat.eqb_spec (numRow_ (hmo0_lp s))
              (simplex_lp_numRow_ (simplex_ (hmo_at 0 s)))) as [Hn | Hn]; simpl;
    [| split_and!; try done; split; [done | intros (_ & _ & ?); done]].
  pose proof (getBasicVariables_loop (basicIndex_ (simplex_ (hmo_at 0 s)))
                (Z.of_nat (numCol_ (hmo0_lp s))) (numRow_ (hmo0_lp s)) bv)
    as L.
  cbv zeta in L. destruct L as [Ll L].
  split_and!; try done.
  intros _. split_and!; [done | |].
  - intros row Hrow. rewrite L. by rewrite decide_False by lia.
  - intros row var Hrow Hlen Hvar Hpos. rewrite L.
    rewrite decide_True by done.
    destruct (lookup_lt_is_Some_2 bv row Hlen) as [x ->]. simpl.
    rewrite (at_lookup 0 _ row var Hvar).
    eexists. split; [done |].
    destruct (Z.ltb_spec var (Z.of_nat (numCol_ (hmo0_lp s)))); lia.
Qed.


Lemma length_put_ {A} (j : Z) (x : A) v : length (put_ j x v) = length v.
Proof. unfold put_. case_match; [done | by rewrite length_insert]. Qed.

Lemma lookup_put_ {A} (j : Z) (x : A) v (i : nat) :
  put_ j x v !! i =
  if decide (j = Z.of_nat i ∧ (i < length v)%nat) then Some x else v !! i.
Proof.
  unfold put_. destruct (Z.ltb_spec j 0) as [Hj | Hj].
  - rewrite decide_False by lia. done.
  - destruct (decide (Z.to_nat j = i)) as [<- | Hne].
    + case_decide as Hd.
      * by rewrite list_lookup_insert_eq by lia.
      * by rewrite list_insert_ge by lia.
    + rewrite list_lookup_insert_ne by done.
      rewrite decide_False by lia. done.
Qed.

Lemma copy_rhs_lookup n (X : list double) row :
  copy_rhs n X !! row =
  if decide (row < n)%nat then Some (at_ d_zero X (Z.of_nat row)) else None.
Proof.
  unfold copy_rhs.
  assert (G : forall k, (k <= n)%nat ->
    let r := foldl (fun rhs row => <[row := at_ d_zero X (Z.of_nat row)]> rhs)
               (replicate n d_zero) (seq 0 k) in
    length r = n ∧
    forall row, r !! row =
      if decide (row < k)%nat then Some (at_ d_zero X (Z.of_nat row))
      else replicate n d_zero !! row).
  { induction k as [| k IH]; intros Hk.
    - split; [apply length_replicate | done].
    - rewrite seq_S, foldl_snoc. change (0 + k)%nat with k. cbv zeta.
      destruct (IH ltac:(lia)) as [Il I]. rewrite length_insert.
      split; [done |]. intros row0.
      destruct (decide (row0 = k)) as [-> | Hne].
      + rewrite list_lookup_insert_eq by lia. by rewrite decide_True by lia.
      + rewrite list_lookup_insert_ne by done. rewrite I.
        repeat case_decide; try lia; done. }
  destruct (G n ltac:(lia)) as [_ G']. rewrite G'.
  case_decide; [done |]. apply lookup_replicate_None. lia.
Qed.

(** X2. A row of the basis inverse is the transposed solve of a unit
    vector, and a column the plain solve: for an index [i] of a row and any
    array [e] that holds 1 at [i] and 0 at the other rows,
    [getBasisInverseRow i] is [getBasisTransposeSolve e] and
    [getBasisInverseCol i] is [getBasisSolve e], in status, output and
    state. *)
Theorem getBasisInverse_as_solve i e out s :
  0 <= i < Z.of_nat (numRow_ (hmo0_lp s)) ->
  (forall k, (k < numRow_ (hmo0_lp s))%nat ->
             e !! k = Some (if decide (Z.of_nat k = i) then d_one else d_zero)) ->
  getBasisInverseRow i out s = getBasisTransposeSolve e out s ∧
  getBasisInverseCol i out s = getBasisSolve e out s.
Proof.
  intros Hi He.
  assert (E : copy_rhs (numRow_ (hmo0_lp s)) e
              = unit_rhs (numRow_ (hmo0_lp s)) i).
  { apply list_eq. intros k. rewrite copy_rhs_lookup. unfold unit_rhs.
    rewrite lookup_put_, length_replicate.
    destruct (decide (k < numRow_ (hmo0_lp s))%nat) as [Hk | Hk].
    - rewrite (at_lookup _ _ _ _ (He k Hk)).
      rewrite lookup_replicate_2 by done.
      repeat case_decide; try lia; done.
    - rewrite decide_False by lia. symmetry. apply lookup_replicate_None. lia. }
  unfold getBasisInverseRow, getBasisInverseCol, getBasisTransposeSolve,
    getBasisSolve.
  destruct (length (hmos_ s) =? 0)%nat; [done |].
  destruct (Z.ltb_spec i 0) as [| _]; [lia |].
  destruct (Z.leb_spec (Z.of_nat (numRow_ (hmo0_lp s))) i) as [| _]; [lia |].
  simpl. destruct (negb _); [done |]. by rewrite E.
Qed.

(** X3. Bounds and readiness of the six basis queries.  Each returns OK or
    Error, and Error with the output arguments and the object untouched
    exactly when there is no context, the simplex data of context 0 has no
    invertible representation, or the index is out of range: a row index
    in [[0, numRow)] for [getBasisInverseRow] and [getReducedRow], a column
    index in [[0, numCol)] for [getReducedColumn], and, the basis matrix
    being square, an index in [[0, numRow)] for [getBasisInverseCol]. *)
Theorem basis_queries_errors i X out s :
  let n := Z.of_nat (numRow_ (hmo0_lp s)) in
  let m := Z.of_nat (numCol_ (hmo0_lp s)) in
  let ready := hmos_ s ≠ [] ∧ has_invert (simplex_ (hmo_at 0 s)) = true in
  let answers (r : HighsStatus * SolveBuffers * Highs) (ok : Prop) :=
    (ok -> r.1.1 = OK) ∧ (¬ ok -> r = (Error, out, s)) in
  answers (getBasisInverseRow i out s) (ready ∧ 0 <= i < n) ∧
  answers (getBasisInverseCol i out s) (ready ∧ 0 <= i < n) ∧
  answers (getBasisSolve X out s) ready ∧
  answers (getBasisTransposeSolve X out s) ready ∧
  answers (getReducedRow i out s) (ready ∧ 0 <= i < n) ∧
  answers (getReducedColumn i out s) (ready ∧ 0 <= i < m).
Proof.
  cbv zeta.
  unfold getBasisInverseRow, getBasisInverseCol, getBasisSolve,
    getBasisTransposeSolve, getReducedRow, getReducedColumn.
  destruct (length (hmos_ s) =? 0)%nat eqn:Hh.
  { apply Nat.eqb_eq in Hh.
    assert (hmos_ s = []) by (destruct (hmos_ s); done).
    split_and!; tauto. }
  apply hmos_nonempty in Hh.
  destruct (has_invert _) eqn:Hinv; simpl.
  - destruct (Z.ltb_spec i 0), (Z.leb_spec (Z.of_nat (numRow_ (hmo0_lp s))) i),
      (Z.leb_spec (Z.of_nat (numCol_ (hmo0_lp s))) i); simpl;
      repeat match goal with
      | |- context [interface_basisSolve ?a ?b ?c ?d] =>
          destruct (interface_basisSolve a b c d)
      end; simpl; split_and!; try done; try lia; try tauto;
      intros Hn; exfalso; apply Hn; split_and!; try done; lia.
  - destruct (_ || _), (_ || _); simpl; split_and!; try done;
      intros (? & ?); try done; destruct_and?; done.
Qed.


Lemma scatter_untouched (idx : Z -> Z) (val : Z -> double) els v0 (i : nat) :
  (forall el, el ∈ els -> idx el ≠ Z.of_nat i) ->
  foldl (fun rhs el => put_ (idx el) (val el) rhs) v0 els !! i = v0 !! i.
Proof.
  revert v0. induction els as [| a els IH]; intros v0 Hno; [done |].
  simpl. rewrite IH.
  - rewrite lookup_put_. rewrite decide_False; [done |].
    intros [Ha _]. apply (Hno a); [by left | done].
  - intros el Hel. apply Hno. by right.
Qed.

Lemma scatter_length (idx : Z -> Z) (val : Z -> double) els v0 :
  length (foldl (fun rhs el => put_ (idx el) (val el) rhs) v0 els)
  = length v0.
Proof.
  revert v0. induction els as [| a els IH]; intros v0; [done |].
  simpl. by rewrite IH, length_put_.
Qed.

Lemma scatter_last (idx : Z -> Z) (val : Z -> double) l1 el l2 v0 (i : nat) :
  idx el = Z.of_nat i -> (i < length v0)%nat ->
  (forall el', el' ∈ l2 -> idx el' ≠ Z.of_nat i) ->
  foldl (fun rhs el => put_ (idx el) (val el) rhs) v0 (l1 ++ el :: l2) !! i
  = Some (val el).
Proof.
  intros Hel Hi Hno. rewrite foldl_app. simpl.
  rewrite scatter_untouched by done.
  rewrite lookup_put_, scatter_length. by rewrite decide_True.
Qed.

(** X4. For a column index in range, [getReducedColumn] is [getBasisSolve]
    applied to the dense column: an array with one entry per row that holds
    0 at a row no entry of the column names, and the value of the last
    entry of the column that names the row otherwise. *)
Theorem getReducedColumn_solves_column col out s :
  let lp := hmo0_lp s in
  0 <= col < Z.of_nat (numCol_ lp) ->
  ∃ a : list double,
    getReducedColumn col out s = getBasisSolve a out s ∧
    length a = numRow_ lp ∧
    forall i, (i < numRow_ lp)%nat ->
      ((forall el, el ∈ column_entries lp col ->
                   at_ 0 (Aindex_ lp) el ≠ Z.of_nat i) ->
       a !! i = Some d_zero) ∧
      (forall l1 el l2,
         column_entries lp col = l1 ++ el :: l2 ->
         at_ 0 (Aindex_ lp) el = Z.of_nat i ->
         (forall el', el' ∈ l2 -> at_ 0 (Aindex_ lp) el' ≠ Z.of_nat i) ->
         a !! i = Some (at_ d_zero (Avalue_ lp) el)).
Proof.
  intros lp Hcol. exists (scatter_column lp col).
  assert (Hlen : length (scatter_column lp col) = numRow_ lp).
  { unfold scatter_column. by rewrite scatter_length, length_replicate. }
  split_and!; [| done |].
  - assert (E : copy_rhs (numRow_ lp) (scatter_column lp col)
                = scatter_column lp col).
    { apply list_eq. intros k. rewrite copy_rhs_lookup.
      case_decide as Hk.
      - destruct (lookup_lt_is_Some_2 (scatter_column lp col) k) as [x Hx];
          [lia |].
        by rewrite (at_lookup _ _ _ _ Hx).
      - symmetry. apply lookup_ge_None_2. lia. }
    unfold getReducedColumn, getBasisSolve.
    destruct (length (hmos_ s) =? 0)%nat; [done |].
    destruct (Z.ltb_spec col 0) as [| _]; [lia |].
    destruct (Z.leb_spec (Z.of_nat (numCol_ (hmo0_lp s))) col) as [| _];
      [subst lp; lia |].
    simpl. destruct (negb _); [done |]. fold lp. by rewrite E.
  - intros i Hi. unfold scatter_column. split.
    + intros Hno. rewrite scatter_untouched by done.
      by apply lookup_replicate_2.
    + intros l1 el l2 -> Hel Hno.
      apply scatter_last; [done | by rewrite length_replicate | done].
Qed.

Lemma getReducedRow_loop lp cv (ri : bool) out n :
  let keep col := dgt (fabs (reduced_row_value lp cv col)) HIGHS_CONST_TINY in
  let kept := filter (fun col => keep col = true) (seq 0 n) in
  let r := foldl (getReducedRow_col lp cv ri) out (seq 0 n) in
  length (vector_ r) = length (vector_ out) ∧
  (forall col,
     vector_ r !! col =
     if decide (col < n)%nat
     then (fun _ => if keep col then reduced_row_value lp cv col else d_zero)
            <$> vector_ out !! col
     else vector_ out !! col) ∧
  (ri = false -> num_nz_ r = num_nz_ out ∧ indices_ r = indices_ out) ∧
  (ri = true -> num_nz_ out = Some 0 ->
   num_nz_ r = Some (Z.of_nat (length kept)) ∧
   (indices_ out = None -> indices_ r = None) ∧
   (forall ix, indices_ out = Some ix ->
      ∃ ix', indices_ r = Some ix' ∧ length ix' = length ix ∧
        forall j, ix' !! j =
                  if decide (j < length kept ∧ j < length ix)%nat
                  then Z.of_nat <$> kept !! j else ix !! j)).
Proof.
  intros keep. induction n as [| n IH].
  - cbv zeta. simpl. split_and!; try done.
    intros _ ->. split_and!; try done.
    intros ix ->. exists ix. split_and!; done.
  - rewrite seq_S, filter_app, foldl_snoc. change (0 + n)%nat with n.
    cbv zeta in IH. destruct IH as (IHl & IHv & IHf & IHt).
    set (r := foldl (getReducedRow_col lp cv ri) out (seq 0 n)) in *.
    set (kept := filter (fun col => keep col = true) (seq 0 n)) in *.
    cbv zeta. unfold getReducedRow_col. fold keep.
    assert (Hk1 : filter (fun col => keep col = true) [n]
                  = if keep n then [n] else []).
    { rewrite filter_cons, filter_nil. destruct (keep n); by simpl. }
    rewrite Hk1. fold (keep n).
    destruct (keep n) eqn:Hkeep.
    + (* the entry is stored *)
      assert (Hv : forall (o : SolveBuffers),
        vector_ o = <[n := d_zero]> (vector_ r) ->
        length (<[n := reduced_row_value lp cv n]> (vector_ o))
        = length (vector_ out) ∧
        forall col,
          <[n := reduced_row_value lp cv n]> (vector_ o) !! col =
          if decide (col < S n)%nat
          then (fun _ => if keep col then reduced_row_value lp cv col
                         else d_zero) <$> vector_ out !! col
          else vector_ out !! col).
      { intros o ->. rewrite !length_insert. split; [done |]. intros col.
        destruct (decide (col = n)) as [-> | Hne].
        - rewrite decide_True by lia.
          destruct (vector_ out !! n) as [x |] eqn:Hx; simpl.
          + rewrite list_lookup_insert_eq; [by rewrite Hkeep |].
            rewrite length_insert, IHl. by eapply lookup_lt_Some.
          + apply lookup_ge_None_2. rewrite !length_insert, IHl.
            by apply lookup_ge_None_1.
        - rewrite !list_lookup_insert_ne by done. rewrite IHv.
          repeat case_decide; try lia; done. }
      destruct ri; simpl.
      * destruct (Hv (set_num_nz_ (Some (default 0 (num_nz_ r) + 1))
                        (set_indices_
                           (put_ (default 0 (num_nz_ r)) (Z.of_nat n)
                              <$> indices_ r)
                           (set_vector_ (<[n := d_zero]> (vector_ r)) r))))
          as [V1 V2]; [done |].
        split_and!; try done.
        intros _ H0. destruct (IHt eq_refl H0) as (N & I0 & I1).
        rewrite N. simpl. rewrite length_app. simpl.
        split_and!.
        -- f_equal. lia.
        -- intros Hn. by rewrite I0.
        -- intros ix Hix. destruct (I1 ix Hix) as (ix' & -> & L' & I').
           simpl. eexists. split; [done |]. rewrite length_put_.
           split; [done |]. intros j. rewrite lookup_put_, I', L'.
           destruct (decide (j = length kept)) as [-> | Hj].
           ++ rewrite lookup_app_r by lia. rewrite Nat.sub_diag. simpl.
              repeat case_decide; try lia; try done.
              all: destruct_and?; try lia.
              all: exfalso; lia.
           ++ destruct (decide (j < length kept)%nat).
              ** rewrite lookup_app_l by lia.
                 repeat case_decide; try lia; destruct_and?; try lia; done.
              ** rewrite (decide_False (P := (_ ∧ (j < length ix)%nat)));
                   [| lia].
                 rewrite decide_False by lia.
                 rewrite decide_False by lia. done.
      * destruct (Hv (set_vector_ (<[n := d_zero]> (vector_ r)) r))
          as [V1 V2]; [done |].
        split_and!; try done; intros _; by apply IHf.
    + (* the entry is zero *)
      simpl. rewrite length_insert, app_nil_r.
      split_and!; try done.
      intros col. destruct (decide (col = n)) as [-> | Hne].
      * rewrite decide_True by lia.
        destruct (vector_ out !! n) as [x |] eqn:Hx; simpl.
        -- rewrite list_lookup_insert_eq; [by rewrite Hkeep |].
           rewrite IHl. by eapply lookup_lt_Some.
        -- apply lookup_ge_None_2. rewrite length_insert, IHl.
           by apply lookup_ge_None_1.
      * rewrite list_lookup_insert_ne by done. rewrite IHv.
        repeat case_decide; try lia; done.
Qed.


(** X5. What [getReducedRow] leaves in its output arguments when it returns
    OK.  [cv] being row [row] of the basis inverse as [basisSolve] returned
    it, and the value of a column its product with [cv]: [row_vector]
    holds, for each column it has room for, the value if its absolute
    value exceeds [HIGHS_CONST_TINY] and 0 otherwise, and is unchanged
    from [numCol] on; with [row_num_nz] null the indices are not written;
    otherwise [row_num_nz] counts the columns whose value was kept and
    [row_indices] starts with exactly these columns, in increasing order,
    the rest of the array being unchanged. *)
Theorem getReducedRow_output row out s :
  let r := getReducedRow row out s in
  let lp := hmo0_lp r.2 in
  r.1.1 = OK ->
  let solved := reduced_row_solve row s in
  let value := reduced_row_value lp (vector_ solved.1) in
  let keep col := dgt (fabs (value col)) HIGHS_CONST_TINY in
  let kept := filter (fun col => keep col = true) (seq 0 (numCol_ lp)) in
  r.2 = solved.2 ∧
  length (vector_ r.1.2) = length (vector_ out) ∧
  (forall col, (col < numCol_ lp)%nat -> (col < length (vector_ out))%nat ->
     vector_ r.1.2 !! col = Some (if keep col then value col else d_zero)) ∧
  (forall col, (numCol_ lp <= col)%nat ->
     vector_ r.1.2 !! col = vector_ out !! col) ∧
  (num_nz_ out = None ->
   num_nz_ r.1.2 = None ∧ indices_ r.1.2 = indices_ out) ∧
  (num_nz_ out ≠ None ->
   num_nz_ r.1.2 = Some (Z.of_nat (length kept)) ∧
   (length kept <= numCol_ lp)%nat ∧
   forall ix, indices_ out = Some ix -> (numCol_ lp <= length ix)%nat ->
     ∃ ix', indices_ r.1.2 = Some ix' ∧ length ix' = length ix ∧
            take (length kept) ix' = Z.of_nat <$> kept ∧
            drop (length kept) ix' = drop (length kept) ix).
Proof.
  cbv zeta. unfold getReducedRow, reduced_row_solve.
  destruct (length (hmos_ s) =? 0)%nat; [discriminate |].
  destruct (_ || _); [discriminate |].
  destruct (negb _); [discriminate |].
  destruct (interface_basisSolve _ _ _ _) as [col s1] eqn:Hsolve.
  cbn [fst snd]. intros _.
  set (ri := bool_decide (is_Some (num_nz_ out))).
  set (out1 := if ri then set_num_nz_ (Some 0) out else out).
  pose proof (getReducedRow_loop (hmo0_lp s1) (vector_ col) ri out1
                (numCol_ (hmo0_lp s1))) as L.
  cbv zeta in L. destruct L as (Ll & Lv & Lf & Lt).
  set (kept := filter _ (seq 0 (numCol_ (hmo0_lp s1)))) in *.
  assert (Hv1 : vector_ out1 = vector_ out) by (subst out1; by destruct ri).
  assert (Hi1 : indices_ out1 = indices_ out) by (subst out1; by destruct ri).
  assert (Hk : (length kept <= numCol_ (hmo0_lp s1))%nat).
  { subst kept. etrans; [apply length_filter |]. by rewrite length_seq. }
  rewrite Hv1 in Ll, Lv. split_and!; try done.
  - intros c Hc Hc'. rewrite Lv, decide_True by done.
    by destruct (lookup_lt_is_Some_2 (vector_ out) c Hc') as [x ->].
  - intros c Hc. rewrite Lv. by rewrite decide_False by lia.
  - intros Hn. assert (ri = false) as Hri.
    { subst ri. apply bool_decide_eq_false. rewrite Hn. by intros [? ?]. }
    destruct (Lf Hri) as [-> ->]. subst out1. rewrite Hri. done.
  - intros Hn. assert (ri = true) as Hri.
    { subst ri. apply bool_decide_eq_true. by destruct (num_nz_ out). }
    destruct (Lt Hri) as (N & _ & I); [subst out1; by rewrite Hri |].
    split_and!; try done.
    intros ix Hix Hlen. rewrite Hi1 in I.
    destruct (I ix Hix) as (ix' & E & L' & I').
    exists ix'. split_and!; try done.
    + apply list_eq. intros j. rewrite list_lookup_fmap.
      destruct (decide (j < length kept)%nat) as [Hj | Hj].
      * rewrite lookup_take_lt by done. rewrite I'.
        by rewrite decide_True by lia.
      * rewrite lookup_take_ge by lia.
        by rewrite (lookup_ge_None_2 kept) by lia.
    + apply list_eq. intros j. rewrite !lookup_drop, I'.
      by rewrite decide_False by lia.
Qed.

End QueryTheory.

Section RunTheory.
Context `{C : Collaborators}.

Lemma run_unfold s :
  length (hmos_ s) = 1%nat -> numCol_ (lp_ s) ≠ 0%nat ->
  run s =
  match (if considers_presolve s
         then run_with_presolve 1 OK (run_start s)
         else run_without_presolve OK (run_start s)) with
  | Return st s' => (st, s')
  | Continue (rs, solved) s' => run_harvest solved rs s'
  end.
Proof.
  intros Hlen Hcol. unfold run, run_load, run_start, considers_presolve,
    pipeline_options, run_entry.
  destruct s as [lp o hm b so inf ms sms pr cl tr]; simpl in *.
  destruct hm as [| h [| ? ?]]; try discriminate.
  destruct (Nat.eqb_spec (numCol_ lp) 0) as [| _]; [done |].
  destruct (run_as_hsol o); simpl;
    destruct (Nat.eqb_spec (numCol_ lp) 0) as [| _]; done.
Qed.

Lemma run_lp_no_columns s :
  length (hmos_ s) = 1%nat -> numCol_ (lp_ s) = 0%nat ->
  lp_ (run s).2 = lp_ s.
Proof.
  intros Hlen Hcol. unfold run, run_load.
  destruct s as [lp o hm b so inf ms sms pr cl tr]; simpl in *.
  destruct hm as [| h [| ? ?]]; try discriminate.
  destruct (run_as_hsol o); simpl; rewrite Hcol; done.
Qed.

Lemma run_start_spec s :
  length (hmos_ s) = 1%nat ->
  options_ (run_start s) = pipeline_options s ∧
  trace_ (run_start s) = trace_ s ++ [run_entry s] ∧
  length (hmos_ (run_start s)) = 1%nat ∧
  lp_ (run_start s) = lp_ s ∧ basis_ (run_start s) = basis_ s ∧
  solution_ (run_start s) = solution_ s ∧ info_ (run_start s) = info_ s ∧
  presolve_ (run_start s) = presolve_ s ∧
  scaled_model_status_ (run_start s) = NOTSET ∧
  model_status_ (run_start s) = NOTSET ∧
  hmo_lp_ (hmo_at 0 (run_start s)) = hmo_lp_ (hmo_at 0 s) ∧
  hmo_basis_ (hmo_at 0 (run_start s)) = hmo_basis_ (hmo_at 0 s).
Proof.
  intros Hlen. unfold run_start, pipeline_options, run_entry.
  destruct s as [lp o hm b so inf ms sms pr cl tr]; simpl in *.
  destruct hm as [| h [| ? ?]]; try discriminate.
  destruct (run_as_hsol o); simpl; split_and!; done.
Qed.


Lemma runLpSolver_exact i m s h :
  hmos_ s !! i = Some h ->
  let h0 := set_iteration_counts_
              (copyHighsIterationCounts_from_info (info_ s)) h in
  let res := solveLp m (lp_of (hmo_lp_ h) s) (options_ s) h0 in
  let r := runLpSolver i m s in
  r.1 = interpretCallStatus res.1 OK ∧
  trace_ r.2 = trace_ s ++ [EvSolveLp i m (options_ s)] ∧
  hmos_ r.2 = <[i := res.2]> (hmos_ s).
Proof.
  intros Hh. unfold runLpSolver. rewrite Hh. cbv zeta.
  set (res := solveLp m (lp_of (hmo_lp_ h) s) (options_ s)
                (set_iteration_counts_
                   (copyHighsIterationCounts_from_info (info_ s)) h)).
  unfold hmo_at, modify_hmo. simpl.
  rewrite list_lookup_alter_eq, Hh. simpl.
  match goal with |- context [solveLp ?a ?b ?c ?d] =>
    change (solveLp a b c d) with res
  end.
  destruct res as [cs h1]. simpl.
  rewrite list_alter_alter_eq, list_insert_alter.
  case_decide; simpl; by split_and!.
Qed.

Lemma run_harvest_frame solved rs s :
  (1 <= length (hmos_ s) <= 2)%nat ->
  let r := run_harvest solved rs s in
  hmos_ r.2 !! 0%nat = hmos_ s !! 0%nat ∧ length (hmos_ r.2) = 1%nat ∧
  trace_ r.2 = trace_ s ∧ options_ r.2 = options_ s ∧ lp_ r.2 = lp_ s ∧
  presolve_ r.2 = presolve_ s.
Proof.
  intros Hlen. unfold run_harvest, getHighsModelStatusAndInfo, haveHmo.
  destruct (Nat.ltb_spec 0 (length (hmos_ s))) as [H0 | H0]; [| lia].
  simpl.
  match goal with |- context [beforeReturnFromRun ?st ?x] =>
    destruct (beforeReturnFromRun_frame st x) as (T & O & Lp & Pr & L);
    destruct L as [L L0]; [simpl; lia |]
  end.
  simpl in *. by split_and!.
Qed.

Lemma singleton_of_lookup {A} (l : list A) x :
  length l = 1%nat -> l !! 0%nat = Some x -> l = [x].
Proof. destruct l as [| y [| ? ?]]; simpl; intros; simplify_eq; done. Qed.

Lemma considers_presolve_false s :
  considers_presolve s = false <->
  valid_ (basis_ s) = true ∨ presolve (pipeline_options s) = off_string.
Proof.
  unfold considers_presolve.
  destruct (valid_ (basis_ s)); simpl; [by intuition |].
  destruct (String.eqb_spec (presolve (pipeline_options s)) off_string);
    simpl; intuition congruence.
Qed.

Lemma run_single_solve s :
  length (hmos_ s) = 1%nat -> numCol_ (lp_ s) ≠ 0%nat ->
  valid_ (basis_ s) = true ∨ presolve (pipeline_options s) = off_string ->
  let message := "Solving LP without presolve or with basis"%string in
  let lp := set_lp_name_ "LP without presolve or with basis"%string
              (lp_of (hmo_lp_ (hmo_at 0 s)) s) in
  trace_ (run s).2
  = trace_ s ++ [run_entry s; EvSolveLp 0 message (pipeline_options s)] ∧
  options_ (run s).2 = pipeline_options s ∧
  ∃ h0,
    (valid_ (basis_ s) = true -> hmo_basis_ h0 = basis_ s) ∧
    (valid_ (basis_ s) = false -> hmo_basis_ h0 = hmo_basis_ (hmo_at 0 s)) ∧
    hmos_ (run s).2 = [(solveLp message lp (pipeline_options s) h0).2] ∧
    ((solveLp message lp (pipeline_options s) h0).1 = Error ->
     (run s).1 = Error).
Proof.
  intros Hlen Hcol Hno. cbv zeta.
  rewrite run_unfold by done.
  apply considers_presolve_false in Hno. rewrite Hno.
  destruct (run_start_spec s Hlen)
    as (O & T & L & Lp & B & _ & _ & Pr & Ss & _ & Hl0 & Hb0).
  unfold run_without_presolve.
  set (sy := run_start s) in *. clearbody sy.
  destruct (set_hmo_lp_name_frame original_hmo
              "LP without presolve or with basis" sy)
    as (N1 & N2 & N3 & _ & N5 & N6 & _).
  assert (Nlp : lp_of (hmo_lp_ (hmo_at 0 sy))
                  (set_hmo_lp_name original_hmo
                     "LP without presolve or with basis" sy)
                = set_lp_name_ "LP without presolve or with basis"
                    (lp_of (hmo_lp_ (hmo_at 0 sy)) sy)).
  { unfold set_hmo_lp_name, hmo_at, original_hmo.
    destruct (hmos_ sy) as [| h ?]; [simpl in L; lia |]. simpl.
    by destruct (hmo_lp_ h). }
  assert (Hlp0 : lp_of (hmo_lp_ (hmo_at 0 sy)) sy
                 = lp_of (hmo_lp_ (hmo_at 0 s)) s).
  { rewrite Hl0. unfold lp_of. by rewrite Lp, Pr. }
  set (s1 := set_hmo_lp_name original_hmo _ sy) in *. clearbody s1.
  simpl in N1, N2, N3, N5, N6.
  destruct (hmos_ sy) as [| h [| ? ?]] eqn:Hh; simpl in L; try lia.
  assert (Hh0 : hmo_at 0 sy = h) by (unfold hmo_at; by rewrite Hh).
  rewrite Hh0 in *.
  set (h' := if valid_ (basis_ sy) then set_hmo_basis_ (basis_ sy) h else h).
  match goal with |- context [runLpSolver ?i ?m ?x] =>
    assert (Hx : hmos_ x !! 0%nat = Some h' ∧ options_ x = options_ sy ∧
                 trace_ x = trace_ sy ∧ info_ x = info_ s1 ∧
                 lp_of (hmo_lp_ h') x = lp_of (hmo_lp_ h) s1 ∧
                 length (hmos_ x) = 1%nat);
    [| set (s2 := x) in *; clearbody s2 ]
  end.
  { subst h'. rewrite N6.
    destruct (valid_ (basis_ sy)); simpl; rewrite ?N1, ?Hh; simpl;
      split_and!; done. }
  destruct Hx as (X1 & X2 & X3 & X4 & X5 & X6).
  pose proof (runLpSolver_exact original_hmo
                "Solving LP without presolve or with basis" s2 h' X1) as R.
  cbv zeta in R. destruct R as (R1 & R2 & R3).
  pose proof (runLpSolver_frame original_hmo
                "Solving LP without presolve or with basis" s2)
    as (_ & F2 & _ & _ & _ & _ & _ & F8 & _).
  rewrite X5, Nlp, Hlp0, X2, O in R1, R3.
  rewrite X2, O, X3, T in R2.
  set (h0 := set_iteration_counts_ _ h') in *.
  destruct (runLpSolver original_hmo _ s2) as [cs s3]. simpl in *.
  assert (L3 : length (hmos_ s3) = 1%nat) by congruence.
  assert (H3 : hmos_ s3 !! 0%nat
               = Some (solveLp "Solving LP without presolve or with basis"
                         (set_lp_name_ "LP without presolve or with basis"
                            (lp_of (hmo_lp_ (hmo_at 0 s)) s))
                         (pipeline_options s) h0).2).
  { rewrite R3. apply list_lookup_insert_eq. unfold original_hmo. lia. }
  assert (Hb : (valid_ (basis_ s) = true -> hmo_basis_ h0 = basis_ s) ∧
               (valid_ (basis_ s) = false ->
                hmo_basis_ h0 = hmo_basis_ (hmo_at 0 s))).
  { subst h0 h'. rewrite B. destruct (valid_ (basis_ s)); simpl;
      split; try done; intros _; congruence. }
  case_decide as He; simpl.
  - match goal with |- context [beforeReturnFromRun ?st ?x] =>
      destruct (beforeReturnFromRun_frame st x) as (T' & O' & _ & _ & L');
      destruct L' as [L' L0']; [lia |]
    end.
    rewrite T', O', R2, <- app_assoc. simpl.
    split_and!; [done | congruence |].
    exists h0. destruct Hb. split_and!; try done.
    apply singleton_of_lookup; [done | by rewrite L0'].
  - destruct (run_harvest_frame original_hmo (interpretCallStatus cs OK) s3
                ltac:(lia)) as (G1 & G2 & G3 & G4 & _).
    rewrite G3, G4, R2, <- app_assoc. simpl.
    split_and!; [done | congruence |].
    exists h0. destruct Hb. split_and!; try done.
    + apply singleton_of_lookup; [done | by rewrite G1].
    + intros Hs. rewrite Hs in R1. simpl in R1. by subst cs.
Qed.


(** X6. With a valid caller-visible basis, or with the presolve option
    off, [run] on a model with columns invokes one stage only: a single
    solve of context 0, under the options the pipeline starts from.  The
    context handed to the solver carries the caller-visible basis if that
    is valid and its own basis otherwise, context 0 on return is the
    context as the solver left it, and [run] returns Error if the solver
    does. *)
Theorem run_without_presolve_stage s :
  length (hmos_ s) = 1%nat -> numCol_ (lp_ s) ≠ 0%nat ->
  valid_ (basis_ s) = true ∨ presolve (pipeline_options s) = off_string ->
  let message := "Solving LP without presolve or with basis"%string in
  let lp := set_lp_name_ "LP without presolve or with basis"%string
              (lp_of (hmo_lp_ (hmo_at 0 s)) s) in
  trace_ (run s).2
  = trace_ s ++ [run_entry s; EvSolveLp 0 message (pipeline_options s)] ∧
  options_ (run s).2 = pipeline_options s ∧
  ∃ h0,
    (valid_ (basis_ s) = true -> hmo_basis_ h0 = basis_ s) ∧
    (valid_ (basis_ s) = false -> hmo_basis_ h0 = hmo_basis_ (hmo_at 0 s)) ∧
    hmos_ (run s).2 = [(solveLp message lp (pipeline_options s) h0).2] ∧
    ((solveLp message lp (pipeline_options s) h0).1 = Error ->
     (run s).1 = Error).
Proof. apply run_single_solve. Qed.

Lemma run_considers_presolve s :
  length (hmos_ s) = 1%nat -> numCol_ (lp_ s) ≠ 0%nat ->
  considers_presolve s = true ->
  ∃ l0 pst l1 x,
    trace_ (run s).2 = trace_ s ++ run_entry s :: l0 ++ EvPresolve pst :: l1 ∧
    Forall (fun e => e = EvNegateReducedLpCost ∧ pst = Reduced) l0 ∧
    Forall (post_ev x) l1 ∧ presolve_outcome pst x l1 (run s).
Proof.
  intros Hlen Hcol Hc. rewrite run_unfold by done. rewrite Hc.
  destruct (run_start_spec s Hlen)
    as (O & T & L & Lp & B & _ & _ & Pr & Ss & _).
  pose proof (run_with_presolve_spec (run_start s) Ss L) as H.
  cbv zeta in H.
  destruct H as (_ & _ & l0 & pst & l1 & x & Tr & F0 & F1 & Ho).
  exists l0, pst, l1, x. split_and!; try done.
  by rewrite Tr, T, <- app_assoc.
Qed.

Lemma not_presolve_post x l :
  Forall (post_ev x) l -> Forall (fun e => ¬ is_presolve e) l.
Proof.
  intros H. eapply Forall_impl; [exact H |]. intros []; simpl; tauto.
Qed.

(** X7. On a model with columns [run] invokes presolve exactly when the
    caller-visible basis is not valid and the presolve option, after the
    hsol reset, is not off; and then it invokes it once. *)
Theorem run_presolve_exactly_when s :
  length (hmos_ s) = 1%nat -> numCol_ (lp_ s) ≠ 0%nat -> trace_ s = [] ->
  (valid_ (basis_ s) = true ∨ presolve (pipeline_options s) = off_string ->
   Forall (fun e => ¬ is_presolve e) (trace_ (run s).2)) ∧
  (valid_ (basis_ s) = false ∧ presolve (pipeline_options s) ≠ off_string ->
   ∃ l0 pst l1,
     trace_ (run s).2 = run_entry s :: l0 ++ EvPresolve pst :: l1 ∧
     Forall (fun e => ¬ is_presolve e) (l0 ++ l1)).
Proof.
  intros Hlen Hcol Ht. split.
  - intros Hno.
    destruct (run_single_solve s Hlen Hcol Hno) as (T & _).
    rewrite T, Ht. repeat constructor; simpl; tauto.
  - intros [Hv Hp].
    assert (Hc : considers_presolve s = true).
    { unfold considers_presolve. rewrite Hv. simpl.
      by destruct (String.eqb_spec (presolve (pipeline_options s)) off_string). }
    destruct (run_considers_presolve s Hlen Hcol Hc)
      as (l0 & pst & l1 & x & T & F0 & F1 & _).
    exists l0, pst, l1. rewrite T, Ht. split; [done |].
    apply Forall_app. split; [| by eapply not_presolve_post].
    eapply Forall_impl; [exact F0 |]. intros e [-> _]. simpl. tauto.
Qed.

End RunTheory.

Section SetterTheory.
Context `{C : Collaborators} `{Ar : !Arithmetic} `{Sv : !Services}.

(** X8. [setBasis(basis)] returns Error and changes nothing when
    [basisOk] rejects the basis; otherwise it returns OK and stores the
    basis marked valid, changing nothing else.  A [run] that follows, on a
    model with columns, then invokes no presolve: it solves context 0
    once, the context handed to the solver carrying the stored basis. *)
Theorem setBasis_then_run basis s :
  length (hmos_ s) = 1%nat -> numCol_ (lp_ s) ≠ 0%nat -> trace_ s = [] ->
  let r := setBasis basis s in
  let message := "Solving LP without presolve or with basis"%string in
  let lp := set_lp_name_ "LP without presolve or with basis"%string
              (lp_of (hmo_lp_ (hmo_at 0 s)) s) in
  (basisOk (lp_ s) basis = false -> r = (Error, s)) ∧
  (basisOk (lp_ s) basis = true ->
   r = (OK, set_basis_ (set_valid_ true basis) s) ∧
   trace_ (run r.2).2
   = [EvRun true (presolve (options_ s));
      EvSolveLp 0 message (pipeline_options s)] ∧
   ∃ h0, hmo_basis_ h0 = set_valid_ true basis ∧
         hmos_ (run r.2).2 = [(solveLp message lp (pipeline_options s) h0).2]).
Proof.
  intros Hlen Hcol Ht. cbv zeta. unfold setBasis.
  split; [by intros -> |]. intros ->. cbn [negb].
  assert (E : set_basis_ (set_valid_ true (basis_ (set_basis_ basis s)))
                (set_basis_ basis s)
              = set_basis_ (set_valid_ true basis) s) by (by destruct s).
  rewrite E. clear E. split; [done |]. cbn [snd].
  set (s1 := set_basis_ (set_valid_ true basis) s).
  destruct (run_single_solve s1) as (T & _ & h0 & Hb & _ & Hh & _);
    [done | done | by left |].
  split.
  - rewrite T. subst s1. simpl. by rewrite Ht.
  - exists h0. split; [by apply Hb |]. exact Hh.
Qed.

(** X9. [setBasis()] returns OK and marks the caller-visible basis
    invalid, keeping its status vectors, the options and the number of
    contexts.  A [run] that follows, on a model with columns and with the
    presolve option not off, then invokes presolve. *)
Theorem setBasis_logical_then_run s :
  length (hmos_ s) = 1%nat -> trace_ s = [] ->
  let r := setBasis_logical s in
  r.1 = OK ∧ basis_ r.2 = set_valid_ false (basis_ s) ∧
  length (hmos_ r.2) = 1%nat ∧ options_ r.2 = options_ s ∧
  (numCol_ (lp_ r.2) ≠ 0%nat -> presolve (pipeline_options s) ≠ off_string ->
   ∃ l0 pst l1,
     trace_ (run r.2).2
     = EvRun false (presolve (options_ s)) :: l0 ++ EvPresolve pst :: l1).
Proof.
  intros Hlen Ht. cbv zeta. unfold setBasis_logical.
  assert (Hl : (0 <? length (hmos_ (set_basis_ (set_valid_ false (basis_ s)) s)))%nat
               = true) by (simpl; by rewrite Hlen).
  rewrite Hl.
  destruct (interface_clearBasis _ _ _) as [lp h'] eqn:Hclear.
  match goal with |- context [(OK, ?x)] => set (s1 := x) end.
  assert (H1 : basis_ s1 = set_valid_ false (basis_ s) ∧
               length (hmos_ s1) = 1%nat ∧ options_ s1 = options_ s ∧
               trace_ s1 = []).
  { subst s1. unfold modify_hmo, set_lp_of.
    case_match; simpl; rewrite !length_alter; by split_and!. }
  clearbody s1. destruct H1 as (B & L & O & T). simpl.
  split_and!; try done.
  intros Hcol Hp.
  assert (Hpo : pipeline_options s1 = pipeline_options s)
    by (unfold pipeline_options; by rewrite O).
  assert (Hc : considers_presolve s1 = true).
  { unfold considers_presolve. rewrite B, Hpo. simpl.
    by destruct (String.eqb_spec (presolve (pipeline_options s)) off_string). }
  destruct (run_considers_presolve s1 L Hcol Hc)
    as (l0 & pst & l1 & x & Tr & _).
  exists l0, pst, l1. rewrite Tr, T. unfold run_entry. by rewrite B, O.
Qed.

(** X10. [clearModel] returns OK and leaves a default-constructed LP, one
    fresh context, no status, and solution, basis and info cleared; the
    options and the presolve component are as before.  If a
    default-constructed LP has no columns, a [run] that follows returns OK
    with model status model-empty and invokes no stage, whatever
    [model_file] names. *)
Theorem clearModel_then_run s :
  let r := clearModel s in
  r.1 = OK ∧ lp_ r.2 = HighsLp_new ∧
  hmos_ r.2 = [HighsModelObject_new OriginalLp] ∧ reset_result r.2 ∧
  options_ r.2 = options_ s ∧ presolve_ r.2 = presolve_ s ∧
  (numCol_ HighsLp_new = 0%nat ->
   (run r.2).1 = OK ∧ model_status_ (run r.2).2 = MODEL_EMPTY ∧
   lp_ (run r.2).2 = HighsLp_new ∧
   trace_ (run r.2).2 = trace_ s ++ [EvRun false (presolve (options_ s))]).
Proof.
  cbv zeta. unfold clearModel, clearSolver. cbn [interpretCallStatus].
  rewrite decide_False by done.
  match goal with |- context [(OK, ?x)] => set (s1 := x) end.
  assert (H1 : lp_ s1 = HighsLp_new ∧
               hmos_ s1 = [HighsModelObject_new OriginalLp] ∧
               reset_result s1 ∧ options_ s1 = options_ s ∧
               presolve_ s1 = presolve_ s ∧ trace_ s1 = trace_ s ∧
               valid_ (basis_ s1) = false).
  { subst s1. unfold reset_result, cleared. simpl.
    unfold resize_solution. rewrite !resize_0. split_and!; eauto. }
  clearbody s1. destruct H1 as (Lp & Hh & R & O & Pr & T & V).
  cbn [fst snd]. split_and!; try done.
  intros Hcol.
  assert (Hlen : length (hmos_ s1) = 1%nat) by by rewrite Hh.
  destruct (run_no_columns s1 Hlen ltac:(by rewrite Lp))
    as (R1 & R2 & _ & _ & _ & _ & R7 & _).
  split_and!; try done.
  - rewrite run_lp_no_columns; simpl; by rewrite ?Lp.
  - rewrite R7, T. unfold run_entry. by rewrite V, O.
Qed.

(** X11. [setSolution] ignores the row values it is given and every
    empty vector: given no column value, no column dual and no row dual it
    returns OK and changes nothing.  It changes the caller-visible
    solution only; and when the row values cannot be computed from the
    column values it returns Error without computing column duals. *)
Theorem setSolution_outcome solution s :
  let r := setSolution solution s in
  (col_value solution = [] -> col_dual solution = [] ->
   row_dual solution = [] -> r = (OK, s)) ∧
  (forall row_value',
     setSolution {| col_value := col_value solution;
                    col_dual := col_dual solution;
                    row_value := row_value';
                    row_dual := row_dual solution |} s = r) ∧
  r.2 = set_solution_ (solution_ r.2) s ∧
  (forall x,
     col_value solution ≠ [] ->
     x = (if (0 <? length (row_dual solution))%nat
          then set_row_dual (row_dual solution) else id)
           ((if (0 <? length (col_dual solution))%nat
             then set_col_dual (col_dual solution) else id)
              (set_col_value (col_value solution) (solution_ s))) ->
     (calculateRowValues (lp_ s) x).1 = Error ->
     r = (Error, set_solution_ (calculateRowValues (lp_ s) x).2 s)).
Proof.
  cbv zeta. split_and!.
  - intros H1 H2 H3. unfold setSolution. rewrite H1, H2, H3. simpl.
    by destruct s.
  - done.
  - unfold setSolution.
    destruct s as [lp o hm b so inf ms sms pr cl tr].
    repeat (case_match; simpl in *; simplify_eq); done.
  - intros x Hne -> Herr. unfold setSolution.
    destruct (col_value solution) as [| v vs] eqn:Hcv; [done |].
    destruct s as [lp o hm b so inf ms sms pr cl tr].
    destruct (col_dual solution) as [| ? ?], (row_dual solution) as [| ? ?];
      simpl in *;
      destruct (calculateRowValues _ _) as [cs y]; simpl in *; subst cs;
      simpl; rewrite ?decide_True by done; done.
Qed.

End SetterTheory.

Section LoadTheory.
Context `{C : Collaborators}.

Lemma reset_spec s :
  let r := reset s in
  r.1 = OK ∧ hmos_ r.2 = [HighsModelObject_new OriginalLp] ∧
  reset_result r.2 ∧ presolve_ r.2 = presolve_clear (presolve_ s) ∧
  lp_ r.2 = lp_ s ∧ options_ r.2 = options_ s ∧ trace_ r.2 = trace_ s.
Proof.
  cbv zeta. unfold reset, clearSolver. cbn [interpretCallStatus].
  rewrite decide_False by done. unfold reset_result, cleared. simpl.
  unfold resize_solution. rewrite !resize_0. split_and!; eauto.
Qed.

Lemma passModel_outcome_aux lp s : (passModel lp s).1 ≠ Warning.
Proof.
  unfold passModel. destruct (assessLp _ _) as [cs lp']. simpl.
  case_decide as He; [by rewrite He |].
  pose proof (reset_spec (set_lp_ lp' (set_lp_ lp s))) as R. cbv zeta in R.
  destruct R as (-> & _). done.
Qed.

(** X12. [passModel] never returns Warning: it returns Error exactly when
    [assessLp] does, and OK otherwise, a warning of [assessLp] being
    dropped.  On Error the assessed LP has already replaced the stored LP
    while the contexts, the statuses, the solution, the basis and the info
    are those of the model before; on OK the object holds the assessed LP
    and one fresh context, has no status, its solution, basis and info
    are cleared and its presolve component is cleared. *)
Theorem passModel_outcome lp s :
  let a := assessLp lp (options_ s) in
  let r := passModel lp s in
  r.1 ≠ Warning ∧
  (r.1 = Error <-> a.1 = Error) ∧
  (a.1 = Error -> r.2 = set_lp_ a.2 s) ∧
  (a.1 ≠ Error ->
   lp_ r.2 = a.2 ∧ hmos_ r.2 = [HighsModelObject_new OriginalLp] ∧
   reset_result r.2 ∧ presolve_ r.2 = presolve_clear (presolve_ s) ∧
   options_ r.2 = options_ s ∧ trace_ r.2 = trace_ s).
Proof.
  cbv zeta. unfold passModel. cbn [lp_ options_ set_lp_].
  destruct (assessLp lp (options_ s)) as [cs lp'] eqn:Ha.
  assert (Hs : set_lp_ lp' (set_lp_ lp s) = set_lp_ lp' s) by (by destruct s).
  rewrite Hs. cbn [fst snd].
  assert (Herr : interpretCallStatus cs OK = Error <-> cs = Error)
    by (destruct cs; simpl; intuition congruence).
  case_decide as He.
  - apply Herr in He. subst cs. simpl. split_and!; try done.
  - pose proof (reset_spec (set_lp_ lp' s)) as R. cbv zeta in R.
    destruct R as (R1 & R2 & R3 & R4 & R5 & R6 & R7).
    rewrite R1. split_and!; try done.
    + split; [done |]. intros ->. by destruct He.
    + intros ->. by destruct He.
Qed.

(** X13. [readModel] never returns Warning.  It returns Error and changes
    nothing when no reader supports the file name; it returns Error having
    changed only the [model_file] option when the reader fails; otherwise
    it is [passModel] applied to the LP read, named after the file. *)
Theorem readModel_outcome filename s :
  let r := readModel filename s in
  let s1 := set_options_ (set_model_file filename (options_ s)) s in
  let rd := readModelFromFile (options_ s1) in
  r.1 ≠ Warning ∧
  (getFilereader filename = false -> r = (Error, s)) ∧
  (getFilereader filename = true -> rd.1 ≠ FilereaderRetcode.OK ->
   r = (Error, s1)) ∧
  (getFilereader filename = true -> rd.1 = FilereaderRetcode.OK ->
   r = passModel (set_model_name_ (extractModelName filename) rd.2) s1).
Proof.
  cbv zeta. unfold readModel.
  destruct (getFilereader filename); cbn [negb]; [| by split_and!].
  destruct (readModelFromFile _) as [code model] eqn:Hr. cbn [fst snd].
  destruct code; simpl; split_and!; try done.
  - pose proof (passModel_outcome_aux
                  (set_model_name_ (extractModelName filename) model)
                  (set_options_ (set_model_file filename (options_ s)) s))
      as Hw.
    destruct (passModel _ _) as [cs s2]. simpl in *. by destruct cs.
  - intros _ _.
    pose proof (passModel_outcome_aux
                  (set_model_name_ (extractModelName filename) model)
                  (set_options_ (set_model_file filename (options_ s)) s))
      as Hw.
    destruct (passModel _ _) as [cs s2]. simpl in *. by destruct cs.
Qed.

End LoadTheory.

Section EditorTheory.
Context `{C : Collaborators}.

Lemma interface_call_keeps op s :
  let r := interface_call op s in
  model_status_ r.2 = model_status_ s ∧
  scaled_model_status_ r.2 = scaled_model_status_ s ∧
  info_ r.2 = info_ s ∧ trace_ r.2 = trace_ s ∧
  solution_ r.2 = solution_ s ∧ basis_ r.2 = basis_ s ∧
  length (hmos_ r.2) = length (hmos_ s).
Proof.
  unfold interface_call, set_lp_of.
  destruct (interface_edit _ _ _ _) as [[cs lp] h'].
  destruct (hmo_lp_ _); simpl; by rewrite length_alter.
Qed.

Lemma updateHighsSolutionBasis_keeps s :
  let r := updateHighsSolutionBasis s in
  model_status_ r.2 = model_status_ s ∧
  scaled_model_status_ r.2 = scaled_model_status_ s ∧
  info_ r.2 = info_ s ∧ trace_ r.2 = trace_ s ∧
  length (hmos_ r.2) = length (hmos_ s).
Proof.
  unfold updateHighsSolutionBasis. destruct (negb _); [done |].
  case_match; simpl; by rewrite length_alter.
Qed.

(** X14. No operation of the editor touches the model status, the scaled
    model status or the info of the object, whether it succeeds or fails:
    after an edit they still describe the model as it was last solved.
    The number of contexts is kept, and an operation that changes costs,
    bounds, a coefficient or the objective sense leaves the caller-visible
    solution and basis as they are even when it succeeds. *)
Theorem editor_keeps_status op s :
  let r := edit op s in
  model_status_ r.2 = model_status_ s ∧
  scaled_model_status_ r.2 = scaled_model_status_ s ∧
  info_ r.2 = info_ s ∧
  length (hmos_ r.2) = length (hmos_ s) ∧
  (resizes op = false ->
   solution_ r.2 = solution_ s ∧ basis_ r.2 = basis_ s).
Proof.
  cbv zeta.
  pose proof (interface_call_keeps op s) as F. cbv zeta in F.
  destruct F as (F1 & F2 & F3 & F4 & F5 & F6 & F7).
  destruct (edit_cases op) as [[Hr ->] | [Hr ->]];
    unfold edit_and_update, edit_only.
  - destruct (negb (haveHmo s)); [by rewrite Hr |].
    destruct (interface_call op s) as [cs s1]. simpl in *.
    case_decide; simpl; [by rewrite Hr |].
    pose proof (updateHighsSolutionBasis_keeps s1) as G. cbv zeta in G.
    destruct G as (G1 & G2 & G3 & G4 & G5).
    destruct (updateHighsSolutionBasis s1) as [u s2]. simpl in *.
    destruct (negb u); simpl; rewrite Hr; split_and!; congruence.
  - destruct (negb (haveHmo s)); [done |].
    destruct (interface_call op s) as [cs s1]. simpl in *.
    case_decide; simpl; split_and!; done.
Qed.

End EditorTheory.

Section OutputTheory.
Context `{C : Collaborators}.

Lemma substring_all (q : string) : String.substring 0 (String.length q) q = q.
Proof. induction q as [| c q IH]; simpl; [done | by rewrite IH]. Qed.

Lemma strrchr_dot_suffix (f t : string) :
  strrchr_dot f = Some t ->
  ∃ p q, f = (p ++ t)%string ∧ t = String "."%char q.
Proof.
  revert t. induction f as [| c r IH]; intros t; simpl; [done |].
  destruct (strrchr_dot r) as [t' |] eqn:Hr.
  - intros [= <-]. destruct (IH t' eq_refl) as (p & q & -> & ->).
    exists (String c p), q. done.
  - destruct (Ascii.eqb_spec c "."%char) as [-> | Hc]; [| done].
    intros [= <-]. exists EmptyString, r. done.
Qed.

Lemma strrchr_dot_html (stem : string) :
  strrchr_dot (stem ++ ".html")%string = Some ".html"%string.
Proof. induction stem as [| c r IH]; simpl; [done | by rewrite IH]. Qed.

Lemma string_length_append (p t : string) :
  String.length (p ++ t)%string = (String.length p + String.length t)%nat.
Proof. induction p as [| c p IH]; simpl; [done | by rewrite IH]. Qed.

Lemma append_eq_r_nil (p t : string) : (p ++ t)%string = t -> p = EmptyString.
Proof.
  intros H. apply (f_equal String.length) in H.
  rewrite string_length_append in H. destruct p; [done | simpl in H; lia].
Qed.

(** X15. [openWriteFile] reads the file name as a C string, up to its
    first NUL.  With an empty file name it answers the standard output and
    touches no file; with a file that cannot be opened it returns Error,
    no stream, and touches no file; otherwise it returns OK and a stream
    on the file, created or truncated to empty.  It reports [html]
    exactly when the C string ends in [.html] and the file name is not
    just [.html]: for a file name without NUL, exactly when it is a
    non-empty stem followed by [.html].  The object plays no part. *)
Theorem openWriteFile_html filename method_name s w :
  let r := openWriteFile filename method_name s w in
  let name := c_str filename in
  (filename = EmptyString -> r = (OK, Some stdout, false, w)) ∧
  (filename ≠ EmptyString -> fopen_w name = false ->
   r = (Error, None, false, w)) ∧
  (filename ≠ EmptyString -> fopen_w name = true ->
   r.1.1.1 = OK ∧ r.1.1.2 = Some (stream name) ∧
   stdout_ r.2 = stdout_ w ∧
   files_ r.2 = <[name := EmptyString]> (files_ w) ∧
   (r.1.2 = true <->
    (∃ stem, name = (stem ++ ".html")%string) ∧
    filename ≠ ".html"%string) ∧
   (name = filename ->
    (r.1.2 = true <->
     ∃ stem, stem ≠ EmptyString ∧ filename = (stem ++ ".html")%string))).
Proof.
  cbv zeta. unfold openWriteFile.
  destruct (String.eqb_spec filename EmptyString) as [-> | Hne];
    [by split_and! |].
  destruct (fopen_w (c_str filename)); cbn [negb]; [| by split_and!].
  split_and!; try done. intros _ _. cbn [fst snd files_ stdout_].
  assert (Hhtml :
    match strrchr_dot (c_str filename) with
    | Some dot =>
        if negb (String.eqb dot filename)
        then String.eqb (String.substring 1 (String.length dot - 1) dot)
               "html"
        else false
    | None => false
    end = true <->
    (∃ stem, c_str filename = (stem ++ ".html")%string) ∧
    filename ≠ ".html"%string).
  { split.
    - destruct (strrchr_dot (c_str filename)) as [dot |] eqn:Hdot; [| done].
      destruct (strrchr_dot_suffix _ _ Hdot) as (p & q & Hp & ->).
      destruct (String.eqb_spec (String "."%char q) filename) as [He | He];
        cbn [negb]; [done |].
      cbn [String.length String.substring].
      replace (S (String.length q) - 1)%nat with (String.length q) by lia.
      rewrite substring_all.
      intros Hq. apply String.eqb_eq in Hq. subst q.
      split; [by exists p |]. intros E. by apply He.
    - intros [(stem & Hs) Hn]. rewrite Hs, strrchr_dot_html.
      destruct (String.eqb_spec ".html" filename) as [He | He];
        cbn [negb]; [by destruct Hn | done]. }
  split_and!; try done.
  intros Hc. rewrite Hhtml, Hc. split.
  - intros [(stem & Hs) Hn]. exists stem. split; [| done].
    intros ->. by apply Hn.
  - intros (stem & Hs & ->). split; [by exists stem |].
    intros He. apply Hs.
    by apply append_eq_r_nil with (t := ".html"%string).
Qed.

End OutputTheory.

Section ResultTheory.
Context `{C : Collaborators}.

Lemma run_solve_early pst rs s st s' :
  scaled_model_status_ s = NOTSET -> length (hmos_ s) = 1%nat ->
  rs ≠ Error ->
  run_solve pst 1 rs s = Return st s' ->
  (st = Error ∧ reset_result s')
  ∨ (st = OK ∧ (scaled_model_status_ s' = PRIMAL_INFEASIBLE ∨
                scaled_model_status_ s' = PRIMAL_UNBOUNDED))
  ∨ (st ≠ OK ∧ scaled_model_status_ s' = NOTSET).
Proof.
  intros Hst Hlen Hrs Hret.
  pose proof (run_solve_spec pst rs s Hrs Hst Hlen) as Hspec.
  destruct (decide (pst = Timeout ∨ pst = OptionsError)) as [Hto | Hto].
  { right. right. destruct Hto as [-> | ->]; simpl in Hret;
      injection Hret as <- <-; by simpl. }
  destruct (decide (pst = Reduced)) as [-> | Hred].
  - clear Hspec. unfold run_solve in Hret.
    destruct (cleanBounds _ _) as [cb reduced_lp].
    case_decide as Hcb.
    { injection Hret as <- <-. right. right. by simpl. }
    match type of Hret with
    | context [runLpSolver ?i ?m ?x] =>
        pose proof (runLpSolver_frame i m x)
          as (_ & _ & _ & _ & _ & F6 & _ & F8 & _);
        destruct (runLpSolver i m x) as [cs s1]
    end.
    destruct (set_hmo_lp_name_frame 1 "Presolved LP"
                (set_hmos_ (hmos_ (set_presolve_
                                     (set_reduced_lp_ reduced_lp (presolve_ s))
                                     s) ++ [HighsModelObject_new ReducedLp])
                   (set_presolve_ (set_reduced_lp_ reduced_lp (presolve_ s)) s)))
      as (N1 & _ & _ & _ & N5 & _).
    simpl in *. rewrite N5 in F6. rewrite N1, length_app, Hlen in F8.
    simpl in F8.
    case_decide as He; [| done].
    injection Hret as <- <-. left. split; [done |].
    eapply finish_error_spec; [left; simpl; congruence | simpl; lia].
  - rewrite Hret in Hspec. simpl in Hspec.
    destruct Hspec as (_ & _ & _ & [H | [H | [H | H]]]).
    + destruct H as (-> & Hp & _ & _ & S & _). right. left.
      split; [done |]. rewrite S. unfold detected_status.
      destruct Hp as [-> | ->]; simpl; auto.
    + destruct H as (_ & Hp & _). tauto.
    + destruct H as (_ & Hp & _). done.
    + destruct H as (-> & R & _). by left.
Qed.

Lemma run_solve_solved pst rs s rs' solved s' :
  run_solve pst 1 rs s = Continue (rs', solved) s' ->
  solved = 0%nat ∨ pst = Reduced.
Proof.
  unfold run_solve, finish. destruct pst; try (by right);
    repeat case_match; intros Hc; simplify_eq; by left.
Qed.

Lemma run_hot_start_solved rs s rs' solved s' :
  run_hot_start rs s = Continue (rs', solved) s' -> solved = 0%nat.
Proof.
  unfold run_hot_start, finish.
  repeat case_match; intros Hc; simplify_eq; done.
Qed.

Lemma run_without_presolve_solved rs s rs' solved s' :
  run_without_presolve rs s = Continue (rs', solved) s' -> solved = 0%nat.
Proof.
  unfold run_without_presolve, finish.
  repeat case_match; intros Hc; simplify_eq; done.
Qed.

Lemma transfer_statuses solved (s : Highs) :
  (1 <= length (hmos_ s))%nat ->
  let s1 := modify_hmo original_hmo
              (set_unscaled_model_status_
                 (unscaled_model_status_ (hmo_at solved s))) s in
  let s2 := modify_hmo original_hmo
              (set_hmo_scaled_model_status_
                 (hmo_scaled_model_status_ (hmo_at solved s1))) s1 in
  unscaled_model_status_ (hmo_at 0 s2)
  = unscaled_model_status_ (hmo_at solved s2) ∧
  hmo_scaled_model_status_ (hmo_at 0 s2)
  = hmo_scaled_model_status_ (hmo_at solved s2).
Proof.
  intros Hlen. cbv zeta. unfold modify_hmo, hmo_at, original_hmo.
  destruct s as [lp o hm b so inf ms sms pr cl tr]; simpl in *.
  destruct hm as [| h0 hm]; [simpl in Hlen; lia |].
  destruct solved as [| k]; simpl; done.
Qed.

Lemma run_postsolve_statuses pst solved rs s rs' solved' s' :
  (1 <= length (hmos_ s))%nat ->
  solved = 0%nat ∨ pst = Reduced ->
  run_postsolve pst solved rs s = Continue (rs', solved') s' ->
  unscaled_model_status_ (hmo_at 0 s')
  = unscaled_model_status_ (hmo_at solved' s') ∧
  hmo_scaled_model_status_ (hmo_at 0 s')
  = hmo_scaled_model_status_ (hmo_at solved' s').
Proof.
  intros Hlen Hs. unfold run_postsolve.
  case_decide as Hopt; [case_decide as Hred |].
  - destruct (runPostsolve _) as [y s1].
    case_decide; [| done].
    intros Hc. apply run_hot_start_solved in Hc. by subst.
  - intros [= <- <- <-]. destruct Hs as [-> | ->]; [done |].
    destruct Hred. by left.
  - intros [= <- <- <-]. by apply transfer_statuses.
Qed.


Lemma beforeReturnFromRun_keeps_more rs s :
  length (hmos_ s) ≠ 0%nat -> ¬ error_class (scaled_model_status_ s) ->
  model_status_ (beforeReturnFromRun rs s) = model_status_ s ∧
  (scaled_model_status_ s = OPTIMAL ->
   solution_ (beforeReturnFromRun rs s) = solution_ s ∧
   basis_ (beforeReturnFromRun rs s) = basis_ s ∧
   info_ (beforeReturnFromRun rs s) = info_ s).
Proof.
  intros Hl He. unfold beforeReturnFromRun, error_class in *.
  destruct (Nat.eqb_spec (length (hmos_ s)) 0) as [| _]; [done |].
  destruct (1 <? length (hmos_ s))%nat; simpl;
    destruct (scaled_model_status_ s) eqn:E; simpl; try done; tauto.
Qed.

Lemma run_harvest_result solved rs s :
  rs ≠ Error -> (1 <= length (hmos_ s) <= 2)%nat ->
  let st := hmo_scaled_model_status_ (hmo_at solved s) in
  let r := run_harvest solved rs s in
  r.1 = interpretCallStatus (highsStatusFromHighsModelStatus st) rs ∧
  hmo_at 0 r.2 = hmo_at 0 s ∧
  (error_class st -> reset_result r.2) ∧
  (¬ error_class st ->
   scaled_model_status_ r.2 = st ∧
   model_status_ r.2 = unscaled_model_status_ (hmo_at solved s)) ∧
  (st = OPTIMAL ->
   solution_ r.2 = hmo_solution_ (hmo_at 0 s) ∧
   basis_ r.2 = hmo_basis_ (hmo_at 0 s)).
Proof.
  intros Hrs Hlen.
  destruct (run_harvest_frame solved rs s Hlen) as (F0 & _).
  cbv zeta. split_and!.
  2: { unfold hmo_at. by rewrite F0. }
  all: clear F0; unfold run_harvest, getHighsModelStatusAndInfo, haveHmo,
         readRunHighsClock.
  all: destruct (Nat.ltb_spec 0 (length (hmos_ s))) as [H0 | H0]; [| lia].
  all: cbn [negb fst snd].
  1: done.
  all: match goal with |- context [beforeReturnFromRun ?st ?x] =>
         pose proof (beforeReturnFromRun_error st x) as E;
         pose proof (beforeReturnFromRun_keeps st x) as K;
         pose proof (beforeReturnFromRun_keeps_more st x) as M
       end; simpl in *.
  - intros He. split; [| split]; apply E; by right.
  - intros He. rewrite K by (done || lia).
    destruct M as [M _]; [lia | done |]. by rewrite M.
  - intros Ho. destruct M as [_ M]; [lia | |].
    { rewrite Ho. unfold error_class. intuition congruence. }
    destruct (M Ho) as (-> & -> & _). done.
Qed.

Lemma run_ending_spec s :
  length (hmos_ s) = 1%nat -> numCol_ (lp_ s) ≠ 0%nat -> run_ending (run s).
Proof.
  intros Hlen Hcol. rewrite run_unfold by done.
  destruct (run_start_spec s Hlen)
    as (O & T & L & Lp & B & _ & _ & Pr & Ss & _).
  set (sy := run_start s) in *. clearbody sy.
  destruct (considers_presolve s).
  - unfold run_with_presolve.
    match goal with |- context [runPresolve ?x] =>
      assert (Hx : scaled_model_status_ x = NOTSET ∧ length (hmos_ x) = 1%nat)
        by (case_match; simpl; rewrite ?length_alter; split_and!; auto);
      set (sx := x) in *; clearbody sx
    end.
    destruct Hx as (X3 & X4).
    pose proof (runPresolve_frame sx) as F. simpl in F.
    destruct F as (F1 & _ & _ & F4 & _).
    destruct (runPresolve sx) as [pst s1]. simpl in *.
    assert (S1 : scaled_model_status_ s1 = NOTSET) by congruence.
    assert (L1 : length (hmos_ s1) = 1%nat) by congruence.
    pose proof (run_solve_spec pst OK s1 ltac:(done) S1 L1) as Hsolve.
    destruct (run_solve pst 1 OK s1) as [st s2 | [rs solved] s2] eqn:Hs.
    + destruct (run_solve_early pst OK s1 st s2 S1 L1 ltac:(done) Hs)
        as [H | [H | H]]; unfold run_ending; simpl; tauto.
    + simpl in Hsolve. destruct Hsolve as (R2 & _ & _ & S2 & _ & L2).
      pose proof (run_solve_solved _ _ _ _ _ _ Hs) as Hsv.
      destruct (run_postsolve_spec pst solved rs s2 R2 S2 ltac:(lia))
        as (x & _ & Hpost).
      destruct (run_postsolve pst solved rs s2)
        as [st s3 | [rs' solved'] s3] eqn:Hp; simpl in Hpost.
      * destruct Hpost as (-> & R3 & _). right. left. by split.
      * destruct Hpost as (R3 & _ & L3 & _).
        destruct (run_postsolve_statuses pst solved rs s2 rs' solved' s3
                    ltac:(lia) Hsv Hp) as (U & V).
        left. exists solved', rs', s3. split_and!; try done; lia.
  - pose proof (run_without_presolve_spec OK sy ltac:(done) Ss ltac:(lia)) as H.
    destruct (run_without_presolve OK sy) as [st s1 | [rs solved] s1] eqn:Hw;
      simpl in H.
    + destruct H as (-> & R & _). right. left. by split.
    + destruct H as (R & _ & L1 & _).
      apply run_without_presolve_solved in Hw. subst solved.
      left. exists 0%nat, rs, s1. split_and!; try done; lia.
Qed.

Lemma definite_not_error st : definite st -> ¬ error_class st.
Proof.
  unfold definite, error_class. intros H He.
  destruct st; intuition congruence.
Qed.

(** X16. When, after [run], [getModelStatus(true)] reports optimal, [run]
    has not returned Error, context 0 reports optimal as its scaled
    status, [getModelStatus(false)] reports the unscaled status of
    context 0, and the caller-visible solution and basis are the solution
    and basis of context 0. *)
Theorem run_optimal_result s :
  length (hmos_ s) = 1%nat ->
  getModelStatus true (run s).2 = OPTIMAL ->
  (run s).1 ≠ Error ∧
  hmo_scaled_model_status_ (hmo_at 0 (run s).2) = OPTIMAL ∧
  getModelStatus false (run s).2
  = unscaled_model_status_ (hmo_at 0 (run s).2) ∧
  solution_ (run s).2 = hmo_solution_ (hmo_at 0 (run s).2) ∧
  basis_ (run s).2 = hmo_basis_ (hmo_at 0 (run s).2).
Proof.
  unfold getModelStatus. intros Hlen Hopt.
  destruct (decide (numCol_ (lp_ s) = 0%nat)) as [Hcol | Hcol].
  { destruct (run_no_columns s Hlen Hcol) as (_ & _ & E & _). congruence. }
  destruct (run_ending_spec s Hlen Hcol)
    as [(solved & rs & s1 & Hrs & L1 & Hr & U & V) | [H | [H | H]]].
  - rewrite Hr in *.
    pose proof (run_harvest_result solved rs s1 Hrs L1) as R. cbv zeta in R.
    destruct R as (R1 & R2 & R3 & R4 & R5).
    set (st := hmo_scaled_model_status_ (hmo_at solved s1)) in *.
    assert (Hst : st = OPTIMAL).
    { destruct (decide (error_class st)) as [He | He].
      - destruct (R3 He) as (_ & _ & N). congruence.
      - destruct (R4 He) as (E & _). congruence. }
    assert (Hne : ¬ error_class st).
    { rewrite Hst. unfold error_class. intuition congruence. }
    destruct (R4 Hne) as (_ & M). destruct (R5 Hst) as (So & Ba).
    rewrite R2. split_and!; try congruence.
    rewrite R1, Hst. simpl. by destruct rs.
  - destruct H as (_ & _ & _ & N). congruence.
  - destruct H as (_ & [N | N]); congruence.
  - destruct H as (_ & N). congruence.
Qed.

(** X17. The return code of [run] against the scaled model status that
    [getModelStatus(true)] reports afterwards: [run] returns OK only with
    a definite status (model-empty, primal-infeasible, primal-unbounded,
    optimal or the dual objective bound reached), and whenever the status
    is a limit status (time or iteration limit reached) it has returned
    Warning. *)
Theorem run_code_and_status s :
  length (hmos_ s) = 1%nat ->
  ((run s).1 = OK -> definite (getModelStatus true (run s).2)) ∧
  (limit_reached (getModelStatus true (run s).2) -> (run s).1 = Warning).
Proof.
  unfold getModelStatus.
  intros Hlen.
  destruct (decide (numCol_ (lp_ s) = 0%nat)) as [Hcol | Hcol].
  { destruct (run_no_columns s Hlen Hcol) as (_ & _ & E & _).
    rewrite E. unfold definite, limit_reached.
    split; [tauto | intros [? | ?]; discriminate]. }
  destruct (run_ending_spec s Hlen Hcol)
    as [(solved & rs & s1 & Hrs & L1 & Hr & U & V) | [H | [H | H]]].
  - rewrite Hr in *.
    pose proof (run_harvest_result solved rs s1 Hrs L1) as R. cbv zeta in R.
    destruct R as (R1 & R2 & R3 & R4 & R5).
    set (st := hmo_scaled_model_status_ (hmo_at solved s1)) in *.
    destruct (decide (error_class st)) as [He | He].
    + destruct (R3 He) as (_ & _ & N). rewrite N, R1.
      apply error_class_of_status in He. rewrite He. simpl.
      unfold limit_reached. split; [done | intros [? | ?]; discriminate].
    + destruct (R4 He) as (E & _). rewrite E, R1.
      unfold definite, limit_reached, error_class in *.
      destruct st, rs; simpl; split; try done; try tauto;
        intros [? | ?]; try discriminate; tauto.
  - destruct H as (E & _ & _ & N). rewrite E, N.
    unfold limit_reached. split; [done | intros [? | ?]; discriminate].
  - destruct H as (E & [N | N]); rewrite E, N;
      unfold definite, limit_reached;
      (split; [tauto | intros [? | ?]; discriminate]).
  - destruct H as (E & N). rewrite N. unfold limit_reached.
    split; [done | intros [? | ?]; discriminate].
Qed.

End ResultTheory.

Section StageTheory.
Context `{C : Collaborators}.

Lemma count_app p (l k : list Event) : count p (l ++ k) = (count p l + count p k)%nat.
Proof. induction l as [| e l IH]; simpl; [done |]. rewrite IH. lia. Qed.

Lemma stages_app a b c a' b' c' (l k : list Event) :
  stages a b c l -> stages a' b' c' k ->
  stages (a + a') (b + b') (c + c') (l ++ k).
Proof.
  unfold stages. intros (<- & <- & <-) (<- & <- & <-).
  by rewrite !count_app.
Qed.

Lemma runLpSolver_stages i m s :
  ∃ l, trace_ (runLpSolver i m s).2 = trace_ s ++ l ∧
       (l = [] ∨ l = [EvSolveLp i m (options_ s)]).
Proof.
  destruct (hmos_ s !! i) as [h |] eqn:Hh.
  - pose proof (runLpSolver_exact i m s h Hh) as R. cbv zeta in R.
    destruct R as (_ & T & _). eexists. split; [exact T | by right].
  - unfold runLpSolver. rewrite Hh. exists []. simpl.
    split; [by rewrite app_nil_r | by left].
Qed.

Lemma finish_trace {A} rs s : trace_ (flow_state (@finish _ _ A rs s)) = trace_ s.
Proof. unfold finish. simpl. apply beforeReturnFromRun_frame. Qed.

(** After a solve: the block ends through [finish] or goes on. *)
Lemma solve_then_trace {A} i m s0 (k : HighsStatus -> Highs -> Flow A) :
  (forall cs s1, trace_ (flow_state (k cs s1)) = trace_ s1) ->
  ∃ l, trace_ (flow_state (let '(cs, s1) := runLpSolver i m s0 in k cs s1))
       = trace_ s0 ++ l ∧
       (l = [] ∨ l = [EvSolveLp i m (options_ s0)]).
Proof.
  intros Hk. destruct (runLpSolver_stages i m s0) as (l & T & Hl).
  destruct (runLpSolver i m s0) as [cs s1]. simpl in T.
  exists l. by rewrite Hk.
Qed.

Lemma run_solve_stages pst rs s :
  ∃ l, trace_ (flow_state (run_solve pst 1 rs s)) = trace_ s ++ l ∧
       (stages 0 0 0 l
        ∨ (stages 1 0 0 l ∧ (pst = NotPresolved ∨ pst = NotReduced))
        ∨ (stages 0 1 0 l ∧ pst = Reduced)).
Proof.
  assert (Hnil : forall s' : Highs, trace_ s' = trace_ s ->
    ∃ l, trace_ s' = trace_ s ++ l ∧
         (stages 0 0 0 l
          ∨ (stages 1 0 0 l ∧ (pst = NotPresolved ∨ pst = NotReduced))
          ∨ (stages 0 1 0 l ∧ pst = Reduced))).
  { intros s' E. exists []. rewrite app_nil_r. split; [done | by left]. }
  unfold run_solve. destruct pst.
  - (* NotPresolved *)
    destruct (set_hmo_lp_name_frame original_hmo "Original LP" s)
      as (_ & _ & N3 & _).
    match goal with |- context [runLpSolver ?i ?m ?x] =>
      destruct (solve_then_trace (A := HighsStatus * nat) i m x
                  (fun cs s1 =>
                     if decide (interpretCallStatus cs rs = Error)
                     then finish (interpretCallStatus cs rs) s1
                     else Continue (interpretCallStatus cs rs, original_hmo) s1))
        as (l & T & Hl)
    end.
    { intros cs s1. case_decide; [apply finish_trace | done]. }
    exists l. rewrite T, N3. split; [done |].
    destruct Hl as [-> | ->]; [by left | right; left].
    split; [done | by left].
  - (* NotReduced *)
    destruct (set_hmo_lp_name_frame original_hmo "Unreduced LP" s)
      as (_ & _ & N3 & _).
    match goal with |- context [runLpSolver ?i ?m ?x] =>
      destruct (solve_then_trace (A := HighsStatus * nat) i m x
                  (fun cs s1 =>
                     if decide (interpretCallStatus cs rs = Error)
                     then finish (interpretCallStatus cs rs) s1
                     else Continue (interpretCallStatus cs rs, original_hmo) s1))
        as (l & T & Hl)
    end.
    { intros cs s1. case_decide; [apply finish_trace | done]. }
    exists l. rewrite T, N3. split; [done |].
    destruct Hl as [-> | ->]; [by left | right; left].
    split; [done | by right].
  - (* Infeasible *)
    apply Hnil. rewrite finish_trace. by case_decide.
  - (* Unbounded *)
    apply Hnil. rewrite finish_trace. by case_decide.
  - (* Reduced *)
    destruct (cleanBounds _ _) as [cb reduced_lp].
    case_decide as Hcb; [by apply Hnil |].
    match goal with
    | |- context [runLpSolver _ _ (set_options_ _ (set_hmo_lp_name ?i ?n ?x))] =>
        destruct (set_hmo_lp_name_frame i n x) as (_ & _ & N3 & _);
        set (sc := set_hmo_lp_name i n x) in *
    end.
    simpl in N3. clearbody sc.
    match goal with |- context [runLpSolver ?i ?m ?x] =>
      destruct (runLpSolver_stages i m x) as (l & T & Hl);
      destruct (runLpSolver i m x) as [cs s1]
    end.
    simpl in T. exists l. split.
    + case_decide; [rewrite finish_trace |]; simpl; by rewrite T, N3.
    + destruct Hl as [-> | ->]; [by left | right; right]. done.
  - (* ReducedToEmpty *)
    by apply Hnil.
  - (* Timeout *)
    by apply Hnil.
  - (* NullError *)
    apply Hnil. by rewrite finish_trace.
  - (* OptionsError *)
    by apply Hnil.
Qed.

Lemma run_hot_start_stages rs s :
  ∃ l, trace_ (flow_state (run_hot_start rs s)) = trace_ s ++ l ∧
       (stages 0 0 0 l ∨ stages 1 0 0 l).
Proof.
  unfold run_hot_start.
  match goal with
  | |- context [runLpSolver _ _ (set_hmo_lp_name ?i ?n ?x)] =>
      destruct (set_hmo_lp_name_frame i n x) as (_ & _ & N3 & _);
      set (sc := set_hmo_lp_name i n x) in *
  end.
  assert (N : trace_ sc = trace_ s).
  { rewrite N3. by case_match. }
  clearbody sc.
  match goal with |- context [runLpSolver ?i ?m ?x] =>
    destruct (runLpSolver_stages i m x) as (l & T & Hl);
    destruct (runLpSolver i m x) as [cs s1]
  end.
  simpl in T. exists l. split.
  - case_decide; [rewrite finish_trace |]; simpl; by rewrite T, N.
  - destruct Hl as [-> | ->]; [by left | by right].
Qed.

Lemma runPostsolve_stages s :
  ∃ l, trace_ (runPostsolve s).2 = trace_ s ++ l ∧ stages 0 0 1 l.
Proof.
  pose proof (runPostsolve_frame s) as F. simpl in F.
  destruct F as (_ & _ & _ & _ & _ & _ & _ & _ & l & T & Fl).
  exists (l ++ [EvPostsolve (runPostsolve s).1]). split; [done |].
  assert (stages 0 0 0 l).
  { clear T. induction Fl as [| e l He _ IH]; [done |].
    destruct e; try done; exact IH. }
  by apply (stages_app 0 0 0 0 0 1).
Qed.

Lemma run_postsolve_stages pst solved rs s :
  ∃ l, trace_ (flow_state (run_postsolve pst solved rs s)) = trace_ s ++ l ∧
       (stages 0 0 0 l
        ∨ ((stages 0 0 1 l ∨ stages 1 0 1 l) ∧
           (pst = Reduced ∨ pst = ReducedToEmpty))).
Proof.
  unfold run_postsolve.
  case_decide as Hopt; [case_decide as Hred |].
  - match goal with |- context [runPostsolve ?x] =>
      assert (Hx : trace_ x = trace_ s) by (by case_decide);
      set (sx := x) in *; clearbody sx
    end.
    destruct (runPostsolve_stages sx) as (l1 & T1 & S1).
    destruct (runPostsolve sx) as [y s1]. simpl in T1.
    case_decide as Hy.
    + destruct (run_hot_start_stages rs s1) as (l2 & T2 & S2).
      exists (l1 ++ l2). split; [by rewrite T2, T1, Hx, app_assoc |].
      right. split; [| done].
      destruct S2 as [S2 | S2].
      * left. by apply (stages_app 0 0 1 0 0 0).
      * right. by apply (stages_app 0 0 1 1 0 0).
    + exists l1. rewrite finish_trace. simpl. split; [by rewrite T1, Hx |].
      right. split; [by left | done].
  - exists []. rewrite app_nil_r. split; [done | by left].
  - exists []. rewrite app_nil_r. split; [done | by left].
Qed.

Lemma run_stages s :
  length (hmos_ s) = 1%nat ->
  ∃ l, trace_ (run s).2 = trace_ s ++ run_entry s :: l ∧
       ∃ a b c, stages a b c l ∧ (a <= 1)%nat ∧ (b <= 1)%nat ∧ (c <= 1)%nat.
Proof.
  intros Hlen.
  destruct (decide (numCol_ (lp_ s) = 0%nat)) as [Hcol | Hcol].
  { destruct (run_no_columns s Hlen Hcol) as (_ & _ & _ & _ & _ & _ & T & _).
    exists []. split; [done |]. exists 0%nat, 0%nat, 0%nat.
    split_and!; try done; lia. }
  rewrite run_unfold by done.
  destruct (run_start_spec s Hlen)
    as (_ & T & L & _ & _ & _ & _ & _ & Ss & _).
  set (sy := run_start s) in *. clearbody sy.
  assert (Hh : forall solved rs (s1 : Highs) l,
    (1 <= length (hmos_ s1) <= 2)%nat -> trace_ s1 = trace_ sy ++ l ->
    trace_ (run_harvest solved rs s1).2 = trace_ s ++ run_entry s :: l).
  { intros solved rs s1 l L1 T1.
    destruct (run_harvest_frame solved rs s1 L1) as (_ & _ & -> & _).
    by rewrite T1, T, <- app_assoc. }
  destruct (considers_presolve s).
  - unfold run_with_presolve.
    match goal with |- context [runPresolve ?x] =>
      assert (Hx : trace_ x = trace_ sy ∧ scaled_model_status_ x = NOTSET ∧
                   length (hmos_ x) = 1%nat)
        by (case_match; simpl; rewrite ?length_alter; split_and!; auto);
      set (sx := x) in *; clearbody sx
    end.
    destruct Hx as (X1 & X2 & X3).
    pose proof (runPresolve_frame sx) as F. simpl in F.
    destruct F as (F1 & _ & _ & F4 & _ & _ & _ & _ & l0 & T0 & F0).
    destruct (runPresolve sx) as [pst s1]. simpl in *.
    assert (S0 : stages 0 0 0 (l0 ++ [EvPresolve pst])).
    { apply (stages_app 0 0 0 0 0 0); [| done].
      clear T0. induction F0 as [| e l He _ IH]; [done |].
      destruct He as [-> _]. exact IH. }
    assert (S1 : scaled_model_status_ s1 = NOTSET) by congruence.
    assert (L1 : length (hmos_ s1) = 1%nat) by congruence.
    pose proof (run_solve_spec pst OK s1 ltac:(done) S1 L1) as Hsolve.
    destruct (run_solve_stages pst OK s1) as (l1 & T1 & Hl1).
    destruct (run_solve pst 1 OK s1) as [st s2 | [rs solved] s2] eqn:Hs;
      simpl in T1.
    + exists ((l0 ++ [EvPresolve pst]) ++ l1). split.
      { simpl. rewrite T1, T0, X1, T, <- !app_assoc. done. }
      destruct Hl1 as [H | [[H _] | [H _]]].
      * exists 0%nat, 0%nat, 0%nat. split_and!; try lia.
        by apply (stages_app 0 0 0 0 0 0).
      * exists 1%nat, 0%nat, 0%nat. split_and!; try lia.
        by apply (stages_app 0 0 0 1 0 0).
      * exists 0%nat, 1%nat, 0%nat. split_and!; try lia.
        by apply (stages_app 0 0 0 0 1 0).
    + simpl in Hsolve. destruct Hsolve as (R2 & _ & _ & S2 & _ & L2).
      destruct (run_postsolve_spec pst solved rs s2 R2 S2 ltac:(lia))
        as (x & _ & Hpost).
      destruct (run_postsolve_stages pst solved rs s2) as (l2 & T2 & Hl2).
      assert (Hst : ∃ a b c, stages a b c (l1 ++ l2) ∧
                             (a <= 1)%nat ∧ (b <= 1)%nat ∧ (c <= 1)%nat).
      { destruct Hl1 as [H1 | [[H1 Hp1] | [H1 Hp1]]];
          destruct Hl2 as [H2 | [[H2 | H2] Hp2]].
        - exists 0%nat, 0%nat, 0%nat. split_and!; try lia.
          by apply (stages_app 0 0 0 0 0 0).
        - exists 0%nat, 0%nat, 1%nat. split_and!; try lia.
          by apply (stages_app 0 0 0 0 0 1).
        - exists 1%nat, 0%nat, 1%nat. split_and!; try lia.
          by apply (stages_app 0 0 0 1 0 1).
        - exists 1%nat, 0%nat, 0%nat. split_and!; try lia.
          by apply (stages_app 1 0 0 0 0 0).
        - destruct Hp1 as [-> | ->], Hp2 as [? | ?]; discriminate.
        - destruct Hp1 as [-> | ->], Hp2 as [? | ?]; discriminate.
        - exists 0%nat, 1%nat, 0%nat. split_and!; try lia.
          by apply (stages_app 0 1 0 0 0 0).
        - exists 0%nat, 1%nat, 1%nat. split_and!; try lia.
          by apply (stages_app 0 1 0 0 0 1).
        - exists 1%nat, 1%nat, 1%nat. split_and!; try lia.
          by apply (stages_app 0 1 0 1 0 1). }
      destruct Hst as (a & b & c & Hst & Ha & Hb & Hc).
      assert (Hall : stages a b c ((l0 ++ [EvPresolve pst]) ++ l1 ++ l2)).
      { by apply (stages_app 0 0 0 a b c). }
      exists ((l0 ++ [EvPresolve pst]) ++ l1 ++ l2).
      split; [| by exists a, b, c].
      destruct (run_postsolve pst solved rs s2)
        as [st s3 | [rs' solved'] s3]; simpl in Hpost, T2.
      * simpl. rewrite T2, T1, T0, X1, T, <- !app_assoc. done.
      * destruct Hpost as (_ & _ & L3 & _).
        apply Hh; [done |].
        rewrite T2, T1, T0, X1, <- !app_assoc. done.
  - pose proof (run_without_presolve_spec OK sy ltac:(done) Ss ltac:(lia)) as H.
    unfold run_without_presolve in *.
    match goal with |- context [runLpSolver ?i ?m ?x] =>
      assert (Hx : trace_ x = trace_ sy);
      [| destruct (runLpSolver_stages i m x) as (l & T1 & Hl);
         destruct (runLpSolver i m x) as [cs s1] ]
    end.
    { destruct (set_hmo_lp_name_frame original_hmo
                  "LP without presolve or with basis" sy)
        as (_ & _ & N3 & _).
      clear H. destruct (valid_ _); simpl; exact N3. }
    simpl in T1. exists l. split.
    + case_decide; simpl in *.
      * match goal with |- context [beforeReturnFromRun ?st ?x] =>
          destruct (beforeReturnFromRun_frame st x) as (-> & _)
        end.
        by rewrite T1, Hx, T, <- app_assoc.
      * destruct H as (_ & _ & L1 & _). apply Hh; [lia |].
        by rewrite T1, Hx.
    + destruct Hl as [-> | ->].
      * exists 0%nat, 0%nat, 0%nat. split_and!; try done; lia.
      * exists 1%nat, 0%nat, 0%nat. split_and!; try done; lia.
Qed.

(** X18. In one call, [run] solves the original problem (context 0) at
    most once, solves the reduced problem (another context) at most once,
    and invokes postsolve at most once. *)
Theorem run_stages_once s :
  length (hmos_ s) = 1%nat -> trace_ s = [] ->
  (count solves_original (trace_ (run s).2) <= 1)%nat ∧
  (count solves_reduced (trace_ (run s).2) <= 1)%nat ∧
  (count postsolves (trace_ (run s).2) <= 1)%nat.
Proof.
  intros Hlen Ht.
  destruct (run_stages s Hlen) as (l & T & a & b & c & (A & B & Cc) & ? & ? & ?).
  rewrite T, Ht. simpl. lia.
Qed.

End StageTheory.

Section CompositionTheory.
Context `{C : Collaborators} `{Ar : !Arithmetic} `{Sv : !Services}.

Lemma runPresolve_reduce_counts s :
  let r := runPresolve_reduce s in
  let p := presolve_ r.2 in
  lp_ r.2 = lp_ s ∧
  (presolve_status_ p = Reduced ->
   n_cols_removed p
   = Z.of_nat (numCol_ (lp_ s)) - Z.of_nat (numCol_ (reduced_lp_ p)) ∧
   n_rows_removed p
   = Z.of_nat (numRow_ (lp_ s)) - Z.of_nat (numRow_ (reduced_lp_ p)) ∧
   n_nnz_removed p
   = Z.of_nat (length (Avalue_ (lp_ s)))
     - Z.of_nat (length (Avalue_ (reduced_lp_ p)))) ∧
  (presolve_status_ p = ReducedToEmpty ->
   n_cols_removed p = Z.of_nat (numCol_ (lp_ s)) ∧
   n_rows_removed p = Z.of_nat (numRow_ (lp_ s)) ∧
   n_nnz_removed p = Z.of_nat (length (Avalue_ (lp_ s)))).
Proof.
  cbv zeta. unfold runPresolve_reduce.
  destruct (presolve_run (presolve_ s)) as [st p].
  case_decide as Hmax; simpl.
  - destruct (presolve_status_ p) eqn:E; simpl; rewrite ?E;
      split_and!; try done; intros _; by split_and!.
  - destruct (presolve_status_ p) eqn:E; simpl; rewrite ?E;
      split_and!; try done; intros _; by split_and!.
Qed.

(** X19. After [runPresolve] has answered reduced or reduced-to-empty and
    the presolve component records the same status, the numbers of
    removed rows, columns and nonzeros that [getPresolveReductionCounts]
    reports add up, with the dimensions of the reduced LP, to those of the
    LP: they are the full dimensions of the LP when it was reduced to
    empty. *)
Theorem getPresolveReductionCounts_after_runPresolve s :
  let r := runPresolve s in
  let reduced := reduced_lp_ (presolve_ r.2) in
  let counts := getPresolveReductionCounts r.2 in
  (r.1 = Reduced -> presolve_status_ (presolve_ r.2) = Reduced ->
   counts.1.1 + Z.of_nat (numRow_ reduced) = Z.of_nat (numRow_ (lp_ s)) ∧
   counts.1.2 + Z.of_nat (numCol_ reduced) = Z.of_nat (numCol_ (lp_ s)) ∧
   counts.2 + Z.of_nat (length (Avalue_ reduced))
   = Z.of_nat (length (Avalue_ (lp_ s)))) ∧
  (r.1 = ReducedToEmpty ->
   presolve_status_ (presolve_ r.2) = ReducedToEmpty ->
   counts = (Z.of_nat (numRow_ (lp_ s)), Z.of_nat (numCol_ (lp_ s)),
             Z.of_nat (length (Avalue_ (lp_ s))))).
Proof.
  cbv zeta. unfold getPresolveReductionCounts, runPresolve.
  assert (G : forall x : Highs, lp_ x = lp_ s ->
    let r := runPresolve_reduce x in
    let p := presolve_ r.2 in
    (presolve_status_ p = Reduced ->
     n_rows_removed p + Z.of_nat (numRow_ (reduced_lp_ p))
     = Z.of_nat (numRow_ (lp_ s)) ∧
     n_cols_removed p + Z.of_nat (numCol_ (reduced_lp_ p))
     = Z.of_nat (numCol_ (lp_ s)) ∧
     n_nnz_removed p + Z.of_nat (length (Avalue_ (reduced_lp_ p)))
     = Z.of_nat (length (Avalue_ (lp_ s)))) ∧
    (presolve_status_ p = ReducedToEmpty ->
     (n_rows_removed p, n_cols_removed p, n_nnz_removed p)
     = (Z.of_nat (numRow_ (lp_ s)), Z.of_nat (numCol_ (lp_ s)),
        Z.of_nat (length (Avalue_ (lp_ s)))))).
  { intros x Hx. pose proof (runPresolve_reduce_counts x) as R.
    cbv zeta in R. rewrite Hx in R. destruct R as (_ & R1 & R2). split.
    - intros E. destruct (R1 E) as (-> & -> & ->). lia.
    - intros E. destruct (R2 E) as (-> & -> & ->). done. }
  unfold runPresolve_body, readRunHighsClock.
  repeat case_match; simplify_eq; simpl;
    try (split; intros; discriminate);
    match goal with
    | H : runPresolve_reduce ?x = _ |- _ =>
        pose proof (G x) as G'; rewrite H in G'; simpl in G';
          destruct G' as (G1 & G2); [by repeat case_match |]
    end;
    (split; intros _ E; [by apply G1 | by apply G2]).
Qed.

(** X20. After a successful addition or deletion of rows or columns that
    leaves context 0 with a valid basis, the caller-visible basis is that
    basis, and a [run] that follows, on a model with columns, invokes no
    presolve: it solves context 0 once, starting from that basis. *)
Theorem edit_then_run op s :
  length (hmos_ s) = 1%nat -> resizes op = true ->
  let s' := (edit op s).2 in
  (edit op s).1 = true ->
  valid_ (hmo_basis_ (hmo_at 0 s')) = true ->
  numCol_ (lp_ s') ≠ 0%nat ->
  basis_ s' = hmo_basis_ (hmo_at 0 s') ∧
  trace_ (run s').2
  = trace_ s ++ [EvRun true (presolve (options_ s'));
                 EvSolveLp 0 "Solving LP without presolve or with basis"
                   (pipeline_options s')] ∧
  ∃ h0, hmo_basis_ h0 = hmo_basis_ (hmo_at 0 s') ∧
        hmos_ (run s').2
        = [(solveLp "Solving LP without presolve or with basis"
              (set_lp_name_ "LP without presolve or with basis"
                 (lp_of (hmo_lp_ (hmo_at 0 s')) s'))
              (pipeline_options s') h0).2].
Proof.
  intros Hlen Hres. cbv zeta.
  destruct (edit_cases op) as [[_ E] | [E _]]; [| congruence].
  rewrite E. unfold edit_and_update.
  assert (Hhave : haveHmo s = true) by (unfold haveHmo; by rewrite Hlen).
  rewrite Hhave. cbn [negb].
  pose proof (interface_call_keeps op s) as F. cbv zeta in F.
  destruct F as (_ & _ & _ & F4 & _ & _ & F7).
  destruct (interface_call op s) as [cs s1]. simpl in F4, F7.
  case_decide as He; [simpl; discriminate |].
  assert (Hne1 : hmos_ s1 ≠ []).
  { destruct (hmos_ s1); [simpl in F7; lia | done]. }
  destruct (updateHighsSolutionBasis_spec s1 Hne1) as (_ & Hr).
  pose proof (updateHighsSolutionBasis_keeps s1) as G. cbv zeta in G.
  destruct G as (_ & _ & _ & G4 & G5).
  destruct (updateHighsSolutionBasis s1) as [u s2]. simpl in *.
  destruct u; simpl; [| discriminate].
  intros _ Hv Hcol.
  destruct Hr as (_ & _ & _ & _ & Hb). rewrite Hv in Hb.
  assert (Hl2 : length (hmos_ s2) = 1%nat) by congruence.
  assert (Hv2 : valid_ (basis_ s2) = true) by (by rewrite Hb).
  destruct (run_single_solve s2 Hl2 Hcol (or_introl Hv2))
    as (T & _ & h0 & Hb0 & _ & Hh & _).
  split_and!; [done | |].
  - rewrite T. unfold run_entry. by rewrite Hv2, G4, F4.
  - exists h0. split; [| done]. rewrite Hb0 by done. done.
Qed.

End CompositionTheory.

(** ** The statements on explicit data

    Each lemma instantiates one of the theorems above on the scenario of
    module [Demo] and evaluates what it says there. *)

Section OnExplicitData.
Import Demo.

Lemma run_when_presolve_detects_status_witness :
  length (hmos_ (start infeasible)) = 1%nat ∧
  EvPresolve Infeasible ∈ trace_ (run (C := infeasible) (start infeasible)).2 ∧
  (run (C := infeasible) (start infeasible)).1 = OK ∧
  model_status_ (run (C := infeasible) (start infeasible)).2
  = PRIMAL_INFEASIBLE ∧
  solution_ (run (C := infeasible) (start infeasible)).2 = empty_solution.
Proof.
  assert (H1 : length (hmos_ (start infeasible)) = 1%nat) by reflexivity.
  assert (H2 : trace_ (start infeasible) = []) by reflexivity.
  assert (H3 : EvPresolve Infeasible
                 ∈ trace_ (run (C := infeasible) (start infeasible)).2)
    by (vm_compute; repeat constructor).
  destruct (run_when_presolve_detects_status (C := infeasible)
              (start infeasible) Infeasible H1 H2 H3 (or_introl eq_refl))
    as (R1 & R2 & _ & _ & R5 & _).
  split_and!; assumption.
Defined.

(** After an earlier solve and an invalidated basis, a presolve timeout
    marks presolve-error, returns Warning and leaves the old solution and
    info in place. *)
Lemma run_presolve_timeout_counterexample :
  EvPresolve Timeout ∈ trace_ (run (C := timed_out) (start timed_out)).2 ∧
  model_status_ (run (C := timed_out) (start timed_out)).2 = PRESOLVE_ERROR ∧
  (run (C := timed_out) (start timed_out)).1 = Warning ∧
  solution_ (run (C := timed_out) (start timed_out)).2 = old_solution ∧
  info_ (run (C := timed_out) (start timed_out)).2 = old_info ∧
  ¬ cleared (C := timed_out) (run (C := timed_out) (start timed_out)).2.
Proof.
  split_and!; try (vm_compute; reflexivity).
  - vm_compute. repeat constructor.
  - intros (H & _). vm_compute in H. discriminate.
Qed.

Lemma run_error_class_finalisation_witness :
  length (hmos_ (start timed_out)) = 1%nat ∧
  trace_ (start timed_out) = [] ∧
  (run (C := timed_out) (start timed_out)).1 = Warning ∧
  model_status_ (run (C := timed_out) (start timed_out)).2 = PRESOLVE_ERROR.
Proof.
  assert (H1 : length (hmos_ (start timed_out)) = 1%nat) by reflexivity.
  assert (H2 : trace_ (start timed_out) = []) by reflexivity.
  assert (H3 : EvPresolve Timeout
                 ∈ trace_ (run (C := timed_out) (start timed_out)).2)
    by (vm_compute; repeat constructor).
  destruct (run_error_class_finalisation (C := timed_out) (start timed_out)
              H1 H2) as (_ & _ & R & _).
  destruct (R Timeout H3 (or_introl eq_refl)) as (R1 & R2).
  split_and!; assumption.
Defined.


Lemma run_on_model_without_columns_witness :
  length (hmos_ start_without_columns) = 1%nat ∧
  numCol_ (lp_ start_without_columns) = 0%nat ∧
  (run (C := unreduced) start_without_columns).1 = OK ∧
  model_status_ (run (C := unreduced) start_without_columns).2 = MODEL_EMPTY ∧
  solution_ (run (C := unreduced) start_without_columns).2 = empty_solution ∧
  basis_ (run (C := unreduced) start_without_columns).2 = empty_basis.
Proof.
  assert (H1 : length (hmos_ start_without_columns) = 1%nat) by reflexivity.
  assert (H2 : numCol_ (lp_ start_without_columns) = 0%nat) by reflexivity.
  destruct (run_on_model_without_columns (C := unreduced)
              start_without_columns H1 H2) as (R1 & R2 & _ & R4 & R5 & _).
  split_and!; assumption.
Defined.

(** C5. Presolve reduces the LP, the reduced LP is solved to optimality
    and postsolve answers a basis error.  [run] has invoked postsolve and
    returns Error, and context 0 carries postsolve-error as both its
    statuses; but the two statuses of the result, which lines 695-696 set
    to postsolve-error, are not set on return: the [clearSolver] of the
    finalizer has reset them. *)
Lemma run_postsolve_failure_loses_status :
  EvPostsolve BasisError
    ∈ trace_ (run (C := failing_postsolve) (start failing_postsolve)).2 ∧
  (run (C := failing_postsolve) (start failing_postsolve)).1 = Error ∧
  context0_status POSTSOLVE_ERROR
    (run (C := failing_postsolve) (start failing_postsolve)).2 ∧
  model_status_ (run (C := failing_postsolve) (start failing_postsolve)).2
  = NOTSET ∧
  scaled_model_status_
    (run (C := failing_postsolve) (start failing_postsolve)).2 = NOTSET ∧
  model_status_ (run (C := failing_postsolve) (start failing_postsolve)).2
  ≠ POSTSOLVE_ERROR.
Proof.
  split_and!; try (vm_compute; reflexivity).
  - vm_compute. repeat constructor.
  - eexists. split_and!; vm_compute; reflexivity.
  - vm_compute. discriminate.
Qed.

Lemma postsolve_gate_witness :
  length (hmos_ (start failing_postsolve)) = 1%nat ∧
  trace_ (start failing_postsolve) = [] ∧
  (run (C := failing_postsolve) (start failing_postsolve)).1 = Error ∧
  context0_status POSTSOLVE_ERROR
    (run (C := failing_postsolve) (start failing_postsolve)).2 ∧
  cleared (C := failing_postsolve)
    (run (C := failing_postsolve) (start failing_postsolve)).2.
Proof.
  assert (H1 : length (hmos_ (start failing_postsolve)) = 1%nat)
    by reflexivity.
  assert (H2 : trace_ (start failing_postsolve) = []) by reflexivity.
  assert (H3 : EvPostsolve BasisError
    ∈ trace_ (run (C := failing_postsolve) (start failing_postsolve)).2)
    by (vm_compute; repeat constructor).
  destruct (postsolve_gate (C := failing_postsolve)
              (start failing_postsolve) H1 H2) as (_ & _ & R).
  destruct (R BasisError H3 ltac:(discriminate)) as (R1 & R2 & R5).
  split_and!; assumption.
Defined.




Lemma editor_operation_witness :
  hmos_ (start recovering) ≠ [] ∧
  (edit (C := recovering) add_one_row (start recovering)).1 = true ∧
  resynchronised (C := recovering)
    (edit (C := recovering) add_one_row (start recovering)).2.
Proof.
  assert (H1 : hmos_ (start recovering) ≠ []) by discriminate.
  destruct (editor_operation (C := recovering) add_one_row
              (start recovering))
    as (_ & _ & R).
  destruct (R H1 ltac:(discriminate) eq_refl) as (R1 & R2).
  split_and!; assumption.
Defined.

End OnExplicitData.

(** ** The further statements on explicit data *)

Section MoreOnExplicitData.
Import Demo DemoQueries.

Lemma getBasisInverse_as_solve_witness :
  0 <= 0 < Z.of_nat (numRow_ (hmo0_lp (C := unreduced) (start unreduced))) ∧
  getBasisInverseRow (C := unreduced) (Ar := arithmetic) (Sv := services true)
    0 buffers (start unreduced)
  = getBasisTransposeSolve (C := unreduced) (Sv := services true)
      [1] buffers (start unreduced).
Proof.
  assert (H1 : 0 <= 0
               < Z.of_nat (numRow_ (hmo0_lp (C := unreduced) (start unreduced))))
    by (vm_compute; split; [discriminate | reflexivity]).
  assert (H2 : forall k,
    (k < numRow_ (hmo0_lp (C := unreduced) (start unreduced)))%nat ->
    [1] !! k = Some (if decide (Z.of_nat k = 0)
                     then d_one (Arithmetic := arithmetic) else 0)).
  { intros [| k] Hk; [reflexivity | vm_compute in Hk; lia]. }
  split; [exact H1 |].
  exact (proj1 (getBasisInverse_as_solve (C := unreduced) (Ar := arithmetic)
                  (Sv := services true) 0 [1] buffers (start unreduced)
                  H1 H2)).
Defined.

Lemma getReducedColumn_solves_column_witness :
  0 <= 0 < Z.of_nat (numCol_ (hmo0_lp (C := unreduced) (start unreduced))) ∧
  ∃ a : list Z,
    getReducedColumn (C := unreduced) (Sv := services true)
      0 buffers (start unreduced)
    = getBasisSolve (C := unreduced) (Sv := services true)
        a buffers (start unreduced) ∧
    length a = 1%nat.
Proof.
  assert (H1 : 0 <= 0
               < Z.of_nat (numCol_ (hmo0_lp (C := unreduced) (start unreduced))))
    by (vm_compute; split; [discriminate | reflexivity]).
  split; [exact H1 |].
  destruct (getReducedColumn_solves_column (C := unreduced)
              (Sv := services true) 0 buffers (start unreduced) H1)
    as (a & E & L & _).
  exists a. split; [exact E | exact L].
Defined.

Lemma getReducedRow_output_witness :
  (getReducedRow (C := unreduced) (Ar := arithmetic) (Sv := services true)
     0 buffers (start unreduced)).1.1 = OK ∧
  length (vector_ (getReducedRow (C := unreduced) (Ar := arithmetic)
                     (Sv := services true) 0 buffers (start unreduced)).1.2)
  = length (vector_ buffers).
Proof.
  assert (H1 : (getReducedRow (C := unreduced) (Ar := arithmetic)
                  (Sv := services true) 0 buffers (start unreduced)).1.1 = OK)
    by reflexivity.
  split; [exact H1 |].
  exact (proj1 (proj2 (getReducedRow_output (C := unreduced)
                         (Ar := arithmetic) (Sv := services true)
                         0 buffers (start unreduced) H1))).
Defined.

Lemma run_without_presolve_stage_witness :
  length (hmos_ warm) = 1%nat ∧ numCol_ (lp_ warm) ≠ 0%nat ∧
  valid_ (basis_ warm) = true ∧
  options_ (run (C := unreduced) warm).2 = pipeline_options (C := unreduced) warm.
Proof.
  assert (H1 : length (hmos_ warm) = 1%nat) by reflexivity.
  assert (H2 : numCol_ (lp_ warm) ≠ 0%nat) by discriminate.
  assert (H3 : valid_ (basis_ warm) = true) by reflexivity.
  split_and!; try assumption.
  exact (proj1 (proj2 (run_without_presolve_stage (C := unreduced) warm
                         H1 H2 (or_introl H3)))).
Defined.

Lemma run_presolve_exactly_when_witness :
  length (hmos_ (start unreduced)) = 1%nat ∧
  numCol_ (lp_ (start unreduced)) ≠ 0%nat ∧
  trace_ (start unreduced) = [] ∧
  ∃ l0 pst l1,
    trace_ (run (C := unreduced) (start unreduced)).2
    = run_entry (start unreduced) :: l0 ++ EvPresolve pst :: l1 ∧
    Forall (fun e => ¬ is_presolve e) (l0 ++ l1).
Proof.
  assert (H1 : length (hmos_ (start unreduced)) = 1%nat) by reflexivity.
  assert (H2 : numCol_ (lp_ (start unreduced)) ≠ 0%nat) by discriminate.
  assert (H3 : trace_ (start unreduced) = []) by reflexivity.
  split_and!; try assumption.
  apply (proj2 (run_presolve_exactly_when (C := unreduced) (start unreduced)
                  H1 H2 H3)).
  split; [reflexivity | vm_compute; discriminate].
Defined.

Lemma setBasis_then_run_witness :
  length (hmos_ (start unreduced)) = 1%nat ∧
  numCol_ (lp_ (start unreduced)) ≠ 0%nat ∧
  trace_ (start unreduced) = [] ∧
  setBasis (Sv := services false) basis2 (start unreduced)
  = (Error, start unreduced) ∧
  (setBasis (Sv := services true) basis2 (start unreduced)).1
  = OK.
Proof.
  assert (H1 : length (hmos_ (start unreduced)) = 1%nat) by reflexivity.
  assert (H2 : numCol_ (lp_ (start unreduced)) ≠ 0%nat) by discriminate.
  assert (H3 : trace_ (start unreduced) = []) by reflexivity.
  split_and!; try assumption.
  - exact (proj1 (setBasis_then_run (C := unreduced) (Sv := services false)
                    basis2 (start unreduced) H1 H2 H3) eq_refl).
  - destruct (proj2 (setBasis_then_run (C := unreduced) (Sv := services true)
                       basis2 (start unreduced) H1 H2 H3) eq_refl)
      as (E & _).
    rewrite E. reflexivity.
Defined.

Lemma setBasis_logical_then_run_witness :
  length (hmos_ warm) = 1%nat ∧ trace_ warm = [] ∧
  valid_ (basis_ (setBasis_logical (C := unreduced) (Sv := services true)
                    warm).2) = false ∧
  ∃ l0 pst l1,
    trace_ (run (C := unreduced)
              (setBasis_logical (C := unreduced) (Sv := services true)
                 warm).2).2
    = EvRun false (presolve (options_ warm)) :: l0 ++ EvPresolve pst :: l1.
Proof.
  assert (H1 : length (hmos_ warm) = 1%nat) by reflexivity.
  assert (H2 : trace_ warm = []) by reflexivity.
  destruct (setBasis_logical_then_run (C := unreduced) (Sv := services true)
              warm H1 H2) as (_ & B & _ & _ & R).
  split_and!; try assumption.
  - rewrite B. reflexivity.
  - apply R; vm_compute; discriminate.
Defined.

Lemma run_optimal_result_witness :
  length (hmos_ (start unreduced)) = 1%nat ∧
  getModelStatus true (run (C := unreduced) (start unreduced)).2 = OPTIMAL ∧
  solution_ (run (C := unreduced) (start unreduced)).2
  = hmo_solution_ (hmo_at (C := unreduced) 0
                     (run (C := unreduced) (start unreduced)).2).
Proof.
  assert (H1 : length (hmos_ (start unreduced)) = 1%nat) by reflexivity.
  assert (H2 : getModelStatus true
                 (run (C := unreduced) (start unreduced)).2 = OPTIMAL)
    by (vm_compute; reflexivity).
  destruct (run_optimal_result (C := unreduced) (start unreduced) H1 H2)
    as (_ & _ & _ & R & _).
  split_and!; assumption.
Defined.

Lemma run_code_and_status_witness :
  length (hmos_ (start infeasible)) = 1%nat ∧
  (run (C := infeasible) (start infeasible)).1 = OK ∧
  definite (getModelStatus true (run (C := infeasible) (start infeasible)).2).
Proof.
  assert (H1 : length (hmos_ (start infeasible)) = 1%nat) by reflexivity.
  assert (H2 : (run (C := infeasible) (start infeasible)).1 = OK)
    by (vm_compute; reflexivity).
  split_and!; try assumption.
  exact (proj1 (run_code_and_status (C := infeasible) (start infeasible) H1)
           H2).
Defined.

Lemma run_stages_once_witness :
  length (hmos_ (start recovering)) = 1%nat ∧
  trace_ (start recovering) = [] ∧
  (count solves_original
     (trace_ (run (C := recovering) (start recovering)).2) <= 1)%nat ∧
  (count solves_reduced
     (trace_ (run (C := recovering) (start recovering)).2) <= 1)%nat.
Proof.
  assert (H1 : length (hmos_ (start recovering)) = 1%nat) by reflexivity.
  assert (H2 : trace_ (start recovering) = []) by reflexivity.
  destruct (run_stages_once (C := recovering) (start recovering) H1 H2)
    as (R1 & R2 & _).
  split_and!; assumption.
Defined.

Lemma edit_then_run_witness :
  length (hmos_ warm) = 1%nat ∧
  (edit (C := keeping_basis) add_one_row warm).1 = true ∧
  valid_ (basis_ (edit (C := keeping_basis) add_one_row warm).2) = true.
Proof.
  assert (H1 : length (hmos_ warm) = 1%nat) by reflexivity.
  assert (H2 : (edit (C := keeping_basis) add_one_row warm).1 = true)
    by reflexivity.
  assert (H3 : valid_ (hmo_basis_
                         (hmo_at (C := keeping_basis) 0
                            (edit (C := keeping_basis) add_one_row warm).2))
               = true) by reflexivity.
  assert (H4 : numCol_ (lp_ (edit (C := keeping_basis) add_one_row warm).2)
               ≠ 0%nat) by (vm_compute; discriminate).
  destruct (edit_then_run (C := keeping_basis) add_one_row warm H1 eq_refl
              H2 H3 H4) as (B & _).
  split_and!; [exact H1 | exact H2 | rewrite B; exact H3].
Defined.

End MoreOnExplicitData.
